(** * SNR modelling program: parameter dependency and range-control engine

    Shallow embedding of the controller functions of
    [PythonVersion/snr.py] ([increment_xlimits], [s_change],
    [model_change], [abundance_window], [reset_ab], [ab_window_close])
    and the properties of the specification that concern them.

    Python numbers are taken as exact rationals ([Q]): every arithmetic
    operation of the source is embedded with its mathematical meaning, and
    binary floating-point rounding is outside the model.  Numbers are
    compared with [==] ([Qeq]), the way Python's [==] compares values.
    The source computes in doubles; on the integers of the editors' range
    ([AxisSpec.exact_input]) every operation of lines 148-178 is exact in
    doubles, and the statements on the numbers computed there are made
    for these values.

    The widget classes ([snr_gui]), the physics model ([snr_calc]) and the
    plots ([snr_plot]) are not among the sources; the few operations the
    controller calls on them are embedded as plain field reads and writes
    on records, and their calls into the model and the plot are recorded in
    an event log. *)

From Stdlib Require Import ZArith Zpow_facts QArith Qround Qminmax Qpower Qabs Lqa Lia Bool String List.
From stdpp Require Import gmap strings.
Import ListNotations.

Local Open Scope Q_scope.

(** ** Python numeric primitives *)

Module Py.

(** [math.floor(math.log10(v))] for [v >= 1], by repeated division. *)
Fixpoint log10_up (fuel : nat) (v : Q) : Z :=
  match fuel with
  | O => 0%Z
  | S f => if Qle_bool 10 v then (1 + log10_up f (v / 10))%Z else 0%Z
  end.

(** [math.floor(math.log10(v))] for [0 < v < 10], by repeated
    multiplication. *)
Fixpoint log10_down (fuel : nat) (v : Q) : Z :=
  match fuel with
  | O => 0%Z
  | S f => if Qle_bool 1 v then 0%Z else (log10_down f (v * 10) - 1)%Z
  end.

(** [math.floor(math.log10(v))].  [None] stands for the [ValueError]
    that [math.log10] raises on a non-positive argument.  The fuel is the
    bit size of the numerator (resp. denominator), which always suffices
    (see [floor_log10_spec]). *)
Definition floor_log10 (v : Q) : option Z :=
  match Qnum v with
  | Zpos n =>
      Some (if Qle_bool 1 v
            then log10_up (Pos.size_nat n) v
            else log10_down (Pos.size_nat (Qden v)) v)
  | _ => None
  end.

(** Python 3 [round(q)]: nearest integer, ties to the even one. *)
Definition round (q : Q) : Z :=
  let f := Qfloor q in
  match Qcompare (q - inject_Z f) (1 # 2) with
  | Lt => f
  | Gt => (f + 1)%Z
  | Eq => if Z.even f then f else (f + 1)%Z
  end.

(** [x % y] on numbers, for a positive [y]: the result lies in [[0, y)]. *)
Definition mod_ (x y : Q) : Q := x - inject_Z (Qfloor (x / y)) * y.

(** [math.floor(x)] and [math.ceil(x)], as numbers. *)
Definition floor (x : Q) : Q := inject_Z (Qfloor x).
Definition ceil (x : Q) : Q := inject_Z (Qceiling x).

(** [max(a, b)] of two numbers. *)
Definition max (a b : Q) : Q := if Qle_bool b a then a else b.

End Py.

(** ** Calls into the collaborators

    [SNR.update_output()] (the full model recompute) and
    [SNR.graph.display_plot(SNR.get_limits())] (the redraw) are recorded in
    an event log, each with a snapshot of the controller data the callee
    reads at that moment. *)

Inductive Event (Snapshot : Type) : Type :=
  | UpdateOutput (seen : Snapshot)
  | DisplayPlot (seen : Snapshot).

Arguments UpdateOutput {Snapshot} seen.
Arguments DisplayPlot {Snapshot} seen.

Definition is_update_output {S : Type} (e : Event S) : bool :=
  match e with UpdateOutput _ => true | DisplayPlot _ => false end.

(** ** The axis-limit spinboxes: [increment_xlimits] *)

Module Axis.

(** [widget.identifier] of the two limit spinboxes. *)
Inductive Ident : Type := xmin | xmax.

(** Modelled from the spec: the [InputSpinbox] class of [snr_gui] is not
    among the sources.  A spinbox holds its displayed number
    ([value_var], read by [get_value]), the Tk options [increment] and
    [to], and the last accepted value [previous]. *)
Record Spinbox : Type := {
  value_var : Q;
  increment : Q;
  to : Q;
  previous : Z
}.

Definition get_value (w : Spinbox) : Q := value_var w.

(** What [SNR.get_limits()] reads from [SNR.data]. *)
Record Limits : Type := {
  seen_range : string;
  seen_xmin : Q;
  seen_xmax : Q
}.

Record State : Type := {
  data_range : string;     (* SNR.data["range"] *)
  range_var : string;      (* SNR.widgets["range"].value_var *)
  data_xmin : Q;           (* SNR.data["xmin"] *)
  data_xmax : Q;           (* SNR.data["xmax"] *)
  w_xmin : Spinbox;        (* widgets["xmin"] *)
  w_xmax : Spinbox;        (* widgets["xmax"] *)
  log : list (Event Limits)
}.

Definition widget (st : State) (w : Ident) : Spinbox :=
  match w with xmin => w_xmin st | xmax => w_xmax st end.

(** The other limit spinbox. *)
Definition paired (w : Ident) : Ident :=
  match w with xmin => xmax | xmax => xmin end.

(** [SNR.data[widget.identifier]] *)
Definition data (st : State) (w : Ident) : Q :=
  match w with xmin => data_xmin st | xmax => data_xmax st end.

Definition set_widget (w : Ident) (sb : Spinbox) (st : State) : State :=
  match w with
  | xmin => {| data_range := data_range st; range_var := range_var st;
               data_xmin := data_xmin st; data_xmax := data_xmax st;
               w_xmin := sb; w_xmax := w_xmax st; log := log st |}
  | xmax => {| data_range := data_range st; range_var := range_var st;
               data_xmin := data_xmin st; data_xmax := data_xmax st;
               w_xmin := w_xmin st; w_xmax := sb; log := log st |}
  end.

(** [SNR.data[widget.identifier] = v] *)
Definition set_data (w : Ident) (v : Q) (st : State) : State :=
  match w with
  | xmin => {| data_range := data_range st; range_var := range_var st;
               data_xmin := v; data_xmax := data_xmax st;
               w_xmin := w_xmin st; w_xmax := w_xmax st; log := log st |}
  | xmax => {| data_range := data_range st; range_var := range_var st;
               data_xmin := data_xmin st; data_xmax := v;
               w_xmin := w_xmin st; w_xmax := w_xmax st; log := log st |}
  end.

(** [widget.input.config(increment=inc)] *)
Definition config_increment (w : Ident) (inc : Q) (st : State) : State :=
  let sb := widget st w in
  set_widget w {| value_var := value_var sb; increment := inc;
                  to := to sb; previous := previous sb |} st.

(** [widget.value_var.set(v)] *)
Definition set_value (w : Ident) (v : Q) (st : State) : State :=
  let sb := widget st w in
  set_widget w {| value_var := v; increment := increment sb;
                  to := to sb; previous := previous sb |} st.

(** [widget.previous = p] *)
Definition set_previous (w : Ident) (p : Z) (st : State) : State :=
  let sb := widget st w in
  set_widget w {| value_var := value_var sb; increment := increment sb;
                  to := to sb; previous := p |} st.

(** Lines 145-147: the dropdown is made to read "Custom". *)
Definition force_custom (st : State) : State :=
  if negb (String.eqb (data_range st) "Custom")
  then {| data_range := "Custom"; range_var := "Custom";
          data_xmin := data_xmin st; data_xmax := data_xmax st;
          w_xmin := w_xmin st; w_xmax := w_xmax st; log := log st |}
  else st.

(** [SNR.graph.display_plot(SNR.get_limits())] *)
Definition display_plot (st : State) : State :=
  {| data_range := data_range st; range_var := range_var st;
     data_xmin := data_xmin st; data_xmax := data_xmax st;
     w_xmin := w_xmin st; w_xmax := w_xmax st;
     log := log st ++ [DisplayPlot {| seen_range := data_range st;
                                      seen_xmin := data_xmin st;
                                      seen_xmax := data_xmax st |}] |}.

(** Lines 149-157: the increment for the current value.  The [try] body
    raises [ValueError] exactly when [math.log10] does.  The logarithm is
    taken with its mathematical value: [math.log10] of a double a few
    units in the last place below a power of ten may round up to the
    exponent, which this definition does not follow. *)
Definition compute_increment (old_val : Q) (direction : Z) : Q :=
  match Py.floor_log10 old_val with
  | Some k =>
      let increment := Py.max (10 ^ k) 10 in
      if Qeq_bool old_val increment && negb (Qeq_bool increment 10)
         && (direction =? -1)%Z
      then increment / 10
      else increment
  | None => 10
  end.

(** Condition of line 163. *)
Definition must_snap (new_val increment old_val maximum : Q) (direction : Z) : bool :=
  negb (Qeq_bool (Py.mod_ new_val increment) 0)
  && negb ((Py.round old_val =? Py.round maximum)%Z && (direction =? 1)%Z).

(** Lines 166-169. *)
Definition snap (new_val increment : Q) (direction : Z) : Q :=
  if (direction =? 1)%Z
  then Py.floor (new_val / increment) * increment
  else Py.ceil (new_val / increment) * increment.

(** Lines 171-173. *)
Definition clamp (new_val maximum : Q) : Q :=
  if negb (Qle_bool new_val maximum) then maximum else new_val.

(** Condition of lines 174-175, read after the snapping branch may have
    rewritten the edited spinbox. *)
Definition may_commit (old_val new_val : Q) (direction : Z) (st : State) : bool :=
  negb (Qeq_bool old_val 0 && (direction =? -1)%Z)
  && negb (Qeq_bool new_val (get_value (w_xmin st))
           || Qeq_bool new_val (get_value (w_xmax st))).

(** Lines 159-178: the arrow branch, from the state in which the new
    increment is already configured.  Returns the state together with the
    final [new_val]. *)
Definition arrow_step (w : Ident) (direction : Z) (old_val increment : Q)
    (st : State) : State * Q :=
  let maximum := to (widget st w) in
  let new_val := old_val + inject_Z direction * Axis.increment (widget st w) in
  let '(new_val, st) :=
    if must_snap new_val increment old_val maximum direction
    then let new_val := snap new_val increment direction in
         (new_val, set_value w (new_val - inject_Z direction * increment) st)
    else (new_val, st) in
  let new_val := clamp new_val maximum in
  if may_commit old_val new_val direction st
  then (set_previous w (Py.round new_val) (set_data w new_val st), new_val)
  else (st, new_val).

Definition increment_xlimits (w : Ident) (direction : Z) (st : State) : State :=
  let st := force_custom st in
  let old_val := get_value (widget st w) in
  let increment := compute_increment old_val direction in
  let st := config_increment w increment st in
  let st :=
    if negb (direction =? 0)%Z
    then fst (arrow_step w direction old_val increment st)
    else set_previous w (Py.round old_val) (set_data w old_val st) in
  display_plot st.

(** The value [new_val] reaches at line 173 when an arrow is used on an
    editor showing [old_val] with upper bound [maximum], in exact
    arithmetic (the sum of line 162 is not rounded). *)
Definition arrow_value (old_val maximum : Q) (direction : Z) : Q :=
  let increment := compute_increment old_val direction in
  let new_val := old_val + inject_Z direction * increment in
  clamp (if must_snap new_val increment old_val maximum direction
         then snap new_val increment direction else new_val) maximum.

(** The spinboxes as [__main__] creates them (lines 532-535), for given
    displayed numbers. *)
Definition main_xmin (v : Q) : Spinbox :=
  {| value_var := v; increment := 10; to := 100000000; previous := 0 |}.
Definition main_xmax (v : Q) : Spinbox :=
  {| value_var := v; increment := 100; to := 100000000; previous := 900 |}.

(** A session state showing the preset range "Current" with both limits
    as displayed. *)
Definition showing (lo hi : Q) : State :=
  {| data_range := "Current"; range_var := "Current";
     data_xmin := lo; data_xmax := hi;
     w_xmin := main_xmin lo; w_xmax := main_xmax hi; log := [] |}.

End Axis.

(** ** The discriminant rules: [s_change] and [model_change] *)

Module Rules.

(** Modelled from the spec: the [InputParam] classes of [snr_gui] are not
    among the sources.  A widget holds its displayed value ([value_var]),
    the last value that passed validation ([previous]), the list of
    selectable values of a dropdown ([values]), the Tk state of its input
    and whether input and label are on the grid. *)
Record Widget (V : Type) : Type := {
  value_var : V;
  previous : V;
  values : list V;
  input_state : string;
  input_shown : bool;
  label_shown : bool
}.

Arguments value_var {V} _.
Arguments previous {V} _.
Arguments values {V} _.
Arguments input_state {V} _.
Arguments input_shown {V} _.
Arguments label_shown {V} _.

Section WidgetOps.
Context {V : Type}.

Definition get_value (w : Widget V) : V := value_var w.

(** [w.value_var.set(v)] *)
Definition set_value (v : V) (w : Widget V) : Widget V :=
  {| value_var := v; previous := previous w; values := values w;
     input_state := input_state w; input_shown := input_shown w;
     label_shown := label_shown w |}.

(** [w.input.config(state=s)] *)
Definition config_state (s : string) (w : Widget V) : Widget V :=
  {| value_var := value_var w; previous := previous w; values := values w;
     input_state := s; input_shown := input_shown w;
     label_shown := label_shown w |}.

(** [w.input.config(values=vs)] *)
Definition config_values (vs : list V) (w : Widget V) : Widget V :=
  {| value_var := value_var w; previous := previous w; values := vs;
     input_state := input_state w; input_shown := input_shown w;
     label_shown := label_shown w |}.

(** [w.input.grid()] / [w.input.grid_remove()] *)
Definition input_grid (shown : bool) (w : Widget V) : Widget V :=
  {| value_var := value_var w; previous := previous w; values := values w;
     input_state := input_state w; input_shown := shown;
     label_shown := label_shown w |}.

(** [w.label.grid()] / [w.label.grid_remove()] *)
Definition label_grid (shown : bool) (w : Widget V) : Widget V :=
  {| value_var := value_var w; previous := previous w; values := values w;
     input_state := input_state w; input_shown := input_shown w;
     label_shown := shown |}.

(** Input and label together, in the order of the source. *)
Definition grid (w : Widget V) : Widget V := label_grid true (input_grid true w).
Definition grid_remove (w : Widget V) : Widget V :=
  label_grid false (input_grid false w).

(** Modelled from the spec: [revert_value] of [snr_gui] is not among the
    sources; the field is "force-reverted to its last externally-valid
    value". *)
Definition revert_value (w : Widget V) : Widget V := set_value (previous w) w.

Definition visible (w : Widget V) : bool * bool := (input_shown w, label_shown w).
End WidgetOps.

(** The radio group [widgets["model"]]: the selected key and the Tk state
    of each button ([widgets["model"].input[key]]). *)
Record Radio : Type := {
  selected : string;
  buttons : gmap string string
}.

(** [widgets["model"].input[key].config(state=s)] *)
Definition config_button (key s : string) (r : Radio) : Radio :=
  {| selected := selected r; buttons := <[key := s]> (buttons r) |}.

(** What [SNR.update_output()] reads of the widgets modelled here. *)
Record Inputs : Type := {
  seen_s : string;
  seen_n : Z;
  seen_n_values : list Z;
  seen_model : string;
  seen_t_tw : string
}.

Record State : Type := {
  s : Widget string;       (* widgets["s"], read through value_var.get() *)
  n : Widget Z;            (* widgets["n"] *)
  m_w : Widget Q;
  v_w : Widget Q;
  model : Radio;           (* widgets["model"] *)
  t_lk : Widget Q;
  gamma_0 : Widget Q;
  eps : Widget Q;
  t_tw : Widget string;    (* holds the text "N/A" while hidden *)
  c_tau : Widget Q;
  t_c : Q;                 (* SNR.calc["t_c"] *)
  t_pds : Q;               (* SNR.calc["t_pds"] *)
  log : list (Event Inputs)
}.

Definition with_s (w : Widget string) (st : State) : State :=
  {| s := w; n := n st; m_w := m_w st; v_w := v_w st; model := model st;
     t_lk := t_lk st; gamma_0 := gamma_0 st; eps := eps st; t_tw := t_tw st;
     c_tau := c_tau st; t_c := t_c st; t_pds := t_pds st; log := log st |}.

Definition with_n (w : Widget Z) (st : State) : State :=
  {| s := s st; n := w; m_w := m_w st; v_w := v_w st; model := model st;
     t_lk := t_lk st; gamma_0 := gamma_0 st; eps := eps st; t_tw := t_tw st;
     c_tau := c_tau st; t_c := t_c st; t_pds := t_pds st; log := log st |}.

Definition with_m_w (w : Widget Q) (st : State) : State :=
  {| s := s st; n := n st; m_w := w; v_w := v_w st; model := model st;
     t_lk := t_lk st; gamma_0 := gamma_0 st; eps := eps st; t_tw := t_tw st;
     c_tau := c_tau st; t_c := t_c st; t_pds := t_pds st; log := log st |}.

Definition with_v_w (w : Widget Q) (st : State) : State :=
  {| s := s st; n := n st; m_w := m_w st; v_w := w; model := model st;
     t_lk := t_lk st; gamma_0 := gamma_0 st; eps := eps st; t_tw := t_tw st;
     c_tau := c_tau st; t_c := t_c st; t_pds := t_pds st; log := log st |}.

Definition with_model (r : Radio) (st : State) : State :=
  {| s := s st; n := n st; m_w := m_w st; v_w := v_w st; model := r;
     t_lk := t_lk st; gamma_0 := gamma_0 st; eps := eps st; t_tw := t_tw st;
     c_tau := c_tau st; t_c := t_c st; t_pds := t_pds st; log := log st |}.

Definition with_t_lk (w : Widget Q) (st : State) : State :=
  {| s := s st; n := n st; m_w := m_w st; v_w := v_w st; model := model st;
     t_lk := w; gamma_0 := gamma_0 st; eps := eps st; t_tw := t_tw st;
     c_tau := c_tau st; t_c := t_c st; t_pds := t_pds st; log := log st |}.

Definition with_gamma_0 (w : Widget Q) (st : State) : State :=
  {| s := s st; n := n st; m_w := m_w st; v_w := v_w st; model := model st;
     t_lk := t_lk st; gamma_0 := w; eps := eps st; t_tw := t_tw st;
     c_tau := c_tau st; t_c := t_c st; t_pds := t_pds st; log := log st |}.

Definition with_eps (w : Widget Q) (st : State) : State :=
  {| s := s st; n := n st; m_w := m_w st; v_w := v_w st; model := model st;
     t_lk := t_lk st; gamma_0 := gamma_0 st; eps := w; t_tw := t_tw st;
     c_tau := c_tau st; t_c := t_c st; t_pds := t_pds st; log := log st |}.

Definition with_t_tw (w : Widget string) (st : State) : State :=
  {| s := s st; n := n st; m_w := m_w st; v_w := v_w st; model := model st;
     t_lk := t_lk st; gamma_0 := gamma_0 st; eps := eps st; t_tw := w;
     c_tau := c_tau st; t_c := t_c st; t_pds := t_pds st; log := log st |}.

Definition with_c_tau (w : Widget Q) (st : State) : State :=
  {| s := s st; n := n st; m_w := m_w st; v_w := v_w st; model := model st;
     t_lk := t_lk st; gamma_0 := gamma_0 st; eps := eps st; t_tw := t_tw st;
     c_tau := w; t_c := t_c st; t_pds := t_pds st; log := log st |}.

Definition inputs (st : State) : Inputs :=
  {| seen_s := get_value (s st); seen_n := get_value (n st);
     seen_n_values := values (n st); seen_model := selected (model st);
     seen_t_tw := get_value (t_tw st) |}.

(** Membership in a tuple of integers ([x in (0, 1, 2, 7)]). *)
Definition py_in (x : Z) (l : list Z) : bool := existsb (Z.eqb x) l.

Section Controller.
(** [SNR.update_output()] lives in [snr_calc], which is not among the
    sources: the transition times [t_c] and [t_pds] it leaves in
    [SNR.calc] are a parameter, a function of the whole state. *)
Variable recompute : State -> Q * Q.

(** [widgets["t_lk"].input.validate()]: Tk runs the entry's validation,
    which lives in [snr_gui]; it is a parameter acting on that entry. *)
Variable validate_t_lk : Widget Q -> Widget Q.

(** [SNR.update_output()] *)
Definition update_output (st : State) : State :=
  {| s := s st; n := n st; m_w := m_w st; v_w := v_w st; model := model st;
     t_lk := t_lk st; gamma_0 := gamma_0 st; eps := eps st; t_tw := t_tw st;
     c_tau := c_tau st;
     t_c := fst (recompute st); t_pds := snd (recompute st);
     log := log st ++ [UpdateOutput (inputs st)] |}.

Definition s_change (update : bool) (st : State) : State :=
  let st :=
    if String.eqb (value_var (s st)) "0" then
      let st := with_m_w (grid_remove (m_w st)) st in
      let st := with_v_w (grid_remove (v_w st)) st in
      let st := with_model (config_button "lk" "normal" (model st)) st in
      let st := with_model (config_button "wl" "normal" (model st)) st in
      let st :=
        if Qle_bool ((1 # 10) * t_c st) (t_pds st)
        then with_model (config_button "tw" "normal" (model st)) st
        else st in
      let st := with_n (config_values [0; 2; 4; 6; 7; 8; 9; 10; 12; 14]%Z (n st)) st in
      if (get_value (n st) =? 1)%Z
      then with_n (set_value 0%Z (n st)) st
      else st
    else
      let st := with_m_w (grid (m_w st)) st in
      let st := with_v_w (grid (v_w st)) st in
      let st := with_model (config_button "lk" "disabled" (model st)) st in
      let st := with_model (config_button "tw" "disabled" (model st)) st in
      let st := with_model (config_button "wl" "disabled" (model st)) st in
      let st := with_n (config_values [0; 1; 2; 7]%Z (n st)) st in
      if negb (py_in (get_value (n st)) [0; 1; 2; 7]%Z)
      then with_n (set_value 0%Z (n st)) st
      else st in
  if update then update_output st else st.

Definition model_change (update : bool) (st : State) : State :=
  let st :=
    if negb (String.eqb (selected (model st)) "lk") then
      let st := with_t_lk (grid_remove (t_lk st)) st in
      let st := with_gamma_0 (grid_remove (gamma_0 st)) st in
      with_eps (grid_remove (eps st)) st
    else
      let st := with_t_lk (validate_t_lk (t_lk st)) st in
      let st := with_t_lk (grid (t_lk st)) st in
      let st := with_gamma_0 (grid (gamma_0 st)) st in
      with_eps (grid (eps st)) st in
  let st :=
    if String.eqb (selected (model st)) "cf"
    then with_s (config_state "readonly" (s st)) st
    else with_s (config_state "disabled" (s st)) st in
  let st :=
    if String.eqb (selected (model st)) "tw" then
      let st := with_t_tw (config_state "normal" (t_tw st)) st in
      let st := with_t_tw (revert_value (t_tw st)) st in
      with_t_tw (grid (t_tw st)) st
    else
      let st := with_t_tw (config_state "disabled" (t_tw st)) st in
      let st := with_t_tw (set_value "N/A" (t_tw st)) st in
      with_t_tw (grid_remove (t_tw st)) st in
  let st :=
    if String.eqb (selected (model st)) "wl"
    then with_c_tau (grid (c_tau st)) st
    else with_c_tau (grid_remove (c_tau st)) st in
  if update then update_output st else st.

(** The user picks a model variant: Tk stores the key in the radio
    variable and runs the command of line 504, [model_change()]. *)
Definition select_model (key : string) (st : State) : State :=
  model_change true
    (with_model {| selected := key; buttons := buttons (model st) |} st).

(** Several selections in a row. *)
Definition select_models (keys : list string) (st : State) : State :=
  fold_left (fun st key => select_model key st) keys st.
(** The user picks a value of the ambient-index dropdown: Tk stores the
    text in the variable and runs the callback of line 486, [s_change()]. *)
Definition select_s (text : string) (st : State) : State :=
  s_change true (with_s (set_value text (s st)) st).
End Controller.

End Rules.

(** ** The abundance editors: [abundance_window], [reset_ab],
       [ab_window_close] *)

Module Abundance.

(** The values a controller dictionary holds: numbers and strings. *)
Inductive PyVal : Type :=
  | Num (q : Q)
  | Str (s : string).

Definition ELEMENT_ORDER : list string :=
  ["He"; "C"; "N"; "O"; "Ne"; "Mg"; "Si"; "S"; "Fe"]%string.

Definition Solar : gmap string Q :=
  list_to_map [("H", 12); ("He", 10.93); ("C", 8.52); ("O", 8.83); ("Ne", 8.08);
               ("N", 7.92); ("Mg", 7.58); ("Si", 7.55); ("Fe", 7.50);
               ("S", 7.33)]%string.

Definition LMC : gmap string Q :=
  list_to_map [("H", 12); ("He", 10.94); ("C", 8.04); ("N", 7.14); ("O", 8.35);
               ("Ne", 7.61); ("Na", 7.15); ("Mg", 7.47); ("Si", 7.81);
               ("S", 6.70); ("Cl", 4.76); ("Ar", 6.29); ("Ca", 5.89);
               ("Sc", 2.64); ("Ti", 4.81); ("V", 4.08); ("Cr", 5.47);
               ("Mn", 5.21); ("Fe", 7.23)]%string.

Definition Ejecta_preset : gmap string Q :=
  list_to_map [("H", 12); ("He", 14); ("C", 16); ("O", 18); ("Ne", 16);
               ("N", 16); ("Mg", 16); ("Si", 16); ("Fe", 16); ("S", 16)]%string.

Definition CC : gmap string Q :=
  list_to_map [("H", 12); ("He", 11.22); ("C", 9.25); ("N", 8.62); ("O", 9.69);
               ("Ne", 8.92); ("Mg", 8.30); ("Si", 8.79); ("S", 8.54);
               ("Fe", 8.55)]%string.

Definition Type_Ia : gmap string Q :=
  list_to_map [("H", 12); ("He", 11.40); ("C", 12.60); ("N", 7.50);
               ("O", 12.91); ("Ne", 11.04); ("Mg", 11.55); ("Si", 12.75);
               ("S", 12.43); ("Fe", 13.12)]%string.

Definition ABUNDANCE : gmap string (gmap string Q) :=
  list_to_map [("Solar", Solar); ("LMC", LMC); ("Ejecta", Ejecta_preset);
               ("CC", CC); ("Type Ia", Type_Ia)]%string.

(** The number an entry shows after ["{0:.2f}".format(x)]: [x] rounded to
    two decimals. *)
Definition fmt2 (x : Q) : Q := inject_Z (Py.round (x * 100)) / 100.

(** [ab_type]: the two keys of [ab_window_open]. *)
Inductive Kind : Type := ISM | Ejecta.

(** The two dictionary objects the editors are opened on (lines 497 and
    500): [SNR.data["abundance"]] and [SNR.data["ej_abundance"]]. *)
Inductive DictRef : Type := abundance_ref | ej_abundance_ref.

(** Modelled from the spec: the [InputEntry] and [InputDropdown] classes of
    [snr_gui] are not among the sources.  An input of an editor holds its
    displayed value and the last value that passed validation. *)
Record Entry : Type := {
  value_var : PyVal;
  previous : PyVal
}.

Definition get_value (e : Entry) : PyVal := value_var e.

Definition set_value (v : PyVal) (e : Entry) : Entry :=
  {| value_var := v; previous := previous e |}.

(** A live editor window: its inputs by identifier
    ([gui.InputParam.instances[str(window.root)]], the working copy) and
    the arguments its three close bindings were created with (lines
    312-316). *)
Record Window : Type := {
  entries : gmap string Entry;
  ab_dict : DictRef;
  ab_type : Kind
}.

(** What [SNR.update_output()] reads of the tables. *)
Record Tables : Type := {
  seen_abundance : gmap string PyVal;
  seen_ej_abundance : gmap string PyVal
}.

Record State : Type := {
  open_ISM : option nat;               (* ab_window_open["ISM"] *)
  open_Ejecta : option nat;            (* ab_window_open["Ejecta"] *)
  ism_ab_type : PyVal;
  ej_ab_type : PyVal;
  abundance : gmap string PyVal;       (* SNR.data["abundance"] *)
  ej_abundance : gmap string PyVal;    (* SNR.data["ej_abundance"] *)
  windows : gmap nat Window;           (* live editor windows by root *)
  next_root : nat;                     (* name of the next toplevel *)
  focus : option nat;                  (* editor window holding the focus *)
  log : list (Event Tables)
}.

(** [ab_window_open[ab_type]]; [None] is the source's [False]. *)
Definition slot (st : State) (k : Kind) : option nat :=
  match k with ISM => open_ISM st | Ejecta => open_Ejecta st end.

Definition dict (st : State) (d : DictRef) : gmap string PyVal :=
  match d with abundance_ref => abundance st | ej_abundance_ref => ej_abundance st end.

(** The global holding the default preset of a kind. *)
Definition default_type (st : State) (k : Kind) : PyVal :=
  match k with ISM => ism_ab_type st | Ejecta => ej_ab_type st end.

Definition set_slot (k : Kind) (v : option nat) (st : State) : State :=
  {| open_ISM := match k with ISM => v | Ejecta => open_ISM st end;
     open_Ejecta := match k with ISM => open_Ejecta st | Ejecta => v end;
     ism_ab_type := ism_ab_type st; ej_ab_type := ej_ab_type st;
     abundance := abundance st; ej_abundance := ej_abundance st;
     windows := windows st; next_root := next_root st; focus := focus st;
     log := log st |}.

Definition set_default_type (k : Kind) (v : PyVal) (st : State) : State :=
  {| open_ISM := open_ISM st; open_Ejecta := open_Ejecta st;
     ism_ab_type := match k with ISM => v | Ejecta => ism_ab_type st end;
     ej_ab_type := match k with ISM => ej_ab_type st | Ejecta => v end;
     abundance := abundance st; ej_abundance := ej_abundance st;
     windows := windows st; next_root := next_root st; focus := focus st;
     log := log st |}.

Definition set_dict (d : DictRef) (m : gmap string PyVal) (st : State) : State :=
  {| open_ISM := open_ISM st; open_Ejecta := open_Ejecta st;
     ism_ab_type := ism_ab_type st; ej_ab_type := ej_ab_type st;
     abundance := match d with abundance_ref => m | ej_abundance_ref => abundance st end;
     ej_abundance := match d with abundance_ref => ej_abundance st | ej_abundance_ref => m end;
     windows := windows st; next_root := next_root st; focus := focus st;
     log := log st |}.

Definition set_windows (ws : gmap nat Window) (st : State) : State :=
  {| open_ISM := open_ISM st; open_Ejecta := open_Ejecta st;
     ism_ab_type := ism_ab_type st; ej_ab_type := ej_ab_type st;
     abundance := abundance st; ej_abundance := ej_abundance st;
     windows := ws; next_root := next_root st; focus := focus st;
     log := log st |}.

(** [w.root.focus()] *)
Definition set_focus (root : nat) (st : State) : State :=
  {| open_ISM := open_ISM st; open_Ejecta := open_Ejecta st;
     ism_ab_type := ism_ab_type st; ej_ab_type := ej_ab_type st;
     abundance := abundance st; ej_abundance := ej_abundance st;
     windows := windows st; next_root := next_root st; focus := Some root;
     log := log st |}.

(** Modelled from the spec: [gui.ScrollWindow()] of [snr_gui] is not among
    the sources; it creates a toplevel, here under the next free name. *)
Definition ScrollWindow (st : State) : nat * State :=
  (next_root st,
   {| open_ISM := open_ISM st; open_Ejecta := open_Ejecta st;
      ism_ab_type := ism_ab_type st; ej_ab_type := ej_ab_type st;
      abundance := abundance st; ej_abundance := ej_abundance st;
      windows := windows st; next_root := S (next_root st); focus := focus st;
      log := log st |}).

(** [SNR.update_output()] *)
Definition update_output (st : State) : State :=
  {| open_ISM := open_ISM st; open_Ejecta := open_Ejecta st;
     ism_ab_type := ism_ab_type st; ej_ab_type := ej_ab_type st;
     abundance := abundance st; ej_abundance := ej_abundance st;
     windows := windows st; next_root := next_root st; focus := focus st;
     log := log st ++ [UpdateOutput {| seen_abundance := abundance st;
                                       seen_ej_abundance := ej_abundance st |}] |}.

(** Lines 294-296: one entry per element of [ELEMENT_ORDER], showing the
    table's value with two decimals.  [None] stands for the exception a
    missing or non-numeric table value raises. *)
Fixpoint element_entries (elements : list string) (abundance_dict : gmap string PyVal)
    : option (gmap string Entry) :=
  match elements with
  | [] => Some ∅
  | element :: rest =>
      match abundance_dict !! element with
      | Some (Num x) =>
          match element_entries rest abundance_dict with
          | Some es =>
              Some (<[element := {| value_var := Num (fmt2 x);
                                    previous := Num (fmt2 x) |}]> es)
          | None => None
          end
      | _ => None
      end
  end.

(** [abundance_window(abundance_dict, ab_type)], with the dictionary given
    by reference.  [None] stands for an exception. *)
Definition abundance_window (abundance_dict : DictRef) (ab_type : Kind)
    (st : State) : option State :=
  match slot st ab_type with
  | Some window => Some (set_focus window st)
  | None =>
      let '(window, st) := ScrollWindow st in
      let st := set_slot ab_type (Some window) st in
      let st := set_focus window st in
      match element_entries ELEMENT_ORDER (dict st abundance_dict) with
      | Some es =>
          let default := default_type st ab_type in
          let es := <["ab_type"%string := {| value_var := default; previous := default |}]> es in
          Some (set_windows
                  (<[window := {| entries := es; ab_dict := abundance_dict;
                                  ab_type := ab_type |}]> (windows st)) st)
      | None => None
      end
  end.

(** [reset_ab(root_id)]: every element entry is set to the value of the
    preset the dropdown shows.  [None] stands for a [KeyError]. *)
Definition reset_ab (root_id : nat) (st : State) : option State :=
  match windows st !! root_id with
  | Some w =>
      match entries w !! "ab_type"%string with
      | Some selector =>
          match get_value selector with
          | Str ab_default =>
              match ABUNDANCE !! ab_default with
              | Some preset =>
                  let elements := delete "ab_type"%string (entries w) in
                  if decide (map_Forall (fun element _ => is_Some (preset !! element)) elements)
                  then
                    let es :=
                      map_imap (fun element e =>
                        (fun x => set_value (Num (fmt2 x)) e) <$> preset !! element)
                        elements
                      ∪ entries w in
                    Some (set_windows
                            (<[root_id := {| entries := es; ab_dict := ab_dict w;
                                             ab_type := ab_type w |}]> (windows st)) st)
                  else None
              | None => None
              end
          | Num _ => None
          end
      | None => None
      end
  | None => None
  end.

(** The ways an editor window is closed (lines 312-316): the Submit
    button, the Return key (with the identifier of the focused input when
    the focused widget has a [validate] method) and the window manager's
    delete request. *)
Inductive ClosePath : Type :=
  | Submit
  | Return (focused : option string)
  | WmDelete.

(** The [event] argument each binding passes on. *)
Definition event_of (p : ClosePath) : option (option string) :=
  match p with
  | Return focused => Some focused
  | Submit | WmDelete => None
  end.

Section Close.
(** [event.widget.validate()]: Tk runs the validation of the focused
    input, which lives in [snr_gui]; it is a parameter acting on that
    input. *)
Variable validate : string -> Entry -> Entry.

(** Modelled from the spec: [gui.InputParam.get_values] of [snr_gui] is
    not among the sources; it returns the value of every input of the
    window by identifier. *)
Definition get_values (w : Window) : gmap string PyVal :=
  get_value <$> entries w.

(** [ab_window_close(root, ab_dict, ab_type, event)].  [None] stands for
    an exception. *)
Definition ab_window_close (root : nat) (ab_dict : DictRef) (ab_type : Kind)
    (event : option (option string)) (st : State) : option State :=
  let st :=
    match event with
    | Some (Some focused) =>
        set_windows
          (alter (fun w => {| entries := alter (validate focused) focused (entries w);
                              Abundance.ab_dict := Abundance.ab_dict w;
                              Abundance.ab_type := Abundance.ab_type w |})
                 root (windows st)) st
    | _ => st
    end in
  let st := set_slot ab_type None st in
  match windows st !! root with
  | Some w =>
      (* ab_dict.update(...) *)
      let st := set_dict ab_dict (get_values w ∪ dict st ab_dict) st in
      (* ab_dict.pop("ab_type") *)
      match dict st ab_dict !! "ab_type"%string with
      | Some selected =>
          let st := set_dict ab_dict (delete "ab_type"%string (dict st ab_dict)) st in
          let st := set_default_type ab_type selected st in
          (* root.destroy() *)
          let st := set_windows (delete root (windows st)) st in
          Some (update_output st)
      | None => None
      end
  | None => None
  end.

(** The things that happen to the editors: the two buttons of the main
    window (lines 497-501), typing a number into an element entry (the
    key binding of lines 297-298 then marks the dropdown "Custom"),
    picking a preset in the dropdown (its callback is [reset_ab], line
    311) and the three close bindings. *)
Inductive Action : Type :=
  | Open (k : Kind)
  | Type_ (root : nat) (element : string) (x : Q)
  | Pick (root : nat) (preset : string)
  | Close (root : nat) (p : ClosePath).

Definition table_of (k : Kind) : DictRef :=
  match k with ISM => abundance_ref | Ejecta => ej_abundance_ref end.

Definition set_entry (root : nat) (id : string) (v : PyVal) (st : State) : State :=
  set_windows
    (alter (fun w => {| entries := alter (set_value v) id (entries w);
                        Abundance.ab_dict := Abundance.ab_dict w;
                        Abundance.ab_type := Abundance.ab_type w |})
           root (windows st)) st.

Definition step (a : Action) (st : State) : option State :=
  match a with
  | Open k => abundance_window (table_of k) k st
  | Type_ root element x =>
      match windows st !! root with
      | Some w =>
          if decide (element ∈ ELEMENT_ORDER)
          then Some (set_entry root "ab_type" (Str "Custom")
                       (set_entry root element (Num x) st))
          else None
      | None => None
      end
  | Pick root preset =>
      match windows st !! root with
      | Some w => reset_ab root (set_entry root "ab_type" (Str preset) st)
      | None => None
      end
  | Close root p =>
      match windows st !! root with
      | Some w => ab_window_close root (ab_dict w) (ab_type w) (event_of p) st
      | None => None
      end
  end.

(** Lines 451-461. *)
Definition initial : State :=
  {| open_ISM := None; open_Ejecta := None;
     ism_ab_type := Str "LMC"; ej_ab_type := Str "Type Ia";
     abundance := Num <$> LMC; ej_abundance := Num <$> Type_Ia;
     windows := ∅; next_root := 0; focus := None; log := [] |}.

Inductive reachable : State -> Prop :=
  | reachable_initial : reachable initial
  | reachable_step st a st' :
      reachable st -> step a st = Some st' -> reachable st'.

(** Running a list of actions from a state. *)
Fixpoint run (actions : list Action) (st : State) : option State :=
  match actions with
  | [] => Some st
  | a :: rest =>
      match step a st with
      | Some st' => run rest st'
      | None => None
      end
  end.
End Close.

(** Modelled from the spec: validation in [snr_gui] is not among the
    sources; "a proposed value fails its predicate; the edit is discarded,
    prior value retained".  The predicate of an element entry is that of
    line 296, [0 < value < 100]. *)
Definition validate_entry (id : string) (e : Entry) : Entry :=
  if decide (id ∈ ELEMENT_ORDER) then
    match value_var e with
    | Num x =>
        if Qlt_le_dec 0 x
        then if Qlt_le_dec x 100
             then {| value_var := Num x; previous := Num x |}
             else set_value (previous e) e
        else set_value (previous e) e
    | Str _ => set_value (previous e) e
    end
  else e.

End Abundance.

(** ** The specification's wording of the increment controller *)

Module AxisSpec.
Import Axis.

(** [k] is the floor of the base-ten logarithm of [v]. *)
Definition floor_log10_is (v : Q) (k : Z) : Prop :=
  10 ^ k <= v /\ v < 10 ^ (k + 1).

(** "If the current value exactly equals its step size (and the step size
    is above the floor) and the action is a decrement, divide the step
    size by ten." *)
Definition spec_step (base v : Q) (direction : Z) : Q :=
  if (direction =? -1)%Z && Qeq_bool v base && negb (Qle_bool base 10)
  then base / 10
  else base.

Definition is_integer (x : Q) : Prop := exists z : Z, x == inject_Z z.

(** The numbers on which the double arithmetic of the source and the
    exact arithmetic of [Axis] agree: the integers of the editors' range,
    from 0 to 100000000 (lines 532-535). *)
Definition exact_input (v : Q) : Prop :=
  is_integer v /\ 0 <= v /\ v <= 100000000.

Definition is_multiple (x step : Q) : Prop :=
  exists m : Z, x == inject_Z m * step.

(** [r] is the nearest multiple of [step] below (resp. above) [raw]. *)
Definition snapped_down (raw step r : Q) : Prop :=
  is_multiple r step /\ r <= raw /\ raw < r + step.

Definition snapped_up (raw step r : Q) : Prop :=
  is_multiple r step /\ raw <= r /\ r - step < raw.

(** The new value of an arrow action as the specification words it: raw
    value [old ± step], snapped when it is not a multiple of the step
    unless the old value is at the upper bound and the action is an
    increment, then clamped to the upper bound. *)
Definition spec_new_value (old maximum : Q) (direction : Z) (r : Q) : Prop :=
  let step := compute_increment old direction in
  let raw := old + inject_Z direction * step in
  exists unclamped : Q,
    ((is_multiple raw step \/ (old == maximum /\ direction = 1%Z)) /\ unclamped == raw
     \/
     (~ is_multiple raw step /\ ~ (old == maximum /\ direction = 1%Z) /\
      (direction = 1%Z -> snapped_down raw step unclamped) /\
      (direction = (-1)%Z -> snapped_up raw step unclamped)))
    /\ r == Qmin unclamped maximum.

(** The value an edit would give the bound: the typed value, or the new
    value of the arrow action. *)
Definition edit_result (st : State) (w : Ident) (direction : Z) : Q :=
  if (direction =? 0)%Z
  then get_value (widget st w)
  else arrow_value (get_value (widget st w)) (to (widget st w)) direction.

(** "An axis-range edit would make min >= max". *)
Definition would_collide (st : State) (w : Ident) (direction : Z) : Prop :=
  match w with
  | xmin => get_value (w_xmax st) <= edit_result st w direction
  | xmax => edit_result st w direction <= get_value (w_xmin st)
  end.

(** "Rejected: state (value, mode, step) unchanged, no recompute". *)
Definition rejected_unchanged (st : State) (w : Ident) (direction : Z) : Prop :=
  let st' := increment_xlimits w direction st in
  data st' xmin == data st xmin /\
  data st' xmax == data st xmax /\
  data_range st' = data_range st /\
  increment (widget st' w) == increment (widget st w) /\
  existsb is_update_output (log st') = existsb is_update_output (log st).

(** "A resulting value that would fall below zero, or that would equal or
    cross the paired bound's current value, is never committed": after the
    edit the stored bound is the old one, or it is non-negative and
    strictly on its side of the paired editor's value. *)
Definition commit_respects_bounds (st : State) (w : Ident) (direction : Z) : Prop :=
  let st' := increment_xlimits w direction st in
  data st' w == data st w \/
  (0 <= data st' w /\
   match w with
   | xmin => data st' xmin < get_value (w_xmax st)
   | xmax => get_value (w_xmin st) < data st' xmax
   end).

(** A value lies strictly beyond the number the paired editor shows:
    above the maximum for the minimum editor, below the minimum for the
    maximum editor. *)
Definition beyond_paired (st : State) (w : Ident) (v : Q) : Prop :=
  match w with
  | xmin => get_value (w_xmax st) < v
  | xmax => v < get_value (w_xmin st)
  end.

(** An arrow edit is refused by lines 174-175. *)
Definition refused (st : State) (w : Ident) (direction : Z) : Prop :=
  let old_val := get_value (widget st w) in
  let new_val := arrow_value old_val (to (widget st w)) direction in
  (old_val == 0 /\ direction = (-1)%Z) \/
  new_val == get_value (widget st (paired w)) \/
  new_val == get_value (widget (increment_xlimits w direction st) w).

End AxisSpec.

(** ** The specification's wording of the discriminant rules *)

Module RulesSpec.
Import Rules.

(** The ejecta-index domains of the two ambient-index rules. *)
Definition wide_domain : list Z := [0; 2; 4; 6; 7; 8; 9; 10; 12; 14]%Z.
Definition narrow_domain : list Z := [0; 1; 2; 7]%Z.

(** The rule of the "zero" ambient index is in force for the wind
    parameters and the ejecta index: the discriminant reads "0", the wind
    parameters are off the grid, and the ejecta index has the wide domain
    and is not 1 (this is what [s_change] establishes, see
    [zero_rule_established]). *)
Definition zero_rule_active (st : State) : Prop :=
  value_var (s st) = "0"%string /\
  visible (m_w st) = (false, false) /\
  visible (v_w st) = (false, false) /\
  values (n st) = wide_domain /\
  get_value (n st) <> 1%Z.

(** The widgets as [__main__] creates them (lines 480-516), for given
    transition times of the model. *)
Definition entry {V : Type} (default : V) : Widget V :=
  {| value_var := default; previous := default; values := [];
     input_state := "normal"; input_shown := true; label_shown := true |}.

Definition dropdown {V : Type} (default : V) (vs : list V) (state : string) : Widget V :=
  {| value_var := default; previous := default; values := vs;
     input_state := state; input_shown := true; label_shown := true |}.

Definition created (t_c t_pds : Q) : State :=
  {| s := dropdown "0"%string ["0"; "2"]%string "disabled";
     n := dropdown 0%Z wide_domain "readonly";
     m_w := entry (1 # 10000000);
     v_w := entry 30;
     model := {| selected := "cf";
                 buttons := list_to_map [("cf", "normal"); ("lk", "normal");
                                         ("tw", "normal"); ("wl", "normal")]%string |};
     t_lk := entry 5000;
     gamma_0 := entry 1.667;
     eps := entry 0.7;
     t_tw := entry "4e5"%string;
     c_tau := dropdown 2 [1; 2; 4] "readonly";
     t_c := t_c; t_pds := t_pds; log := [] |}.

(** Lines 558-559: the two rules are applied once, without recompute. *)
Definition started (recompute : State -> Q * Q) (validate_t_lk : Widget Q -> Widget Q)
    (t_c t_pds : Q) : State :=
  s_change recompute false
    (model_change recompute validate_t_lk false (created t_c t_pds)).

(** A model whose transition times stay where they are, for the examples. *)
Definition example_recompute (st : State) : Q * Q := (t_c st, t_pds st).

End RulesSpec.

(** ** The specification's wording of the abundance editors *)

Module AbundanceSpec.
Import Abundance.

#[global] Instance Kind_eq_dec : EqDecision Kind.
Proof. intros [] []; (left; reflexivity) || (right; discriminate). Defined.

(** The single-instance slot and the live windows agree: every live
    editor window is the one its kind's slot names, it was opened on the
    table of its kind, it has its preset dropdown, and every occupied slot
    names a live window of that kind. *)
Definition well_formed (st : State) : Prop :=
  (forall root w, windows st !! root = Some w ->
     slot st (ab_type w) = Some root /\
     ab_dict w = table_of (ab_type w) /\
     is_Some (entries w !! "ab_type"%string) /\
     (root < next_root st)%nat) /\
  (forall k root, slot st k = Some root ->
     exists w, windows st !! root = Some w /\ ab_type w = k).

(** The working copy a close path commits: the inputs of the window,
    after the validation of the focused input on the Return path. *)
Definition working_copy (validate : string -> Entry -> Entry) (p : ClosePath)
    (w : Window) : gmap string Entry :=
  match event_of p with
  | Some (Some focused) => alter (validate focused) focused (entries w)
  | _ => entries w
  end.

(** The state reached from [initial] by a list of actions ([initial]
    itself when one of them raises), and the live window of a given root
    in a state. *)
Definition after (validate : string -> Entry -> Entry) (actions : list Action) : State :=
  default initial (run validate actions initial).

Definition window_at (st : State) (root : nat) : Window :=
  default {| entries := ∅; ab_dict := abundance_ref; ab_type := ISM |}
          (windows st !! root).

Definition is_live (st : State) (root : nat) : bool :=
  match windows st !! root with Some _ => true | None => false end.

End AbundanceSpec.

(** ** The preset range dropdown: [limit_change] *)

Module AxisExtra.
Import Axis AxisSpec.

(** [limit_change()] (lines 128-133): the stored mode takes the text the
    dropdown shows, and the plot is redrawn. *)
Definition limit_change (st : State) : State :=
  display_plot
    {| data_range := range_var st; range_var := range_var st;
       data_xmin := data_xmin st; data_xmax := data_xmax st;
       w_xmin := w_xmin st; w_xmax := w_xmax st; log := log st |}.

(** What happens to the axis controls: the user picks a text in the
    "Plotted Time" dropdown (Tk stores it and runs the callback of line
    530, [limit_change]); an arrow or the Return key on a limit spinbox
    runs [increment_xlimits]; the number a spinbox shows changes (typing,
    or Tk applying the arrow after the callback). *)
Inductive Action : Type :=
  | PickRange (text : string)
  | Edit (w : Ident) (direction : Z)
  | Display (w : Ident) (v : Q).

Definition act (st : State) (a : Action) : State :=
  match a with
  | PickRange text =>
      limit_change
        {| data_range := data_range st; range_var := text;
           data_xmin := data_xmin st; data_xmax := data_xmax st;
           w_xmin := w_xmin st; w_xmax := w_xmax st; log := log st |}
  | Edit w direction => increment_xlimits w direction st
  | Display w v => set_value w v st
  end.

Definition run (actions : list Action) (st : State) : State :=
  fold_left act actions st.

(** The redraws and recomputes an action list asks for. *)
Definition redraws (actions : list Action) : nat :=
  length (List.filter (fun a => match a with Display _ _ => false | _ => true end) actions).

Definition is_display_plot {S : Type} (e : Event S) : bool :=
  match e with DisplayPlot _ => true | UpdateOutput _ => false end.

(** All the numbers of the axis controls are at least zero: the stored
    limits, the numbers the spinboxes show and their upper bounds. *)
Definition nonneg (st : State) : Prop :=
  forall w, 0 <= data st w /\ 0 <= get_value (widget st w) /\ 0 <= to (widget st w).

(** Both spinboxes show an integer of the editors' range, resp. an
    integer. *)
Definition exact_shown (st : State) : Prop :=
  forall w, exact_input (get_value (widget st w)).

Definition whole_shown (st : State) : Prop :=
  forall w, is_integer (get_value (widget st w)).

(** The actions considered: an edit comes with direction 0, 1 or -1
    (lines 135-141), and the number a spinbox is made to show is an
    integer of the editors' range (lines 532-535). *)
Definition admissible (a : Action) : Prop :=
  match a with
  | PickRange _ => True
  | Edit _ direction => direction = 0%Z \/ direction = 1%Z \/ direction = (-1)%Z
  | Display _ v => exact_input v
  end.

End AxisExtra.

(** ** The discriminant controls in use *)

Module RulesExtra.
Import Rules RulesSpec.

(** The rows on the grid are those of the current selections: the three
    inputs of the "lk" variant, the end time of "tw" and the ratio of "wl"
    are shown exactly under their variant, the wind parameters exactly
    when the ambient index does not read "0", the ambient index can be
    chosen only under "cf", and a hidden end time reads "N/A" and is
    disabled. *)
Definition rows_match (st : State) : Prop :=
  let shown (b : bool) := (b, b) in
  visible (t_lk st) = shown (String.eqb (selected (model st)) "lk") /\
  visible (gamma_0 st) = shown (String.eqb (selected (model st)) "lk") /\
  visible (eps st) = shown (String.eqb (selected (model st)) "lk") /\
  visible (t_tw st) = shown (String.eqb (selected (model st)) "tw") /\
  visible (c_tau st) = shown (String.eqb (selected (model st)) "wl") /\
  visible (m_w st) = shown (negb (String.eqb (value_var (s st)) "0")) /\
  visible (v_w st) = shown (negb (String.eqb (value_var (s st)) "0")) /\
  input_state (s st) =
    (if String.eqb (selected (model st)) "cf" then "readonly" else "disabled")%string /\
  (String.eqb (selected (model st)) "tw" = false ->
   get_value (t_tw st) = "N/A"%string /\ input_state (t_tw st) = "disabled"%string).

(** The ejecta index is one of the values its dropdown offers, and these
    are the values of the current ambient index. *)
Definition n_offered (values_n : list Z) (value_s : string) (value_n : Z) : Prop :=
  values_n = (if String.eqb value_s "0" then wide_domain else narrow_domain) /\
  py_in value_n values_n = true.

(** What a recompute may rely on in the inputs it reads. *)
Definition sound_inputs (e : Event Inputs) : Prop :=
  match e with
  | UpdateOutput i =>
      n_offered (seen_n_values i) (seen_s i) (seen_n i) /\
      (String.eqb (seen_model i) "tw" = false -> seen_t_tw i = "N/A"%string)
  | DisplayPlot _ => False
  end.

(** What a session keeps true of the controls. *)
Definition holds (st : State) : Prop :=
  rows_match st /\ n_offered (values (n st)) (get_value (s st)) (get_value (n st)).

Section Session.
Variable recompute : State -> Q * Q.
Variable validate_t_lk : Widget Q -> Widget Q.

(** The user picks a value in the ejecta-index dropdown: Tk stores it and
    runs the callback of line 484, [SNR.update_output]. *)
Definition select_n (v : Z) (st : State) : State :=
  update_output recompute (with_n (set_value v (n st)) st).

(** What the user does with the three controls.  The ejecta-index
    dropdown only lets a value it offers be picked. *)
Inductive Action : Type :=
  | SelectS (text : string)
  | SelectModel (key : string)
  | SelectN (v : Z).

Definition act (st : State) (a : Action) : State :=
  match a with
  | SelectS text => select_s recompute text st
  | SelectModel key => select_model recompute validate_t_lk key st
  | SelectN v => if py_in v (values (n st)) then select_n v st else st
  end.

Definition run (actions : list Action) (st : State) : State :=
  fold_left act actions st.
End Session.

End RulesExtra.

(** ** The abundance editors in use *)

Module AbundanceExtra.
Import Abundance.

Definition is_num (v : PyVal) : bool :=
  match v with Num _ => true | Str _ => false end.

(** An input holds numbers, as shown and as last validated. *)
Definition numeric (e : Entry) : Prop :=
  is_num (value_var e) = true /\ is_num (previous e) = true.

(** The inputs of every live editor are the listed elements and the
    preset dropdown, no more and no less. *)
Definition keys_ok (st : State) : Prop :=
  forall root w, windows st !! root = Some w ->
  forall id, is_Some (entries w !! id) <-> id ∈ ELEMENT_ORDER \/ id = "ab_type"%string.

(** A table holds a number for every listed element. *)
Definition table_numeric (m : gmap string PyVal) : Prop :=
  forall element, element ∈ ELEMENT_ORDER -> exists x, m !! element = Some (Num x).

Definition numbers_ok (st : State) : Prop :=
  table_numeric (abundance st) /\ table_numeric (ej_abundance st) /\
  forall root w element e,
    windows st !! root = Some w -> element ∈ ELEMENT_ORDER ->
    entries w !! element = Some e -> numeric e.

(** Validation of an element input leaves numbers in it. *)
Definition keeps_numbers (validate : string -> Entry -> Entry) : Prop :=
  forall id e, id ∈ ELEMENT_ORDER -> numeric e -> numeric (validate id e).

Definition is_close (a : Action) : bool :=
  match a with Close _ _ => true | _ => false end.

(** The actions the windows offer in a state: the two buttons of the main
    window always; typing into an input of a listed element, picking a
    preset of [ABUNDANCE] and closing, on a live editor. *)
Definition offered (st : State) (a : Action) : Prop :=
  match a with
  | Open _ => True
  | Type_ root element _ => is_Some (windows st !! root) /\ element ∈ ELEMENT_ORDER
  | Pick root preset => is_Some (windows st !! root) /\ is_Some (ABUNDANCE !! preset)
  | Close root _ => is_Some (windows st !! root)
  end.

(** Every preset gives each listed element a number with two decimals. *)
Definition preset_complete (preset : gmap string Q) : bool :=
  forallb (fun element =>
             match preset !! element with
             | Some x => Qeq_bool (fmt2 x) x
             | None => false
             end) ELEMENT_ORDER.

End AbundanceExtra.

(** * Properties *)

(** ** Facts on the numeric primitives *)

Section PyFacts.

Lemma Qpow10_succ (k : Z) : 10 ^ (k + 1) == 10 * 10 ^ k.
Proof. rewrite Qpower_plus by (intro H; discriminate H). change (10 ^ 1) with 10. ring. Qed.

Lemma Qpow10_pos (k : Z) : 0 < 10 ^ k.
Proof. apply Qpower_0_lt. reflexivity. Qed.

Lemma Qpow2_succ (f : nat) : 2 ^ Z.of_nat (S f) == 2 * 2 ^ Z.of_nat f.
Proof.
  rewrite Nat2Z.inj_succ, <- Z.add_1_r.
  rewrite Qpower_plus by (intro H; discriminate H). change (2 ^ 1) with 2. ring.
Qed.

Lemma Qpow2_pos (f : nat) : 0 < 2 ^ Z.of_nat f.
Proof. apply Qpower_0_lt. reflexivity. Qed.

Lemma log10_up_spec (f : nat) : forall v : Q,
  1 <= v -> v < 2 ^ Z.of_nat f ->
  (0 <= Py.log10_up f v)%Z /\
  10 ^ Py.log10_up f v <= v /\ v < 10 ^ (Py.log10_up f v + 1).
Proof.
  induction f as [|f IH]; intros v H1 H2.
  - change (2 ^ Z.of_nat 0) with 1 in H2. lra.
  - cbn [Py.log10_up]. destruct (Qle_bool 10 v) eqn:E.
    + apply Qle_bool_iff in E.
      rewrite Qpow2_succ in H2. pose proof (Qpow2_pos f) as Hp.
      destruct (IH (v / 10)) as (Hk & Hlo & Hhi).
      * apply Qle_shift_div_l; lra.
      * apply Qlt_shift_div_r; lra.
      * split; [lia|].
        assert (Hv : v == 10 * (v / 10)) by (field).
        replace (1 + Py.log10_up f (v / 10))%Z with (Py.log10_up f (v / 10) + 1)%Z by lia.
        rewrite !Qpow10_succ in *. lra.
    + assert (Hlt : v < 10).
      { apply Qnot_le_lt. intro Hle. apply Qle_bool_iff in Hle. congruence. }
      change (10 ^ 0) with 1. change (10 ^ (0 + 1)) with 10. split; [lia|lra].
Qed.

Lemma log10_down_spec (f : nat) : forall v : Q,
  0 < v -> v < 10 -> 1 <= v * 2 ^ Z.of_nat f ->
  10 ^ Py.log10_down f v <= v /\ v < 10 ^ (Py.log10_down f v + 1).
Proof.
  induction f as [|f IH]; intros v H0 H10 H2.
  - change (2 ^ Z.of_nat 0) with 1 in H2. cbn [Py.log10_down].
    change (10 ^ 0) with 1. change (10 ^ (0 + 1)) with 10. lra.
  - cbn [Py.log10_down]. destruct (Qle_bool 1 v) eqn:E.
    + apply Qle_bool_iff in E.
      change (10 ^ 0) with 1. change (10 ^ (0 + 1)) with 10. lra.
    + assert (Hlt : v < 1).
      { apply Qnot_le_lt. intro Hle. apply Qle_bool_iff in Hle. congruence. }
      rewrite Qpow2_succ in H2. pose proof (Qpow2_pos f) as Hp.
      destruct (IH (v * 10)) as (Hlo & Hhi); [lra | lra | lra |].
      set (k := Py.log10_down f (v * 10)) in *.
      replace (k - 1 + 1)%Z with k by lia.
      assert (Hk : 10 ^ k == 10 * 10 ^ (k - 1)).
      { rewrite <- Qpow10_succ. replace (k - 1 + 1)%Z with k by lia. reflexivity. }
      rewrite Qpow10_succ in Hhi. lra.
Qed.

Lemma Qpow2_size (p : positive) : inject_Z (Z.pos p) < 2 ^ Z.of_nat (Pos.size_nat p).
Proof.
  change 2 with (inject_Z 2). rewrite <- Zpower_Qpower by lia.
  rewrite <- Zlt_Qlt. apply Zpower2_Psize. lia.
Qed.

Lemma Qmake_le_num (n d : positive) : Z.pos n # d <= inject_Z (Z.pos n).
Proof. unfold Qle. cbn. nia. Qed.

Lemma Qmake_mul_den (n d : positive) : (Z.pos n # d) * inject_Z (Z.pos d) == inject_Z (Z.pos n).
Proof. unfold Qeq. cbn. nia. Qed.

Lemma floor_log10_spec (v : Q) (k : Z) :
  Py.floor_log10 v = Some k -> 10 ^ k <= v /\ v < 10 ^ (k + 1).
Proof.
  unfold Py.floor_log10. destruct v as [n d]. cbn [Qnum Qden].
  destruct n as [|n|n]; try discriminate.
  intros [= <-]. destruct (Qle_bool 1 (Z.pos n # d)) eqn:E.
  - apply Qle_bool_iff in E.
    destruct (log10_up_spec (Pos.size_nat n) (Z.pos n # d)) as (_ & Hlo & Hhi); auto.
    pose proof (Qpow2_size n). pose proof (Qmake_le_num n d). lra.
  - assert (Hlt : Z.pos n # d < 1).
    { apply Qnot_le_lt. intro Hle. apply Qle_bool_iff in Hle. congruence. }
    apply log10_down_spec.
    + reflexivity.
    + lra.
    + pose proof (Qpow2_size d) as Hd. pose proof (Qmake_mul_den n d) as Hm.
      assert (Hn : 1 <= inject_Z (Z.pos n)).
      { change 1 with (inject_Z 1). rewrite <- Zle_Qle. lia. }
      assert (Hv : 0 < Z.pos n # d) by reflexivity.
      set (v := Z.pos n # d) in *. set (p := 2 ^ Z.of_nat (Pos.size_nat d)) in *.
      set (q := inject_Z (Z.pos d)) in *.
      assert (Hvq : v * q < v * p).
      { rewrite (Qmult_comm v q), (Qmult_comm v p).
        apply Qmult_lt_compat_r; assumption. }
      lra.
Qed.

Lemma floor_log10_pos (v : Q) : 0 < v -> exists k, Py.floor_log10 v = Some k.
Proof.
  unfold Py.floor_log10. destruct v as [n d]. cbn [Qnum Qden].
  destruct n as [|n|n]; intros H; try (exfalso; revert H; unfold Qlt; cbn; lia).
  eexists; reflexivity.
Qed.

Lemma floor_log10_nonpos (v : Q) : v <= 0 -> Py.floor_log10 v = None.
Proof.
  unfold Py.floor_log10. destruct v as [n d]. cbn [Qnum Qden].
  destruct n as [|n|n]; intros H; try reflexivity.
  exfalso; revert H; unfold Qle; cbn; lia.
Qed.

Lemma Py_max_Qmax (a b : Q) : Py.max a b == Qmax a b.
Proof.
  unfold Py.max. destruct (Qle_bool b a) eqn:E.
  - apply Qle_bool_iff in E. symmetry. apply Q.max_l. exact E.
  - assert (a < b) by (apply Qnot_le_lt; intro Hle; apply Qle_bool_iff in Hle; congruence).
    symmetry. apply Q.max_r. lra.
Qed.

Lemma Py_max_ge_r (a b : Q) : b <= Py.max a b.
Proof.
  unfold Py.max. destruct (Qle_bool b a) eqn:E.
  - apply Qle_bool_iff in E. exact E.
  - lra.
Qed.

Lemma round_near (q : Q) :
  inject_Z (Py.round q) - (1 # 2) <= q /\ q <= inject_Z (Py.round q) + (1 # 2).
Proof.
  unfold Py.round.
  pose proof (Qfloor_le q) as Hlo. pose proof (Qlt_floor q) as Hhi.
  rewrite inject_Z_plus in Hhi. change (inject_Z 1) with 1 in Hhi.
  destruct (Qcompare (q - inject_Z (Qfloor q)) (1 # 2)) eqn:E.
  - apply Qeq_alt in E. destruct (Z.even (Qfloor q)).
    + lra.
    + rewrite inject_Z_plus. change (inject_Z 1) with 1. lra.
  - apply Qlt_alt in E. lra.
  - apply Qgt_alt in E. rewrite inject_Z_plus. change (inject_Z 1) with 1. lra.
Qed.

Lemma round_inject_Z (z : Z) : Py.round (inject_Z z) = z.
Proof.
  unfold Py.round. rewrite Qfloor_Z.
  assert (E : Qcompare (inject_Z z - inject_Z z) (1 # 2) = Lt).
  { apply (proj1 (Qlt_alt _ _)). lra. }
  rewrite E. reflexivity.
Qed.

#[global] Instance round_Proper : Proper (Qeq ==> eq) Py.round.
Proof.
  intros x y Hxy. unfold Py.round. rewrite (Qfloor_comp _ _ Hxy).
  assert (E : Qcompare (x - inject_Z (Qfloor y)) (1 # 2) = Qcompare (y - inject_Z (Qfloor y)) (1 # 2)).
  { apply Qcompare_comp; [rewrite Hxy; reflexivity | reflexivity]. }
  rewrite E. reflexivity.
Qed.

Lemma round_integer (x : Q) (z : Z) : x == inject_Z z -> Py.round x = z.
Proof. intros ->. apply round_inject_Z. Qed.

End PyFacts.

(** ** Facts on the increment controller *)

Section AxisFacts.
Import Axis AxisSpec.

Lemma Py_max_10_ge (a : Q) : 10 <= Qmax a 10.
Proof. apply Q.le_max_r. Qed.

Lemma compute_increment_pos (v : Q) (direction : Z) (k : Z) :
  Py.floor_log10 v = Some k ->
  compute_increment v direction == spec_step (Qmax (10 ^ k) 10) v direction.
Proof.
  intros Hk. unfold compute_increment, spec_step. rewrite Hk. cbn zeta.
  pose proof (Py_max_Qmax (10 ^ k) 10) as Hm.
  pose proof (Py_max_10_ge (10 ^ k)) as Hge.
  set (base := Qmax (10 ^ k) 10) in *. set (inc := Py.max (10 ^ k) 10) in *.
  assert (E1 : Qeq_bool v inc = Qeq_bool v base) by (rewrite Hm; reflexivity).
  assert (E2 : Qeq_bool inc 10 = Qle_bool base 10).
  { rewrite Hm. destruct (Qle_bool base 10) eqn:E.
    - apply Qle_bool_iff in E. apply Qeq_bool_iff. lra.
    - destruct (Qeq_bool base 10) eqn:E'; [|reflexivity].
      apply Qeq_bool_iff in E'. 
      assert (Qle_bool base 10 = true) by (apply Qle_bool_iff; lra). congruence. }
  rewrite E1, E2.
  destruct (direction =? -1)%Z, (Qeq_bool v base), (Qle_bool base 10); cbn; rewrite ?Hm; reflexivity.
Qed.

Lemma compute_increment_nonpos (v : Q) (direction : Z) :
  v <= 0 -> compute_increment v direction = 10.
Proof. intros H. unfold compute_increment. rewrite (floor_log10_nonpos v H). reflexivity. Qed.

Lemma widget_force_custom (st : State) (w : Ident) :
  widget (force_custom st) w = widget st w.
Proof. unfold force_custom. destruct (negb _), w; reflexivity. Qed.

Lemma increment_xlimits_increment (st : State) (w : Ident) (direction : Z) :
  increment (widget (increment_xlimits w direction st) w)
  = compute_increment (get_value (widget st w)) direction.
Proof.
  unfold increment_xlimits, arrow_step. rewrite widget_force_custom.
  destruct (negb (direction =? 0)%Z).
  - destruct (must_snap _ _ _ _ _); destruct (may_commit _ _ _ _); destruct w; reflexivity.
  - destruct w; reflexivity.
Qed.


(** Facts on multiples, [%] and snapping. *)

Lemma div_mul_cancel (x y : Q) : 0 < y -> x / y * y == x.
Proof. intros Hy. field. lra. Qed.

Lemma mod_zero_multiple (x y : Q) :
  0 < y -> (Py.mod_ x y == 0 <-> is_multiple x y).
Proof.
  intros Hy. unfold Py.mod_, is_multiple. split.
  - intros H. exists (Qfloor (x / y)). lra.
  - intros [m Hm].
    assert (E : x / y == inject_Z m).
    { rewrite Hm. field. lra. }
    rewrite (Qfloor_comp _ _ E), Qfloor_Z. lra.
Qed.

Lemma snap_down (x y : Q) : 0 < y -> snapped_down x y (snap x y 1).
Proof.
  intros Hy. unfold snapped_down, snap, Py.floor. cbn [Z.eqb Pos.eqb].
  pose proof (Qfloor_le (x / y)) as Hlo. pose proof (Qlt_floor (x / y)) as Hhi.
  rewrite inject_Z_plus in Hhi. change (inject_Z 1) with 1 in Hhi.
  pose proof (div_mul_cancel x y Hy) as Hc.
  set (f := inject_Z (Qfloor (x / y))) in *. set (d := x / y) in *.
  split; [exists (Qfloor (x / y)); reflexivity|].
  assert (H1 : f * y <= d * y) by (apply Qmult_le_compat_r; lra).
  assert (H2 : d * y < (f + 1) * y) by (apply Qmult_lt_compat_r; lra).
  split; lra.
Qed.

Lemma snap_up (x y : Q) : 0 < y -> snapped_up x y (snap x y (-1)).
Proof.
  intros Hy. unfold snapped_up, snap, Py.ceil. cbn [Z.eqb].
  pose proof (Qle_ceiling (x / y)) as Hhi. pose proof (Qceiling_lt (x / y)) as Hlo.
  replace (Qceiling (x / y) - 1)%Z with (Qceiling (x / y) + (-1))%Z in Hlo by lia.
  rewrite inject_Z_plus in Hlo. change (inject_Z (-1)) with (-1) in Hlo.
  pose proof (div_mul_cancel x y Hy) as Hc.
  set (c := inject_Z (Qceiling (x / y))) in *. set (d := x / y) in *.
  split; [exists (Qceiling (x / y)); reflexivity|].
  assert (H1 : d * y <= c * y) by (apply Qmult_le_compat_r; lra).
  assert (H2 : (c + -1) * y < d * y) by (apply Qmult_lt_compat_r; lra).
  split; lra.
Qed.

Lemma clamp_Qmin (x m : Q) : clamp x m == Qmin x m.
Proof.
  unfold clamp. destruct (Qle_bool x m) eqn:E; cbn.
  - apply Qle_bool_iff in E. symmetry. apply Q.min_l. exact E.
  - assert (m < x) by (apply Qnot_le_lt; intro Hle; apply Qle_bool_iff in Hle; congruence).
    symmetry. apply Q.min_r. lra.
Qed.

(** Powers of ten. *)
Lemma Qpow10_le_1 (k : Z) : (k <= 0)%Z -> 10 ^ k <= 1.
Proof.
  intros Hk. change 1 with (10 ^ 0). apply Qpower_le_compat_l; [exact Hk | lra].
Qed.

Lemma Qpow10_ge_10 (k : Z) : (1 <= k)%Z -> 10 <= 10 ^ k.
Proof.
  intros Hk. change 10 with (10 ^ 1) at 1. apply Qpower_le_compat_l; [exact Hk | lra].
Qed.

Lemma Qpow10_inject (k : Z) : (0 <= k)%Z -> 10 ^ k == inject_Z (10 ^ k).
Proof. intros Hk. rewrite Zpower_Qpower by exact Hk. reflexivity. Qed.

(** The base step is an integer power of ten, at least ten. *)
Lemma base_step_integer (k : Z) :
  exists z : Z, (10 <= z)%Z /\ Qmax (10 ^ k) 10 == inject_Z z.
Proof.
  destruct (Z_le_gt_dec 1 k) as [Hk|Hk].
  - exists (10 ^ k)%Z. split.
    + change 10%Z with (10 ^ 1)%Z at 1. apply Z.pow_le_mono_r; lia.
    + rewrite Q.max_l by (apply Qpow10_ge_10; exact Hk).
      apply Qpow10_inject. lia.
  - exists 10%Z. split; [lia|].
    rewrite Q.max_r; [reflexivity|].
    pose proof (Qpow10_le_1 k ltac:(lia)). lra.
Qed.

Lemma compute_increment_up_integer (v : Q) :
  exists z : Z, (10 <= z)%Z /\ compute_increment v 1 == inject_Z z.
Proof.
  destruct (Qlt_le_dec 0 v) as [Hv|Hv].
  - destruct (floor_log10_pos v Hv) as [k Hk].
    destruct (base_step_integer k) as (z & Hz & E). exists z. split; [exact Hz|].
    rewrite (compute_increment_pos v 1 k Hk). unfold spec_step. cbn. exact E.
  - exists 10%Z. split; [lia|]. rewrite (compute_increment_nonpos v 1 Hv). reflexivity.
Qed.

Lemma compute_increment_positive (v : Q) (direction : Z) :
  1 <= compute_increment v direction.
Proof.
  destruct (Qlt_le_dec 0 v) as [Hv|Hv].
  - destruct (floor_log10_pos v Hv) as [k Hk].
    rewrite (compute_increment_pos v direction k Hk). unfold spec_step.
    pose proof (Py_max_10_ge (10 ^ k)) as Hge.
    destruct ((direction =? -1)%Z && Qeq_bool v (Qmax (10 ^ k) 10)
              && negb (Qle_bool (Qmax (10 ^ k) 10) 10)).
    + apply Qle_shift_div_l; lra.
    + lra.
  - rewrite (compute_increment_nonpos v direction Hv). lra.
Qed.

Lemma inject_Z_pred (z : Z) : inject_Z (z - 1) == inject_Z z - 1.
Proof.
  replace (z - 1)%Z with (z + (-1))%Z by lia.
  rewrite inject_Z_plus. change (inject_Z (-1)) with (-1). ring.
Qed.

Lemma gap_case (old maximum step raw u : Q) (M z : Z) :
  maximum == inject_Z M -> Py.round old = Py.round maximum ->
  (10 <= z)%Z -> step == inject_Z z ->
  raw == old + step ->
  snapped_down raw step u ->
  Qmin raw maximum == maximum /\ Qmin u maximum == maximum.
Proof.
  intros HM Hr Hz Hs Hraw ([m Hm] & Hle & Hlt).
  rewrite (round_integer maximum M HM) in Hr.
  pose proof (round_near old) as [Hlo _]. rewrite Hr in Hlo.
  assert (Hz' : 10 <= inject_Z z).
  { change 10 with (inject_Z 10). rewrite <- Zle_Qle. exact Hz. }
  assert (Hu : u == inject_Z (m * z)).
  { rewrite Hm, Hs, inject_Z_mult. reflexivity. }
  assert (HuM : inject_Z M <= u).
  { rewrite Hu. rewrite <- Zle_Qle.
    destruct (Z_le_gt_dec M (m * z)) as [Hok|Hbad]; [exact Hok|exfalso].
    assert (Hq : inject_Z (m * z) <= inject_Z (M - 1)) by (rewrite <- Zle_Qle; lia).
    rewrite inject_Z_pred in Hq. lra. }
  split; apply Q.min_r; lra.
Qed.

Lemma arrow_value_spec (old maximum : Q) (direction : Z) :
  direction = 1%Z \/ direction = (-1)%Z ->
  is_integer maximum ->
  spec_new_value old maximum direction (arrow_value old maximum direction).
Proof.
  intros Hdir [M HM]. unfold spec_new_value, arrow_value.
  pose proof (compute_increment_positive old direction) as Hstep.
  set (step := compute_increment old direction) in *.
  set (raw := old + inject_Z direction * step).
  assert (Hpos : 0 < step) by lra.
  unfold must_snap.
  destruct (Qeq_bool (Py.mod_ raw step) 0) eqn:Emod.
  - apply Qeq_bool_iff in Emod. apply mod_zero_multiple in Emod; [|exact Hpos].
    cbn [negb andb]. exists raw. split; [|apply clamp_Qmin].
    left. split; [left; exact Emod | reflexivity].
  - assert (Hnm : ~ is_multiple raw step).
    { intros H. apply mod_zero_multiple in H; [|exact Hpos].
      apply Qeq_bool_iff in H. congruence. }
    cbn [negb andb].
    destruct ((Py.round old =? Py.round maximum)%Z && (direction =? 1)%Z) eqn:Er.
    + cbn [negb]. apply andb_true_iff in Er. destruct Er as [Er Ed].
      apply Z.eqb_eq in Er, Ed.
      destruct (Qeq_dec old maximum) as [He|Hne].
      * exists raw. split; [|apply clamp_Qmin].
        left. split; [right; split; assumption | reflexivity].
      * exists (snap raw step 1). split.
        -- right. split; [exact Hnm|]. split; [intros [He _]; contradiction|].
           split; [intros _; apply snap_down; exact Hpos|].
           intros Hd. rewrite Hd in Ed. discriminate Ed.
        -- rewrite clamp_Qmin.
           destruct (compute_increment_up_integer old) as (z & Hz & Hs).
           assert (Hraw : raw == old + step).
           { unfold raw. rewrite Ed. change (inject_Z 1) with 1. ring. }
           assert (Hs' : step == inject_Z z).
           { unfold step. rewrite Ed. exact Hs. }
           pose proof (snap_down raw step Hpos) as Hsd.
           destruct (gap_case old maximum step raw (snap raw step 1) M z
                       HM Er Hz Hs' Hraw Hsd) as [G1 G2].
           transitivity maximum; [exact G1 | symmetry; exact G2].
    + cbn [negb]. exists (snap raw step direction). split; [|apply clamp_Qmin].
      right. split; [exact Hnm|]. split.
      * intros [He Hd]. rewrite He, Hd, Z.eqb_refl in Er. discriminate Er.
      * split; intros Hd; rewrite Hd; [apply snap_down | apply snap_up]; exact Hpos.
Qed.

(** Structure of the state after [increment_xlimits]. *)

Lemma data_force_custom (st : State) (w : Ident) :
  data (force_custom st) w = data st w.
Proof. unfold force_custom. destruct (negb _), w; reflexivity. Qed.

Lemma log_force_custom (st : State) : log (force_custom st) = log st.
Proof. unfold force_custom. destruct (negb _); reflexivity. Qed.

Lemma data_range_force_custom (st : State) :
  data_range (force_custom st) = "Custom"%string.
Proof.
  unfold force_custom. destruct (String.eqb (data_range st) "Custom") eqn:E; cbn.
  - apply String.eqb_eq in E. exact E.
  - reflexivity.
Qed.

Lemma may_commit_true (old_val new_val : Q) (direction : Z) (st : State) :
  may_commit old_val new_val direction st = true ->
  ~ (old_val == 0 /\ direction = (-1)%Z) /\
  ~ new_val == get_value (w_xmin st) /\ ~ new_val == get_value (w_xmax st).
Proof.
  unfold may_commit. intros H. apply andb_true_iff in H. destruct H as [H1 H2].
  apply negb_true_iff in H1, H2. apply orb_false_iff in H2. destruct H2 as [H2 H3].
  apply Qeq_bool_neq in H2, H3. repeat split; try assumption.
  intros [Ho Hd]. apply Qeq_bool_iff in Ho. rewrite Ho, Hd in H1. discriminate H1.
Qed.

Lemma may_commit_false (old_val new_val : Q) (direction : Z) (st : State) :
  may_commit old_val new_val direction st = false ->
  (old_val == 0 /\ direction = (-1)%Z) \/
  new_val == get_value (w_xmin st) \/ new_val == get_value (w_xmax st).
Proof.
  unfold may_commit. intros H. apply andb_false_iff in H. destruct H as [H|H].
  - apply negb_false_iff, andb_true_iff in H. destruct H as [H1 H2].
    left. split; [apply Qeq_bool_iff; exact H1 | apply Z.eqb_eq; exact H2].
  - apply negb_false_iff, orb_true_iff in H. right.
    destruct H as [H|H]; [left|right]; apply Qeq_bool_iff; exact H.
Qed.

(** An arrow action either stores [arrow_value] or leaves the stored
    bounds alone; it is refused exactly on a decrement from 0 or when the
    new value equals the number either spinbox shows. *)
Lemma increment_xlimits_arrow (st : State) (w : Ident) (direction : Z) :
  direction <> 0%Z ->
  let old_val := get_value (widget st w) in
  let new_val := arrow_value old_val (to (widget st w)) direction in
  let st' := increment_xlimits w direction st in
  widget st' (paired w) = widget st (paired w) /\
  data st' (paired w) = data st (paired w) /\
  ((data st' w = new_val /\ previous (widget st' w) = Py.round new_val /\
    ~ (old_val == 0 /\ direction = (-1)%Z) /\
    ~ new_val == get_value (widget st' (paired w)) /\
    ~ new_val == get_value (widget st' w))
   \/
   (data st' w = data st w /\ previous (widget st' w) = previous (widget st w) /\
    ((old_val == 0 /\ direction = (-1)%Z) \/
     new_val == get_value (widget st' (paired w)) \/
     new_val == get_value (widget st' w)))).
Proof.
  intros Hd. cbn zeta. unfold increment_xlimits, arrow_step, arrow_value.
  apply Z.eqb_neq in Hd. rewrite Hd. cbn [negb].
  rewrite !widget_force_custom.
  set (old_val := get_value (widget st w)).
  set (inc := compute_increment old_val direction).
  assert (Hi : increment (widget (config_increment w inc (force_custom st)) w) = inc)
    by (destruct w; reflexivity).
  assert (Ht : to (widget (config_increment w inc (force_custom st)) w) = to (widget st w))
    by (rewrite <- (widget_force_custom st w); destruct w; reflexivity).
  rewrite Hi, Ht.
  set (raw := old_val + inject_Z direction * inc).
  pose proof (data_force_custom st xmin) as Dmin.
  pose proof (data_force_custom st xmax) as Dmax.
  pose proof (widget_force_custom st xmin) as Wmin.
  pose proof (widget_force_custom st xmax) as Wmax.
  cbn [data widget] in Dmin, Dmax, Wmin, Wmax.
  destruct (must_snap raw inc old_val (to (widget st w)) direction);
    match goal with
    | |- context [may_commit ?o ?n ?d ?s] =>
        destruct (may_commit o n d s) eqn:Ec;
        [apply may_commit_true in Ec | apply may_commit_false in Ec]
    end;
    destruct w; cbn in *; rewrite ?Dmin, ?Dmax, ?Wmin, ?Wmax in *;
    (split; [reflexivity|]); (split; [reflexivity|]); tauto.
Qed.

Lemma multiple_above_neg_step (u step : Q) :
  0 < step -> is_multiple u step -> - step < u -> 0 <= u.
Proof.
  intros Hs [m Hm] Hu.
  destruct (Z_le_gt_dec 0 m) as [Hm0|Hm0].
  - rewrite Hm. apply Qmult_le_0_compat; [|lra].
    change 0 with (inject_Z 0). rewrite <- Zle_Qle. exact Hm0.
  - exfalso.
    assert (Hq : inject_Z m <= -1).
    { change (-1) with (inject_Z (-1)). rewrite <- Zle_Qle. lia. }
    assert (Hp : inject_Z m * step <= -1 * step) by (apply Qmult_le_compat_r; lra).
    lra.
Qed.

Lemma arrow_value_nonneg (old maximum : Q) (direction : Z) :
  direction = 1%Z \/ direction = (-1)%Z ->
  0 <= old -> 0 <= maximum ->
  ~ (old == 0 /\ direction = (-1)%Z) ->
  0 <= arrow_value old maximum direction.
Proof.
  intros Hdir Hold Hmax Hnz. unfold arrow_value.
  pose proof (compute_increment_positive old direction) as Hstep.
  set (step := compute_increment old direction) in *.
  set (raw := old + inject_Z direction * step).
  assert (Hpos : 0 < step) by lra.
  rewrite clamp_Qmin. apply Q.min_glb; [|exact Hmax].
  destruct Hdir as [Hd|Hd].
  - assert (Hraw : raw == old + step).
    { unfold raw. rewrite Hd. change (inject_Z 1) with 1. ring. }
    destruct (must_snap raw step old maximum direction); [|lra].
    rewrite Hd. destruct (snap_down raw step Hpos) as (_ & _ & Hlt). lra.
  - assert (Hraw : raw == old - step).
    { unfold raw. rewrite Hd. change (inject_Z (-1)) with (-1). ring. }
    assert (Hold' : 0 < old).
    { destruct (Qlt_le_dec 0 old) as [H|H]; [exact H|].
      exfalso. apply Hnz. split; [lra | exact Hd]. }
    apply (multiple_above_neg_step _ step Hpos).
    + unfold must_snap. destruct (Qeq_bool (Py.mod_ raw step) 0) eqn:Emod.
      * cbn [negb andb]. apply mod_zero_multiple; [exact Hpos|].
        apply Qeq_bool_iff. exact Emod.
      * rewrite Hd. cbn [negb andb Z.eqb]. rewrite andb_false_r. cbn [negb].
        apply (snap_up raw step Hpos).
    + destruct (must_snap raw step old maximum direction); [|lra].
      rewrite Hd. destruct (snap_up raw step Hpos) as (_ & Hle & _). lra.
Qed.

Lemma increment_xlimits_log (st : State) (w : Ident) (direction : Z) :
  let st' := increment_xlimits w direction st in
  log st' = log st ++ [DisplayPlot {| seen_range := "Custom";
                                       seen_xmin := data_xmin st';
                                       seen_xmax := data_xmax st' |}].
Proof.
  cbn zeta. unfold increment_xlimits, arrow_step.
  pose proof (log_force_custom st) as Hl.
  pose proof (data_range_force_custom st) as Hr.
  destruct (negb (direction =? 0)%Z).
  - destruct (must_snap _ _ _ _ _); destruct (may_commit _ _ _ _);
      destruct w; cbn; rewrite Hl, Hr; reflexivity.
  - destruct w; cbn; rewrite Hl, Hr; reflexivity.
Qed.

Lemma increment_xlimits_range (st : State) (w : Ident) (direction : Z) :
  let st' := increment_xlimits w direction st in
  data_range st' = "Custom"%string /\
  (data_range st <> "Custom"%string -> range_var st' = "Custom"%string).
Proof.
  cbn zeta. unfold increment_xlimits, arrow_step.
  pose proof (data_range_force_custom st) as Hr.
  assert (Hv : data_range st <> "Custom"%string -> range_var (force_custom st) = "Custom"%string).
  { intros Hne. unfold force_custom. apply String.eqb_neq in Hne. rewrite Hne. reflexivity. }
  destruct (negb (direction =? 0)%Z).
  - destruct (must_snap _ _ _ _ _); destruct (may_commit _ _ _ _);
      destruct w; cbn; (split; [exact Hr | exact Hv]).
  - destruct w; cbn; (split; [exact Hr | exact Hv]).
Qed.

Lemma increment_xlimits_typed (st : State) (w : Ident) :
  let st' := increment_xlimits w 0 st in
  data st' w = get_value (widget st w) /\
  data st' (paired w) = data st (paired w) /\
  previous (widget st' w) = Py.round (get_value (widget st w)).
Proof.
  cbn zeta. unfold increment_xlimits. cbn [Z.eqb negb].
  rewrite widget_force_custom.
  pose proof (data_force_custom st xmin) as Dmin.
  pose proof (data_force_custom st xmax) as Dmax.
  cbn [data] in Dmin, Dmax.
  destruct w; cbn; rewrite ?Dmin, ?Dmax; repeat split; reflexivity.
Qed.

Lemma no_update_output_added (st : State) (w : Ident) (direction : Z) :
  existsb is_update_output (log (increment_xlimits w direction st))
  = existsb is_update_output (log st).
Proof.
  rewrite increment_xlimits_log, existsb_app. cbn. rewrite !orb_false_r. reflexivity.
Qed.

End AxisFacts.

(** ** The increment controller against the specification *)

Section AxisClaims.
Import Axis AxisSpec.

(** C3, as the specification words it, fails: an edit that would make
    min >= max changes the mode and the step even when the stored bound
    is kept (decrement of max from 100 onto min = 90), and it is stored
    when the result lies strictly beyond the paired bound (increment of
    min from 150 past max = 180). *)
Lemma bound_collision_not_unchanged :
  (would_collide (showing 90 100) xmax (-1) /\
   ~ rejected_unchanged (showing 90 100) xmax (-1)) /\
  (would_collide (showing 150 180) xmin 1 /\
   ~ rejected_unchanged (showing 150 180) xmin 1).
Proof.
  split; split.
  - vm_compute. discriminate.
  - intros (_ & _ & H & _). vm_compute in H. discriminate H.
  - vm_compute. discriminate.
  - intros (H & _). vm_compute in H. discriminate H.
Qed.

(** C3, amended.  An arrow edit whose result equals the number the paired
    bound editor shows is refused: the stored bounds and the editor's
    remembered value are unchanged and no model recompute is requested.
    The mode is nevertheless "Custom", the step is recomputed and stored,
    and the plot is redrawn.  An arrow edit that is not refused stores its
    result, also when it lies beyond the paired bound. *)
Theorem equal_bound_edit_refused (st : State) (w : Ident) (direction : Z) :
  direction <> 0%Z ->
  let new_val := arrow_value (get_value (widget st w)) (to (widget st w)) direction in
  let st' := increment_xlimits w direction st in
  (new_val == get_value (widget st (paired w)) ->
     data_xmin st' = data_xmin st /\ data_xmax st' = data_xmax st /\
     previous (widget st' w) = previous (widget st w)) /\
  (~ refused st w direction -> data st' w = new_val) /\
  existsb is_update_output (log st') = existsb is_update_output (log st) /\
  data_range st' = "Custom"%string /\
  increment (widget st' w) = compute_increment (get_value (widget st w)) direction /\
  log st' = log st ++ [DisplayPlot {| seen_range := "Custom";
                                       seen_xmin := data_xmin st';
                                       seen_xmax := data_xmax st' |}].
Proof.
  intros Hd. cbn zeta.
  destruct (increment_xlimits_arrow st w direction Hd) as (Hw & Hp & Hc).
  split; [|split; [|split; [|split; [|split]]]].
  - intros Heq. rewrite Hw in Hc. destruct Hc as [(_ & _ & _ & Hne & _) | (Hk & Hprev & _)].
    + contradiction.
    + destruct w; cbn [data paired] in *; repeat split; assumption.
  - intros Hnr. rewrite Hw in Hc. destruct Hc as [(Hk & _) | (_ & _ & Hr)].
    + exact Hk.
    + exfalso. apply Hnr. exact Hr.
  - apply no_update_output_added.
  - apply increment_xlimits_range.
  - apply increment_xlimits_increment.
  - apply increment_xlimits_log.
Qed.

Lemma equal_bound_edit_refused_witness :
  (data_xmax (increment_xlimits xmax (-1) (showing 90 100)) = 100 /\
   data_range (increment_xlimits xmax (-1) (showing 90 100)) = "Custom"%string) /\
  data (increment_xlimits xmin 1 (showing 150 180)) xmin
  = arrow_value 150 100000000 1.
Proof.
  split.
  - pose proof (equal_bound_edit_refused (showing 90 100) xmax (-1) ltac:(discriminate)) as H.
    cbn zeta in H. destruct H as (H1 & _ & _ & H4 & _).
    split; [|exact H4].
    apply H1. vm_compute. reflexivity.
  - pose proof (equal_bound_edit_refused (showing 150 180) xmin 1 ltac:(discriminate)) as H.
    cbn zeta in H. destruct H as (_ & H2 & _).
    apply H2. intros [[_ H] | [H | H]]; vm_compute in H; discriminate H.
Defined.

(** C4, as the specification words it, fails: an increment of min from
    90, with max at 95, stores 100, beyond the paired bound. *)
Lemma crossing_value_committed :
  ~ commit_respects_bounds (showing 90 95) xmin 1.
Proof.
  intros [H | [_ H]]; vm_compute in H; discriminate H.
Qed.

(** C4, amended.  For an arrow edit of an editor showing an integer of
    the editors' range (the upper bound being non-negative), the stored
    bound is either left as it was or set to a value that is not below
    zero and differs from the number either bound editor shows.  Crossing
    is no ground for refusal: a new value strictly beyond the number the
    paired editor shows is stored, unless the edit is a decrement from 0
    or the value is the number the edited editor itself shows.  A typed
    edit stores the number the editor shows as it stands. *)
Theorem commit_nonneg_and_distinct (st : State) (w : Ident) (direction : Z) :
  direction = 1%Z \/ direction = (-1)%Z ->
  exact_input (get_value (widget st w)) ->
  0 <= to (widget st w) ->
  let old_val := get_value (widget st w) in
  let new_val := arrow_value old_val (to (widget st w)) direction in
  let st' := increment_xlimits w direction st in
  (data st' w = data st w \/
   (0 <= data st' w /\
    ~ data st' w == get_value (widget st (paired w)) /\
    ~ data st' w == get_value (widget st' w))) /\
  (beyond_paired st w new_val ->
   ~ (old_val == 0 /\ direction = (-1)%Z) ->
   ~ new_val == get_value (widget st' w) ->
   data st' w = new_val /\ previous (widget st' w) = Py.round new_val) /\
  data (increment_xlimits w 0 st) w = get_value (widget st w).
Proof.
  intros Hdir (_ & Hold & _) Hmax. cbn zeta.
  assert (Hd : direction <> 0%Z) by (destruct Hdir; lia).
  destruct (increment_xlimits_arrow st w direction Hd) as (Hw & _ & Hc).
  rewrite Hw in Hc.
  split; [|split; [|apply increment_xlimits_typed]].
  - destruct Hc as [(Hk & _ & Hnz & Hn1 & Hn2) | (Hk & _)].
    + right. rewrite Hk. split; [|split; assumption].
      apply arrow_value_nonneg; assumption.
    + left. exact Hk.
  - intros Hb Hnz Hown.
    destruct Hc as [(Hk & Hp & _) | (_ & _ & [Hz | [Hpair | Hself]])].
    + split; assumption.
    + contradiction.
    + exfalso. unfold beyond_paired in Hb.
      destruct w; cbn [paired widget] in Hpair; rewrite Hpair in Hb;
        exact (Qlt_irrefl _ Hb).
    + contradiction.
Qed.

Lemma commit_nonneg_and_distinct_witness :
  (data (increment_xlimits xmin 1 (showing 90 95)) xmin = data (showing 90 95) xmin \/
   (0 <= data (increment_xlimits xmin 1 (showing 90 95)) xmin /\
    ~ data (increment_xlimits xmin 1 (showing 90 95)) xmin
      == get_value (widget (showing 90 95) (paired xmin)) /\
    ~ data (increment_xlimits xmin 1 (showing 90 95)) xmin
      == get_value (widget (increment_xlimits xmin 1 (showing 90 95)) xmin))) /\
  data (increment_xlimits xmin 1 (showing 90 95)) xmin = arrow_value 90 100000000 1 /\
  data (increment_xlimits xmin 0 (showing 90 95)) xmin = get_value (widget (showing 90 95) xmin).
Proof.
  pose proof (commit_nonneg_and_distinct (showing 90 95) xmin 1) as H.
  cbn zeta in H. destruct H as (H1 & H2 & H3).
  - left. reflexivity.
  - split; [exists 90%Z; reflexivity|]. split; vm_compute; discriminate.
  - vm_compute. discriminate.
  - split; [exact H1|]. split; [|exact H3].
    apply H2.
    + vm_compute. reflexivity.
    + intros [H _]. vm_compute in H. discriminate H.
    + intros H. vm_compute in H. discriminate H.
Defined.

(** C10.  Every edit action, typed or by arrow, refused or not, leaves the
    mode at "Custom" (and sets the dropdown when it was a preset), stores
    the recomputed step in the editor and redraws the plot once, without
    a model recompute; a refused arrow edit leaves the stored bounds as
    they were, and a typed edit stores the number the editor shows. *)
Theorem edit_always_marks_custom_and_redraws (st : State) (w : Ident) (direction : Z) :
  let st' := increment_xlimits w direction st in
  data_range st' = "Custom"%string /\
  (data_range st <> "Custom"%string -> range_var st' = "Custom"%string) /\
  increment (widget st' w) = compute_increment (get_value (widget st w)) direction /\
  log st' = log st ++ [DisplayPlot {| seen_range := "Custom";
                                       seen_xmin := data_xmin st';
                                       seen_xmax := data_xmax st' |}] /\
  (direction <> 0%Z -> refused st w direction ->
     data_xmin st' = data_xmin st /\ data_xmax st' = data_xmax st) /\
  (direction = 0%Z -> data st' w = get_value (widget st w)).
Proof.
  cbn zeta.
  split; [apply increment_xlimits_range|].
  split; [apply increment_xlimits_range|].
  split; [apply increment_xlimits_increment|].
  split; [apply increment_xlimits_log|].
  split.
  - intros Hd Hr.
    destruct (increment_xlimits_arrow st w direction Hd) as (Hw & Hp & Hc).
    rewrite Hw in Hc. destruct Hc as [(_ & _ & Hnz & Hn1 & Hn2) | (Hk & _)].
    + exfalso. destruct Hr as [Hr | [Hr | Hr]]; contradiction.
    + destruct w; cbn [data paired] in *; split; assumption.
  - intros ->. apply increment_xlimits_typed.
Qed.

Lemma edit_always_marks_custom_and_redraws_witness :
  range_var (increment_xlimits xmin 1 (showing 800 900)) = "Custom"%string /\
  (data_xmin (increment_xlimits xmin 1 (showing 800 900)) = 800 /\
   data_xmax (increment_xlimits xmin 1 (showing 800 900)) = 900) /\
  data (increment_xlimits xmax 0 (showing 800 950)) xmax = 950.
Proof.
  pose proof (edit_always_marks_custom_and_redraws (showing 800 900) xmin 1) as H.
  pose proof (edit_always_marks_custom_and_redraws (showing 800 950) xmax 0) as H0.
  cbn zeta in H, H0.
  destruct H as (_ & Hv & _ & _ & H & _). destruct H0 as (_ & _ & _ & _ & _ & H0).
  split; [apply Hv; discriminate|]. split.
  - apply H.
    + discriminate.
    + right. left. vm_compute. reflexivity.
  - apply H0. reflexivity.
Defined.

End AxisClaims.



(** ** The discriminant rules against the specification *)

Ltac simp_state :=
  cbn [Rules.s Rules.n Rules.m_w Rules.v_w Rules.model Rules.t_lk Rules.gamma_0
       Rules.eps Rules.t_tw Rules.c_tau Rules.t_c Rules.t_pds Rules.log
       Rules.selected Rules.with_s Rules.with_n Rules.with_m_w Rules.with_v_w
       Rules.with_model Rules.with_t_lk Rules.with_gamma_0 Rules.with_eps
       Rules.with_t_tw Rules.with_c_tau Rules.update_output].

Section RulesFacts.
Import Rules RulesSpec.
Variable recompute : State -> Q * Q.
Variable validate_t_lk : Widget Q -> Widget Q.

Lemma s_change_zero (st : State) (update : bool) :
  value_var (s st) = "0"%string ->
  let st' := s_change recompute update st in
  s st' = s st /\
  m_w st' = grid_remove (m_w st) /\
  v_w st' = grid_remove (v_w st) /\
  n st' = (if (get_value (n st) =? 1)%Z
           then set_value 0%Z (config_values wide_domain (n st))
           else config_values wide_domain (n st)) /\
  t_tw st' = t_tw st /\
  log st' = log st ++ (if update then [UpdateOutput (inputs st')] else []).
Proof.
  intros Hs. cbn zeta. unfold s_change, get_value. rewrite Hs.
  cbn [String.eqb Ascii.eqb Bool.eqb].
  destruct (Qle_bool _ _); simp_state; cbn [value_var config_values];
    destruct (value_var (n st) =? 1)%Z; destruct update; cbn;
    rewrite ?app_nil_r; repeat split; reflexivity.
Qed.

Lemma s_change_nonzero (st : State) (update : bool) :
  value_var (s st) <> "0"%string ->
  let st' := s_change recompute update st in
  s st' = s st /\
  m_w st' = grid (m_w st) /\
  v_w st' = grid (v_w st) /\
  n st' = (if py_in (get_value (n st)) narrow_domain
           then config_values narrow_domain (n st)
           else set_value 0%Z (config_values narrow_domain (n st))) /\
  t_tw st' = t_tw st /\
  log st' = log st ++ (if update then [UpdateOutput (inputs st')] else []).
Proof.
  intros Hs. cbn zeta. unfold s_change, get_value. apply String.eqb_neq in Hs. rewrite Hs.
  simp_state. cbn [value_var config_values]. fold narrow_domain.
  destruct (py_in (value_var (n st)) narrow_domain); destruct update; cbn;
    rewrite ?app_nil_r; repeat split; reflexivity.
Qed.

(** The "zero" rule establishes [zero_rule_active]. *)
Lemma zero_rule_established (st : State) (update : bool) :
  value_var (s st) = "0"%string ->
  zero_rule_active (s_change recompute update st).
Proof.
  intros Hs. destruct (s_change_zero st update Hs) as (H1 & H2 & H3 & H4 & _).
  unfold zero_rule_active. rewrite H1, H2, H3, H4. unfold get_value.
  split; [exact Hs|]. split; [reflexivity|]. split; [reflexivity|].
  destruct (value_var (n st) =? 1)%Z eqn:E; cbn.
  - split; [reflexivity | discriminate].
  - split; [reflexivity | apply Z.eqb_neq; exact E].
Qed.

Lemma hidden_widget {V : Type} (w : Widget V) :
  visible w = (false, false) -> grid_remove (grid w) = w.
Proof.
  destruct w as [v p vs i sh lb]. unfold visible. cbn. intros [= -> ->]. reflexivity.
Qed.

(** C5.  Whenever the rule runs with the ambient index not "0", the
    ejecta-index domain becomes the four values 0, 1, 2, 7; a selected
    value outside it is replaced by 0, the least value of that domain, and
    a value inside it is kept; the model recompute, when requested, comes
    after the reset and reads the value already in the domain. *)
Theorem nonzero_contracts_ejecta_domain (st : State) (update : bool) :
  value_var (s st) <> "0"%string ->
  let st' := s_change recompute update st in
  values (n st') = [0; 1; 2; 7]%Z /\
  get_value (n st') =
    (if py_in (get_value (n st)) [0; 1; 2; 7]%Z then get_value (n st) else 0%Z) /\
  In (get_value (n st')) (values (n st')) /\
  (forall x : Z, In x (values (n st')) -> (0 <= x)%Z) /\
  log st' = log st ++ (if update then [UpdateOutput (inputs st')] else []) /\
  seen_n (inputs st') = get_value (n st').
Proof.
  intros Hs. cbn zeta.
  destruct (s_change_nonzero st update Hs) as (_ & _ & _ & Hn & _ & Hl).
  assert (Hmin : forall x : Z, In x [0; 1; 2; 7]%Z -> (0 <= x)%Z).
  { intros x Hx. cbn in Hx. lia. }
  cut (values (n (s_change recompute update st)) = [0; 1; 2; 7]%Z /\
       get_value (n (s_change recompute update st)) =
         (if py_in (get_value (n st)) [0; 1; 2; 7]%Z then get_value (n st) else 0%Z)).
  { intros [Hv Hg]. split; [exact Hv|]. split; [exact Hg|]. split.
    - rewrite Hv, Hg. destruct (py_in (get_value (n st)) [0; 1; 2; 7]%Z) eqn:E.
      + unfold py_in in E. apply existsb_exists in E. destruct E as (x & Hx & Hxe).
        apply Z.eqb_eq in Hxe. rewrite Hxe. exact Hx.
      + left. reflexivity.
    - split; [rewrite Hv; exact Hmin|]. split; [exact Hl | reflexivity]. }
  rewrite Hn. unfold narrow_domain.
  destruct (py_in (get_value (n st)) [0; 1; 2; 7]%Z); split; reflexivity.
Qed.

(** C6.  From a state in which the "zero" rule is in force, selecting a
    nonzero ambient index (which shows the wind parameters) and then "0"
    again leaves the wind parameters exactly as they were, and leaves the
    ejecta index as it was when its value belongs to 0, 1, 2, 7; a value
    outside those, such as 4, ends at the fallback 0. *)
Theorem zero_nonzero_zero_round_trip (st : State) (text : string) :
  zero_rule_active st ->
  text <> "0"%string ->
  let there := select_s recompute text st in
  let back := select_s recompute "0" there in
  visible (m_w there) = (true, true) /\ visible (v_w there) = (true, true) /\
  m_w back = m_w st /\ v_w back = v_w st /\
  (py_in (get_value (n st)) [0; 1; 2; 7]%Z = true -> n back = n st) /\
  (py_in (get_value (n st)) [0; 1; 2; 7]%Z = false -> get_value (n back) = 0%Z).
Proof.
  intros (Hs & Hm0 & Hv0 & Hvals & Hne1) Htext. cbn zeta. unfold select_s.
  set (st1 := with_s (set_value text (s st)) st).
  assert (Hs1 : value_var (s st1) <> "0"%string) by exact Htext.
  destruct (s_change_nonzero st1 true Hs1) as (Hs2 & Hm1 & Hv1 & Hn1 & _).
  set (there := s_change recompute true st1) in *.
  set (st2 := with_s (set_value "0"%string (s there)) there).
  assert (Hs3 : value_var (s st2) = "0"%string) by reflexivity.
  destruct (s_change_zero st2 true Hs3) as (_ & Hm2 & Hv2 & Hn2 & _).
  change (m_w st2) with (m_w there) in Hm2. change (v_w st2) with (v_w there) in Hv2.
  change (n st2) with (n there) in Hn2.
  change (m_w st1) with (m_w st) in Hm1. change (v_w st1) with (v_w st) in Hv1.
  change (n st1) with (n st) in Hn1.
  split; [rewrite Hm1; reflexivity|]. split; [rewrite Hv1; reflexivity|].
  split; [rewrite Hm2, Hm1; apply hidden_widget; exact Hm0|].
  split; [rewrite Hv2, Hv1; apply hidden_widget; exact Hv0|].
  fold narrow_domain.
  rewrite Hn2, Hn1. unfold get_value in *.
  destruct (py_in (value_var (n st)) narrow_domain) eqn:E.
  - split; [intros _ | intros H; discriminate H].
    cbn [config_values value_var].
    apply Z.eqb_neq in Hne1. rewrite Hne1.
    destruct (n st) as [v p vs i sh lb]. cbn in *. rewrite Hvals. reflexivity.
  - split; [intros H; discriminate H | intros _]. reflexivity.
Qed.

Lemma model_change_t_tw (st : State) (update : bool) :
  let st' := model_change recompute validate_t_lk update st in
  selected (model st') = selected (model st) /\
  t_tw st' =
    (if String.eqb (selected (model st)) "tw"
     then grid (revert_value (config_state "normal" (t_tw st)))
     else grid_remove (set_value "N/A"%string (config_state "disabled" (t_tw st)))).
Proof.
  cbn zeta. unfold model_change.
  destruct (negb (String.eqb (selected (model st)) "lk")); simp_state;
    (destruct (String.eqb (selected (model st)) "cf"); simp_state;
     destruct (String.eqb (selected (model st)) "tw"); simp_state;
     destruct (String.eqb (selected (model st)) "wl"); simp_state;
     destruct update; split; reflexivity).
Qed.

Lemma select_model_t_tw (key : string) (st : State) :
  t_tw (select_model recompute validate_t_lk key st) =
    (if String.eqb key "tw"
     then grid (revert_value (config_state "normal" (t_tw st)))
     else grid_remove (set_value "N/A"%string (config_state "disabled" (t_tw st)))).
Proof.
  unfold select_model.
  destruct (model_change_t_tw
              (with_model {| selected := key; buttons := buttons (model st) |} st) true)
    as [_ H].
  exact H.
Qed.

Lemma select_models_previous (keys : list string) (st : State) :
  previous (t_tw (select_models recompute validate_t_lk keys st)) = previous (t_tw st).
Proof.
  revert st. induction keys as [|key keys IH]; intros st; [reflexivity|].
  change (previous (t_tw (select_models recompute validate_t_lk keys
                            (select_model recompute validate_t_lk key st)))
          = previous (t_tw st)).
  rewrite IH, select_model_t_tw. destruct (String.eqb key "tw"); reflexivity.
Qed.

Lemma select_models_hidden (keys : list string) (st : State) :
  keys <> [] -> Forall (fun key => key <> "tw"%string) keys ->
  let hidden := select_models recompute validate_t_lk keys st in
  input_state (t_tw hidden) = "disabled"%string /\
  get_value (t_tw hidden) = "N/A"%string /\
  visible (t_tw hidden) = (false, false).
Proof.
  intros Hne Hall. cbn zeta.
  destruct (exists_last Hne) as (front & key & ->).
  apply Forall_app in Hall. destruct Hall as [_ Hkey].
  apply Forall_inv in Hkey. apply String.eqb_neq in Hkey.
  unfold select_models. rewrite fold_left_app. cbn [fold_left].
  rewrite select_model_t_tw, Hkey. repeat split; reflexivity.
Qed.

(** C9.  After any selections of variants other than "tw" the end-time
    input is disabled, shows "N/A" and is off the grid; selecting "tw"
    again enables it, puts it back on the grid and shows the last value
    that passed validation before it was hidden (the value it showed
    then, when that one was valid), whatever the default was. *)
Theorem end_time_hidden_then_restored (st : State) (away : list string) :
  away <> [] ->
  Forall (fun key => key <> "tw"%string) away ->
  let hidden := select_models recompute validate_t_lk away st in
  let back := select_model recompute validate_t_lk "tw" hidden in
  (input_state (t_tw hidden) = "disabled"%string /\
   get_value (t_tw hidden) = "N/A"%string /\
   visible (t_tw hidden) = (false, false)) /\
  (input_state (t_tw back) = "normal"%string /\
   visible (t_tw back) = (true, true) /\
   get_value (t_tw back) = previous (t_tw st) /\
   (get_value (t_tw st) = previous (t_tw st) ->
    get_value (t_tw back) = get_value (t_tw st))).
Proof.
  intros Hne Hall. cbn zeta. split.
  - apply select_models_hidden; assumption.
  - rewrite select_model_t_tw. cbn [String.eqb Ascii.eqb Bool.eqb].
    pose proof (select_models_previous away st) as Hp.
    split; [reflexivity|]. split; [reflexivity|].
    split; [exact Hp|]. intros Hv. rewrite Hv. exact Hp.
Qed.

End RulesFacts.

Section RulesWitnesses.
Import Rules RulesSpec.

Lemma nonzero_contracts_ejecta_domain_witness :
  let st := with_s (set_value "2"%string (s (created 1000 20000)))
              (with_n (set_value 4%Z (n (created 1000 20000))) (created 1000 20000)) in
  get_value (n (s_change example_recompute true st)) = 0%Z.
Proof.
  intros st.
  pose proof (nonzero_contracts_ejecta_domain example_recompute st true
                ltac:(discriminate)) as H.
  cbn zeta in H. destruct H as (_ & H & _). exact H.
Defined.

Lemma zero_nonzero_zero_round_trip_witness :
  let st := started example_recompute (fun w => w) 1000 20000 in
  let st4 := with_n (set_value 4%Z (n st)) st in
  n (select_s example_recompute "0" (select_s example_recompute "2" st)) = n st /\
  get_value (n (select_s example_recompute "0" (select_s example_recompute "2" st4))) = 0%Z.
Proof.
  intros st st4.
  assert (Hz : zero_rule_active st).
  { unfold zero_rule_active. repeat split; try (vm_compute; reflexivity). discriminate. }
  assert (Hz4 : zero_rule_active st4).
  { unfold zero_rule_active. repeat split; try (vm_compute; reflexivity). discriminate. }
  pose proof (zero_nonzero_zero_round_trip example_recompute st "2"
                Hz ltac:(discriminate)) as H.
  pose proof (zero_nonzero_zero_round_trip example_recompute st4 "2"
                Hz4 ltac:(discriminate)) as H4.
  cbn zeta in H, H4.
  destruct H as (_ & _ & _ & _ & H & _). destruct H4 as (_ & _ & _ & _ & _ & H4).
  split; [apply H | apply H4]; vm_compute; reflexivity.
Defined.

Lemma end_time_hidden_then_restored_witness :
  let st := with_t_tw (entry "2e5"%string)
              (with_model {| selected := "tw"; buttons := ∅ |} (created 1000 20000)) in
  get_value (t_tw (select_model example_recompute (fun w => w) "tw"
                     (select_models example_recompute (fun w => w)
                        ["lk"; "cf"]%string st))) = "2e5"%string.
Proof.
  intros st.
  pose proof (end_time_hidden_then_restored example_recompute (fun w => w) st
                ["lk"; "cf"]%string) as H.
  cbn zeta in H. destruct H as (_ & _ & _ & _ & H).
  - discriminate.
  - repeat constructor; discriminate.
  - apply H. reflexivity.
Defined.

End RulesWitnesses.


(** ** The abundance editors against the specification *)

Section AbundanceFacts.
Import Abundance AbundanceSpec.
Variable validate : string -> Entry -> Entry.

Lemma slot_set_slot (k k' : Kind) (v : option nat) (st : State) :
  slot (set_slot k v st) k' = if decide (k = k') then v else slot st k'.
Proof. destruct k, k'; reflexivity. Qed.

Lemma well_formed_initial : well_formed initial.
Proof.
  split.
  - intros root w H. cbn in H. rewrite lookup_empty in H. discriminate H.
  - intros [] root H; discriminate H.
Qed.

(** Opening. *)
Lemma abundance_window_open (d : DictRef) (k : Kind) (st : State) (root : nat) :
  slot st k = Some root -> abundance_window d k st = Some (set_focus root st).
Proof. intros H. unfold abundance_window. rewrite H. reflexivity. Qed.

Lemma abundance_window_closed (d : DictRef) (k : Kind) (st st' : State) :
  slot st k = None -> abundance_window d k st = Some st' ->
  exists es,
    windows st' = <[next_root st := {| entries := es; ab_dict := d; ab_type := k |}]> (windows st) /\
    is_Some (es !! "ab_type"%string) /\
    next_root st' = S (next_root st) /\
    (forall k', slot st' k' = if decide (k = k') then Some (next_root st) else slot st k') /\
    focus st' = Some (next_root st) /\
    dict st' = dict st /\ default_type st' = default_type st /\ log st' = log st.
Proof.
  intros Hs H. unfold abundance_window in H. rewrite Hs in H. cbn in H.
  match type of H with
  | match ?e with _ => _ end = _ => destruct e as [es|] eqn:E; [|discriminate H]
  end.
  injection H as <-. eexists. split; [reflexivity|].
  split; [rewrite lookup_insert_eq; eexists; reflexivity|].
  split; [reflexivity|].
  split; [intros k'; destruct k, k'; reflexivity|].
  repeat split; reflexivity.
Qed.

Lemma well_formed_open (k : Kind) (st st' : State) :
  well_formed st -> abundance_window (table_of k) k st = Some st' -> well_formed st'.
Proof.
  intros [H1 H2] H. destruct (slot st k) as [root|] eqn:Hs.
  - rewrite (abundance_window_open _ _ _ _ Hs) in H. injection H as <-.
    split; [exact H1 | exact H2].
  - destruct (abundance_window_closed _ _ _ _ Hs H) as (es & Hw & Hab & Hn & Hsl & _).
    split.
    + intros root w Hl. rewrite Hw in Hl. rewrite Hn, Hsl.
      destruct (decide (next_root st = root)) as [<-|Hne].
      * rewrite lookup_insert_eq in Hl. injection Hl as <-. cbn.
        rewrite decide_True by reflexivity. repeat split; [exact Hab | lia].
      * rewrite lookup_insert_ne in Hl by exact Hne.
        destruct (H1 root w Hl) as (Ha & Hb & Hc & Hd).
        destruct (decide (k = ab_type w)) as [->|Hk].
        -- rewrite Ha in Hs. discriminate Hs.
        -- repeat split; [exact Ha | exact Hb | exact Hc | lia].
    + intros k' root Hk'. rewrite Hsl in Hk'. rewrite Hw.
      destruct (decide (k = k')) as [<-|Hk].
      * injection Hk' as <-. eexists. rewrite lookup_insert_eq. split; reflexivity.
      * destruct (H2 k' root Hk') as (w & Hl & Hkw). exists w. split; [|exact Hkw].
        rewrite lookup_insert_ne; [exact Hl|].
        intros <-. destruct (H1 _ _ Hl) as (_ & _ & _ & Hlt). lia.
Qed.

(** Changing the inputs of a live window. *)
Lemma well_formed_set_entries (st : State) (root : nat) (f : gmap string Entry -> gmap string Entry) :
  (forall es, is_Some (es !! "ab_type"%string) -> is_Some (f es !! "ab_type"%string)) ->
  well_formed st ->
  well_formed (set_windows
                 (alter (fun w => {| entries := f (entries w); ab_dict := ab_dict w;
                                     ab_type := ab_type w |}) root (windows st)) st).
Proof.
  intros Hf [H1 H2]. split.
  - intros r w Hl. cbn in Hl. change (next_root (set_windows _ st)) with (next_root st).
    change (slot (set_windows ?ws st)) with (slot st).
    destruct (decide (root = r)) as [<-|Hne].
    + rewrite lookup_alter_eq in Hl.
      destruct (windows st !! root) as [w0|] eqn:E; [|discriminate Hl].
      injection Hl as <-. cbn. destruct (H1 root w0 E) as (Ha & Hb & Hc & Hd).
      repeat split; [exact Ha | exact Hb | apply Hf; exact Hc | exact Hd].
    + rewrite lookup_alter_ne in Hl by exact Hne. apply H1. exact Hl.
  - intros k r Hk. change (slot (set_windows ?ws st) k) with (slot st k) in Hk.
    destruct (H2 k r Hk) as (w & Hl & Hkw). cbn.
    destruct (decide (root = r)) as [<-|Hne].
    + eexists. rewrite lookup_alter_eq, Hl. cbn. split; [reflexivity | exact Hkw].
    + exists w. rewrite lookup_alter_ne by exact Hne. split; assumption.
Qed.

Lemma alter_keeps_key (f : Entry -> Entry) (id : string) (es : gmap string Entry) (key : string) :
  is_Some (es !! key) -> is_Some (alter f id es !! key).
Proof. intros H. apply lookup_alter_is_Some. exact H. Qed.

Lemma well_formed_set_entry (st : State) (root : nat) (id : string) (v : PyVal) :
  well_formed st -> well_formed (set_entry root id v st).
Proof.
  intros H. unfold set_entry.
  apply (well_formed_set_entries st root (alter (set_value v) id)); [|exact H].
  intros es. apply alter_keeps_key.
Qed.

Lemma well_formed_reset_ab (st st' : State) (root : nat) :
  well_formed st -> reset_ab root st = Some st' -> well_formed st'.
Proof.
  intros [H1 H2] H. unfold reset_ab in H.
  destruct (windows st !! root) as [w|] eqn:Ew; [|discriminate H].
  destruct (entries w !! "ab_type"%string) as [sel|] eqn:Es; [|discriminate H].
  destruct (get_value sel) as [|p]; [discriminate H|].
  destruct (ABUNDANCE !! p) as [preset|]; [|discriminate H].
  destruct (decide _); [|discriminate H].
  injection H as <-.
  destruct (H1 root w Ew) as (Ha & Hb & Hc & Hd).
  split.
  - intros r w' Hl. cbn in Hl. change (next_root (set_windows _ st)) with (next_root st).
    change (slot (set_windows ?ws st)) with (slot st).
    destruct (decide (root = r)) as [<-|Hne].
    + rewrite lookup_insert_eq in Hl. injection Hl as <-. cbn.
      repeat split; [exact Ha | exact Hb | | exact Hd].
      apply lookup_union_is_Some. right. exact Hc.
    + rewrite lookup_insert_ne in Hl by exact Hne. apply H1. exact Hl.
  - intros k r Hk. change (slot (set_windows ?ws st) k) with (slot st k) in Hk.
    destruct (H2 k r Hk) as (w' & Hl & Hkw). cbn.
    destruct (decide (root = r)) as [<-|Hne].
    + eexists. rewrite lookup_insert_eq. split; [reflexivity|].
      cbn. rewrite Ew in Hl. injection Hl as <-. exact Hkw.
    + exists w'. rewrite lookup_insert_ne by exact Hne. split; assumption.
Qed.

(** Closing. *)
Lemma ab_window_close_spec (st : State) (root : nat) (w : Window) (d : DictRef)
    (k : Kind) (event : option (option string)) :
  windows st !! root = Some w ->
  is_Some (entries w !! "ab_type"%string) ->
  let es := match event with
            | Some (Some focused) => alter (validate focused) focused (entries w)
            | _ => entries w
            end in
  exists st' sel,
    ab_window_close validate root d k event st = Some st' /\
    es !! "ab_type"%string = Some sel /\
    (forall k', slot st' k' = if decide (k = k') then None else slot st k') /\
    windows st' = delete root (windows st) /\
    dict st' d = delete "ab_type"%string ((get_value <$> es) ∪ dict st d) /\
    (forall d', d' <> d -> dict st' d' = dict st d') /\
    default_type st' k = get_value sel /\
    (forall k', k' <> k -> default_type st' k' = default_type st k') /\
    next_root st' = next_root st /\
    log st' = log st ++ [UpdateOutput {| seen_abundance := abundance st';
                                         seen_ej_abundance := ej_abundance st' |}].
Proof.
  intros Hl Hsel. cbn zeta.
  set (es := match event with
             | Some (Some focused) => alter (validate focused) focused (entries w)
             | _ => entries w
             end).
  assert (Hes : is_Some (es !! "ab_type"%string)).
  { unfold es. destruct event as [[focused|]|]; try exact Hsel.
    apply lookup_alter_is_Some. exact Hsel. }
  destruct Hes as [sel Hes].
  set (st1 := match event with
              | Some (Some focused) =>
                  set_windows
                    (alter (fun w => {| entries := alter (validate focused) focused (entries w);
                                        ab_dict := ab_dict w; ab_type := ab_type w |})
                           root (windows st)) st
              | _ => st
              end).
  assert (Hw1 : exists w1, windows st1 !! root = Some w1 /\ entries w1 = es).
  { unfold st1, es. destruct event as [[focused|]|].
    - eexists. cbn. rewrite lookup_alter_eq, Hl. cbn. split; reflexivity.
    - exists w. split; [exact Hl | reflexivity].
    - exists w. split; [exact Hl | reflexivity]. }
  destruct Hw1 as (w1 & Hw1 & Hes1).
  assert (Hdel : delete root (windows st1) = delete root (windows st)).
  { unfold st1. destruct event as [[focused|]|]; try reflexivity.
    cbn. apply map_eq. intros r. destruct (decide (root = r)) as [<-|Hne].
    - rewrite !lookup_delete_eq. reflexivity.
    - rewrite !lookup_delete_ne by exact Hne. rewrite lookup_alter_ne by exact Hne. reflexivity. }
  assert (Hrest : dict st1 = dict st /\ slot st1 = slot st /\
                  default_type st1 = default_type st /\
                  next_root st1 = next_root st /\ log st1 = log st).
  { unfold st1. destruct event as [[focused|]|]; repeat split; reflexivity. }
  destruct Hrest as (Hd1 & Hs1 & Hdt1 & Hn1 & Hlog1).
  assert (Hpop : (get_values w1 ∪ dict st1 d) !! "ab_type"%string = Some (get_value sel)).
  { apply lookup_union_Some_l. unfold get_values. rewrite lookup_fmap, Hes1, Hes. reflexivity. }
  unfold ab_window_close. fold st1. cbn zeta.
  change (windows (set_slot k None st1)) with (windows st1). rewrite Hw1.
  assert (Hd : dict (set_dict d (get_values w1 ∪ dict (set_slot k None st1) d)
                       (set_slot k None st1)) d
               = get_values w1 ∪ dict st1 d).
  { destruct d, k; reflexivity. }
  rewrite Hd, Hpop.
  eexists. exists sel. split; [reflexivity|].
  split; [exact Hes|].
  split; [intros k'; rewrite <- Hs1; destruct k, k', d; reflexivity|].
  split; [destruct d, k; cbn; exact Hdel|].
  split; [unfold get_values; rewrite Hes1, <- Hd1; destruct d, k; reflexivity|].
  split; [intros d' Hne; rewrite <- Hd1; destruct d, d', k; try reflexivity; contradiction|].
  split; [destruct d, k; reflexivity|].
  split; [intros k' Hne; rewrite <- Hdt1; destruct d, k, k'; try reflexivity; contradiction|].
  split; [rewrite <- Hn1; destruct d, k; reflexivity|].
  rewrite <- Hlog1. destruct d, k; reflexivity.
Qed.

Lemma well_formed_close (st st' : State) (root : nat) (w : Window) (p : ClosePath) :
  well_formed st -> windows st !! root = Some w ->
  ab_window_close validate root (ab_dict w) (ab_type w) (event_of p) st = Some st' ->
  well_formed st'.
Proof.
  intros [H1 H2] Hl H.
  destruct (H1 root w Hl) as (Ha & Hb & Hc & Hd).
  destruct (ab_window_close_spec st root w (ab_dict w) (ab_type w) (event_of p) Hl Hc)
    as (st'' & sel & Hcl & _ & Hsl & Hw & _ & _ & _ & _ & Hn & _).
  rewrite Hcl in H. injection H as <-.
  split.
  - intros r w' Hl'. rewrite Hw in Hl'. rewrite Hsl, Hn.
    destruct (decide (root = r)) as [<-|Hne].
    + rewrite lookup_delete_eq in Hl'. discriminate Hl'.
    + rewrite lookup_delete_ne in Hl' by exact Hne.
      destruct (H1 r w' Hl') as (Ha' & Hb' & Hc' & Hd').
      destruct (decide (ab_type w = ab_type w')) as [Heq|Hk].
      * exfalso. rewrite <- Heq, Ha in Ha'. injection Ha' as ->. contradiction.
      * repeat split; assumption.
  - intros k r Hk. rewrite Hsl in Hk. rewrite Hw.
    destruct (decide (ab_type w = k)) as [Heq|Hne]; [discriminate Hk|].
    destruct (H2 k r Hk) as (w' & Hl' & Hkw). exists w'. split; [|exact Hkw].
    rewrite lookup_delete_ne; [exact Hl'|].
    intros <-. rewrite Hl in Hl'. injection Hl' as <-. contradiction.
Qed.

Lemma well_formed_step (a : Action) (st st' : State) :
  well_formed st -> step validate a st = Some st' -> well_formed st'.
Proof.
  intros Hwf H. destruct a as [k | root element x | root preset | root p]; cbn in H.
  - eapply well_formed_open; eassumption.
  - destruct (windows st !! root); [|discriminate H].
    destruct (decide _); [|discriminate H]. injection H as <-.
    apply well_formed_set_entry, well_formed_set_entry. exact Hwf.
  - destruct (windows st !! root); [|discriminate H].
    eapply well_formed_reset_ab; [|exact H]. apply well_formed_set_entry. exact Hwf.
  - destruct (windows st !! root) as [w|] eqn:Hl; [|discriminate H].
    eapply well_formed_close; eassumption.
Qed.

Lemma reachable_well_formed (st : State) : reachable validate st -> well_formed st.
Proof.
  induction 1 as [|st a st' _ IH Hstep].
  - apply well_formed_initial.
  - eapply well_formed_step; eassumption.
Qed.

(** C7.  In every reachable state two live editor windows of the same
    kind are the same window, and opening the editor of a kind that has a
    live window succeeds, changes nothing but the focus, which goes to
    that window, and so leaves the set of windows as it is. *)
Theorem single_editor_per_kind (st : State) (k : Kind) :
  reachable validate st ->
  (forall r1 r2 w1 w2,
     windows st !! r1 = Some w1 -> windows st !! r2 = Some w2 ->
     ab_type w1 = k -> ab_type w2 = k -> r1 = r2) /\
  (forall root w,
     windows st !! root = Some w -> ab_type w = k ->
     step validate (Open k) st = Some (set_focus root st) /\
     windows (set_focus root st) = windows st /\
     focus (set_focus root st) = Some root).
Proof.
  intros Hr. destruct (reachable_well_formed st Hr) as [H1 H2]. split.
  - intros r1 r2 w1 w2 Hl1 Hl2 Hk1 Hk2.
    destruct (H1 r1 w1 Hl1) as (Ha1 & _). destruct (H1 r2 w2 Hl2) as (Ha2 & _).
    rewrite Hk1 in Ha1. rewrite Hk2, Ha1 in Ha2. injection Ha2 as ->. reflexivity.
  - intros root w Hl Hk. destruct (H1 root w Hl) as (Ha & _). rewrite Hk in Ha.
    split; [|split; reflexivity].
    cbn [step]. apply abundance_window_open. exact Ha.
Qed.

(** C8.  In every reachable state each of the three close paths of a live
    editor window succeeds and commits: every input of the working copy
    is written to the table of the editor's kind (the other keys of the
    table and the other table are untouched), the value of the preset
    dropdown becomes the default preset of that kind, the window is gone,
    the slot of the kind is free, and the model recompute comes last and
    reads the committed tables. *)
Theorem close_commits (st : State) (root : nat) (w : Window) (p : ClosePath) :
  reachable validate st ->
  windows st !! root = Some w ->
  let k := ab_type w in
  let es := working_copy validate p w in
  exists st' sel,
    step validate (Close root p) st = Some st' /\
    es !! "ab_type"%string = Some sel /\
    (forall id, id <> "ab_type"%string ->
       dict st' (table_of k) !! id =
         match es !! id with
         | Some e => Some (get_value e)
         | None => dict st (table_of k) !! id
         end) /\
    dict st' (table_of k) !! "ab_type"%string = None /\
    (forall d, d <> table_of k -> dict st' d = dict st d) /\
    default_type st' k = get_value sel /\
    slot st' k = None /\
    windows st' !! root = None /\
    log st' = log st ++ [UpdateOutput {| seen_abundance := abundance st';
                                         seen_ej_abundance := ej_abundance st' |}].
Proof.
  intros Hr Hl. cbn zeta. destruct (reachable_well_formed st Hr) as [H1 H2].
  destruct (H1 root w Hl) as (Ha & Hb & Hc & Hd).
  destruct (ab_window_close_spec st root w (ab_dict w) (ab_type w) (event_of p) Hl Hc)
    as (st' & sel & Hcl & Hsel & Hsl & Hw & Hdict & Hother & Hdef & _ & _ & Hlog).
  exists st', sel. cbn [step]. rewrite Hl. rewrite Hb in *.
  split; [exact Hcl|]. split; [exact Hsel|].
  fold (working_copy validate p w) in Hdict.
  split.
  { intros id Hid. rewrite Hdict, lookup_delete_ne by (intros E; apply Hid; symmetry; exact E).
    rewrite lookup_union, lookup_fmap.
    destruct (working_copy validate p w !! id) as [e|]; cbn.
    - destruct (dict st (table_of (ab_type w)) !! id); reflexivity.
    - destruct (dict st (table_of (ab_type w)) !! id); reflexivity. }
  split; [rewrite Hdict; apply lookup_delete_eq|].
  split; [exact Hother|]. split; [exact Hdef|].
  split; [rewrite Hsl; rewrite decide_True by reflexivity; reflexivity|].
  split; [rewrite Hw; apply lookup_delete_eq | exact Hlog].
Qed.

End AbundanceFacts.

Section AbundanceWitnesses.
Import Abundance AbundanceSpec.

Lemma run_reachable (validate : string -> Entry -> Entry) (actions : list Action) :
  forall st st', reachable validate st -> run validate actions st = Some st' ->
                 reachable validate st'.
Proof.
  induction actions as [|a rest IH]; intros st st' Hr H; cbn in H.
  - injection H as <-. exact Hr.
  - destruct (step validate a st) as [st1|] eqn:E; [|discriminate H].
    apply (IH st1 st'); [|exact H]. eapply reachable_step; eassumption.
Qed.

Lemma after_reachable (validate : string -> Entry -> Entry) (actions : list Action) :
  reachable validate (after validate actions).
Proof.
  unfold after. destruct (run validate actions initial) as [st|] eqn:E; cbn.
  - eapply run_reachable; [apply reachable_initial | exact E].
  - apply reachable_initial.
Qed.

Lemma is_live_window_at (st : State) (root : nat) :
  is_live st root = true -> windows st !! root = Some (window_at st root).
Proof.
  unfold is_live, window_at. destruct (windows st !! root); [reflexivity | discriminate].
Qed.

Lemma single_editor_per_kind_witness :
  let st := after validate_entry [Open ISM] in
  step validate_entry (Open ISM) st = Some (set_focus 0 st) /\
  windows (set_focus 0 st) = windows st /\
  focus (set_focus 0 st) = Some 0%nat.
Proof.
  intros st.
  assert (Hl : is_live st 0 = true) by (vm_compute; reflexivity).
  assert (Hk : ab_type (window_at st 0) = ISM) by (vm_compute; reflexivity).
  exact (proj2 (single_editor_per_kind validate_entry st ISM
                  (after_reachable validate_entry [Open ISM]))
           0%nat (window_at st 0) (is_live_window_at st 0 Hl) Hk).
Defined.

Lemma close_commits_witness :
  let st := after validate_entry [Open ISM; Type_ 0%nat "He"%string 11] in
  exists st',
    step validate_entry (Close 0%nat WmDelete) st = Some st' /\
    abundance st' !! "He"%string = Some (Num 11) /\
    open_ISM st' = None /\
    windows st' !! 0%nat = None.
Proof.
  intros st.
  assert (Hl : is_live st 0 = true) by (vm_compute; reflexivity).
  assert (Hk : ab_type (window_at st 0) = ISM) by (vm_compute; reflexivity).
  assert (He : get_value <$> (working_copy validate_entry WmDelete (window_at st 0)
                                !! "He"%string) = Some (Num 11))
    by (vm_compute; reflexivity).
  destruct (close_commits validate_entry st 0%nat (window_at st 0) WmDelete
              (after_reachable validate_entry _) (is_live_window_at st 0 Hl))
    as (st' & sel & Hstep & _ & Hcopy & _ & _ & _ & Hslot & Hwin & _).
  exists st'. split; [exact Hstep|].
  pose proof (Hcopy "He"%string ltac:(discriminate)) as H.
  rewrite Hk in H, Hslot.
  destruct (working_copy validate_entry WmDelete (window_at st 0) !! "He"%string) as [e|];
    [|discriminate He].
  cbn in He. injection He as He. rewrite He in H.
  split; [exact H|]. split; [exact Hslot | exact Hwin].
Defined.

End AbundanceWitnesses.

(** * Further properties of the code *)

(** ** The increment controller *)

Section AxisExtraFacts.
Import Axis AxisSpec AxisExtra.

Lemma Qpow10_gt_10 (k : Z) : 10 < 10 ^ k -> (2 <= k)%Z.
Proof.
  intros H. change 10 with (10 ^ 1) in H at 1.
  apply Qpower_lt_compat_l_inv in H; [lia | reflexivity].
Qed.

Lemma Qpow10_pred (k : Z) : 10 ^ k / 10 == 10 ^ (k - 1).
Proof.
  assert (H : 10 ^ k == 10 * 10 ^ (k - 1)).
  { rewrite <- Qpow10_succ. replace (k - 1 + 1)%Z with k by lia. reflexivity. }
  rewrite H. field.
Qed.

Lemma spec_step_power (k : Z) (v : Q) (direction : Z) :
  exists j : Z, (1 <= j)%Z /\ spec_step (Qmax (10 ^ k) 10) v direction == 10 ^ j.
Proof.
  unfold spec_step. destruct (Z_le_gt_dec 1 k) as [Hk1|Hk1].
  - assert (Hb : Qmax (10 ^ k) 10 == 10 ^ k) by (apply Q.max_l, Qpow10_ge_10; exact Hk1).
    destruct ((direction =? -1)%Z && Qeq_bool v (Qmax (10 ^ k) 10)
              && negb (Qle_bool (Qmax (10 ^ k) 10) 10)) eqn:E.
    + apply andb_true_iff in E. destruct E as [_ E]. apply negb_true_iff in E.
      assert (Hgt : 10 < 10 ^ k).
      { apply Qnot_le_lt. intros Hle. rewrite <- Hb in Hle.
        apply Qle_bool_iff in Hle. congruence. }
      exists (k - 1)%Z. split; [apply Qpow10_gt_10 in Hgt; lia|].
      rewrite Hb. apply Qpow10_pred.
    + exists k. split; [exact Hk1 | exact Hb].
  - assert (Hb : Qmax (10 ^ k) 10 == 10).
    { apply Q.max_r. pose proof (Qpow10_le_1 k ltac:(lia)). lra. }
    assert (E : negb (Qle_bool (Qmax (10 ^ k) 10) 10) = false).
    { apply negb_false_iff, Qle_bool_iff. rewrite Hb. lra. }
    rewrite E, andb_false_r. exists 1%Z. split; [lia | exact Hb].
Qed.

Lemma compute_increment_power (v : Q) (direction : Z) :
  exists j : Z, (1 <= j)%Z /\ compute_increment v direction == 10 ^ j.
Proof.
  destruct (Qlt_le_dec 0 v) as [Hv|Hv].
  - destruct (floor_log10_pos v Hv) as [k Hk].
    destruct (spec_step_power k v direction) as (j & Hj & Hs).
    exists j. split; [exact Hj|].
    rewrite (compute_increment_pos v direction k Hk). exact Hs.
  - exists 1%Z. split; [lia|].
    rewrite (compute_increment_nonpos v direction Hv). reflexivity.
Qed.

Lemma compute_increment_le (v : Q) (direction : Z) :
  10 <= v -> compute_increment v direction <= v.
Proof.
  intros Hv10.
  assert (Hv : 0 < v) by lra.
  destruct (floor_log10_pos v Hv) as [k Hk].
  destruct (floor_log10_spec v k Hk) as [Hlo Hhi].
  rewrite (compute_increment_pos v direction k Hk). unfold spec_step.
  assert (Hb : Qmax (10 ^ k) 10 <= v) by (apply Q.max_lub; assumption).
  pose proof (Py_max_10_ge (10 ^ k)) as Hge.
  destruct ((direction =? -1)%Z && Qeq_bool v (Qmax (10 ^ k) 10)
            && negb (Qle_bool (Qmax (10 ^ k) 10) 10)); [|exact Hb].
  set (b := Qmax (10 ^ k) 10) in *.
  assert (b / 10 <= b) by (apply Qle_shift_div_r; lra). lra.
Qed.

(** X1.  The step computed for an edit is always a power of ten with
    exponent at least one, hence at least ten; it is the increment the
    editor holds after the action.  For an editor showing an integer of
    the editors' range that is ten or more, the step does not exceed the
    number shown. *)
Theorem increment_power_of_ten (st : State) (w : Ident) (direction : Z) :
  let v := get_value (widget st w) in
  let step := increment (widget (increment_xlimits w direction st) w) in
  (exists j : Z, (1 <= j)%Z /\ step == 10 ^ j) /\
  10 <= step /\
  (exact_input v -> 10 <= v -> step <= v).
Proof.
  cbn zeta. rewrite increment_xlimits_increment.
  pose proof (compute_increment_power (get_value (widget st w)) direction) as Hpow.
  split; [exact Hpow|].
  split; [|intros _; apply compute_increment_le].
  destruct Hpow as (j & Hj & Hs). rewrite Hs. apply Qpow10_ge_10. exact Hj.
Qed.

Lemma increment_power_of_ten_witness :
  exact_input (get_value (widget (showing 0 347) xmax)) /\
  10 <= get_value (widget (showing 0 347) xmax) /\
  increment (widget (increment_xlimits xmax 1 (showing 0 347)) xmax)
  <= get_value (widget (showing 0 347) xmax).
Proof.
  assert (He : exact_input (get_value (widget (showing 0 347) xmax))).
  { split; [exists 347%Z; reflexivity|]. split; discriminate. }
  split; [exact He|]. split; [discriminate|].
  apply (proj2 (proj2 (increment_power_of_ten (showing 0 347) xmax 1)));
    [exact He | discriminate].
Defined.

Lemma arrow_value_direction (old maximum : Q) (direction : Z) :
  direction = 1%Z \/ direction = (-1)%Z ->
  let new_val := arrow_value old maximum direction in
  new_val <= maximum /\
  (direction = (-1)%Z -> new_val < old) /\
  (direction = 1%Z -> old < maximum -> old < new_val) /\
  (direction = 1%Z -> maximum <= old -> new_val == maximum).
Proof.
  intros Hdir. cbn zeta. unfold arrow_value.
  pose proof (compute_increment_positive old direction) as Hstep.
  set (step := compute_increment old direction) in *.
  set (raw := old + inject_Z direction * step).
  assert (Hpos : 0 < step) by lra.
  set (u := if must_snap raw step old maximum direction
            then snap raw step direction else raw).
  rewrite clamp_Qmin.
  pose proof (Q.le_min_r u maximum) as Hmax.
  pose proof (Q.le_min_l u maximum) as Hu.
  split; [exact Hmax|].
  destruct Hdir as [Hd|Hd]; rewrite Hd in *.
  - assert (Hraw : raw == old + step).
    { unfold raw. rewrite Hd. change (inject_Z 1) with 1. ring. }
    assert (Hgt : old < u).
    { unfold u. destruct (must_snap raw step old maximum direction); [|lra].
      rewrite Hd. destruct (snap_down raw step Hpos) as (_ & _ & Hlt). lra. }
    split; [intros H; discriminate H|]. split; intros _ Hom.
    + apply Q.min_glb_lt; assumption.
    + apply Q.min_r. lra.
  - assert (Hraw : raw == old - step).
    { unfold raw. rewrite Hd. change (inject_Z (-1)) with (-1). ring. }
    assert (Hlt : u < old).
    { unfold u. destruct (must_snap raw step old maximum direction); [|lra].
      rewrite Hd. destruct (snap_up raw step Hpos) as (_ & _ & Hlt). lra. }
    split; [intros _; lra|]. split; intros H; discriminate H.
Qed.

(** X2.  An arrow never stores a value above the upper bound; a down
    arrow that stores a value stores one below the number shown, an up
    arrow one above it when the number shown is below the upper bound,
    and the upper bound itself when the number shown has reached it. *)
Theorem arrow_moves_the_right_way (st : State) (w : Ident) (direction : Z) :
  direction = 1%Z \/ direction = (-1)%Z ->
  let old_val := get_value (widget st w) in
  let maximum := to (widget st w) in
  let st' := increment_xlimits w direction st in
  data st' w = data st w \/
  (data st' w <= maximum /\
   (direction = (-1)%Z -> data st' w < old_val) /\
   (direction = 1%Z -> old_val < maximum -> old_val < data st' w) /\
   (direction = 1%Z -> maximum <= old_val -> data st' w == maximum)).
Proof.
  intros Hdir. cbn zeta.
  assert (Hd : direction <> 0%Z) by (destruct Hdir; lia).
  destruct (increment_xlimits_arrow st w direction Hd) as (_ & _ & [(Hk & _) | (Hk & _)]).
  - right. rewrite Hk. apply arrow_value_direction. exact Hdir.
  - left. exact Hk.
Qed.

Lemma arrow_moves_the_right_way_witness :
  data (increment_xlimits xmax 1 (showing 0 950)) xmax = data (showing 0 950) xmax \/
  (data (increment_xlimits xmax 1 (showing 0 950)) xmax <= 100000000 /\
   (1%Z = (-1)%Z -> data (increment_xlimits xmax 1 (showing 0 950)) xmax < 950) /\
   (1%Z = 1%Z -> 950 < 100000000 -> 950 < data (increment_xlimits xmax 1 (showing 0 950)) xmax) /\
   (1%Z = 1%Z -> 100000000 <= 950 ->
    data (increment_xlimits xmax 1 (showing 0 950)) xmax == 100000000)).
Proof.
  apply (arrow_moves_the_right_way (showing 0 950) xmax 1). left. reflexivity.
Defined.

(** The floor of the logarithm is determined by its two bounds. *)
Lemma floor_log10_unique (v : Q) (k : Z) :
  floor_log10_is v k -> Py.floor_log10 v = Some k.
Proof.
  intros [Hlo Hhi].
  assert (Hv : 0 < v) by (pose proof (Qpow10_pos k); lra).
  destruct (floor_log10_pos v Hv) as [k' Hk'].
  destruct (floor_log10_spec v k' Hk') as [Hlo' Hhi'].
  assert (H1 : 10 ^ k < 10 ^ (k' + 1)) by lra.
  assert (H2 : 10 ^ k' < 10 ^ (k + 1)) by lra.
  apply Qpower_lt_compat_l_inv in H1; [|reflexivity].
  apply Qpower_lt_compat_l_inv in H2; [|reflexivity].
  rewrite Hk'. f_equal. lia.
Qed.

Lemma arrow_value_no_snap (old maximum : Q) (direction : Z) :
  let step := compute_increment old direction in
  let raw := old + inject_Z direction * step in
  is_multiple raw step -> raw <= maximum ->
  arrow_value old maximum direction == raw.
Proof.
  cbn zeta. intros Hm Hle. unfold arrow_value, must_snap.
  pose proof (compute_increment_positive old direction) as Hstep.
  apply mod_zero_multiple in Hm; [|lra]. apply Qeq_bool_iff in Hm. rewrite Hm.
  cbn [negb andb]. rewrite clamp_Qmin. apply Q.min_l. exact Hle.
Qed.

Lemma compute_increment_at (v : Q) (direction : Z) (k : Z) :
  floor_log10_is v k -> (1 <= k)%Z ->
  compute_increment v direction ==
    (if (direction =? -1)%Z && Qeq_bool v (10 ^ k) && negb (Qle_bool (10 ^ k) 10)
     then 10 ^ (k - 1) else 10 ^ k).
Proof.
  intros Hk Hk1.
  rewrite (compute_increment_pos v direction k (floor_log10_unique v k Hk)).
  unfold spec_step.
  assert (Hb : Qmax (10 ^ k) 10 == 10 ^ k) by (apply Q.max_l, Qpow10_ge_10; exact Hk1).
  assert (E1 : Qeq_bool v (Qmax (10 ^ k) 10) = Qeq_bool v (10 ^ k)) by (rewrite Hb; reflexivity).
  assert (E2 : Qle_bool (Qmax (10 ^ k) 10) 10 = Qle_bool (10 ^ k) 10) by (rewrite Hb; reflexivity).
  rewrite E1, E2.
  destruct ((direction =? -1)%Z && Qeq_bool v (10 ^ k) && negb (Qle_bool (10 ^ k) 10)).
  - transitivity (10 ^ k / 10); [|apply Qpow10_pred].
    apply Qmult_comp; [exact Hb | reflexivity].
  - exact Hb.
Qed.

(** The multiples of a power of ten between it and the next power. *)
Lemma multiple_digit (v : Q) (k : Z) (m : Z) :
  floor_log10_is v k -> v == inject_Z m * 10 ^ k -> (1 <= m <= 9)%Z.
Proof.
  intros [Hlo Hhi] Hm. pose proof (Qpow10_pos k) as Hp.
  rewrite Qpow10_succ in Hhi. rewrite Hm in Hlo, Hhi.
  assert (H1 : 1 * 10 ^ k <= inject_Z m * 10 ^ k) by lra.
  assert (H2 : inject_Z m * 10 ^ k < 10 * 10 ^ k) by lra.
  apply Qmult_le_r in H1; [|exact Hp]. apply Qmult_lt_r in H2; [|exact Hp].
  change 1 with (inject_Z 1) in H1. change 10 with (inject_Z 10) in H2.
  rewrite <- Zle_Qle in H1. rewrite <- Zlt_Qlt in H2. lia.
Qed.

(** X3.  An up arrow followed by a down arrow gives back the starting
    value: when the number shown is a non-negative multiple of its step
    and one step up stays within the upper bound, the up arrow reaches the
    value plus the step, and the down arrow from there reaches the value
    again, also across a power of ten, where the step of the way back is a
    tenth of the step the new value would take upwards. *)
Theorem up_then_down_round_trip (v maximum : Q) :
  0 <= v ->
  is_multiple v (compute_increment v 1) ->
  v + compute_increment v 1 <= maximum ->
  arrow_value v maximum 1 == v + compute_increment v 1 /\
  arrow_value (arrow_value v maximum 1) maximum (-1) == v.
Proof.
  intros Hv0 Hmul Hmax.
  pose proof (compute_increment_positive v 1) as Hs1.
  set (s := compute_increment v 1) in *.
  assert (Hup : arrow_value v maximum 1 == v + s).
  { rewrite arrow_value_no_snap; fold s.
    - change (inject_Z 1) with 1. ring.
    - destruct Hmul as [m Hm]. exists (m + 1)%Z. rewrite inject_Z_plus.
      change (inject_Z 1) with 1. rewrite Hm at 1. ring.
    - change (inject_Z 1) with 1. lra. }
  split; [exact Hup|].
  set (v1 := arrow_value v maximum 1) in *.
  (* the step of the way back is [s] again *)
  assert (Hback : compute_increment v1 (-1) == s).
  { destruct (Qlt_le_dec 0 v) as [Hv|Hv].
    - destruct (floor_log10_pos v Hv) as [k Hk].
      pose proof (floor_log10_spec v k Hk) as Hspec.
      destruct Hmul as [m Hm].
      assert (Hm1 : (1 <= m)%Z).
      { destruct (Z_le_gt_dec 1 m) as [H|H]; [exact H|exfalso].
        assert (inject_Z m <= 0) by (change 0 with (inject_Z 0); rewrite <- Zle_Qle; lia).
        assert (inject_Z m * s <= 0 * s) by (apply Qmult_le_compat_r; lra). lra. }
      assert (Hvs : s <= v).
      { rewrite Hm. assert (1 * s <= inject_Z m * s); [|lra].
        apply Qmult_le_compat_r; [|lra].
        change 1 with (inject_Z 1). rewrite <- Zle_Qle. exact Hm1. }
      assert (Hk1 : (1 <= k)%Z).
      { destruct (base_step_integer k) as (z & Hz & _).
        destruct Hspec as [_ Hhi].
        assert (H10 : 10 <= v).
        { destruct (compute_increment_power v 1) as (j & Hj & Hsj). fold s in Hsj.
          pose proof (Qpow10_ge_10 j Hj). lra. }
        assert (H : 10 ^ 1 < 10 ^ (k + 1)) by (change (10 ^ 1) with 10; lra).
        apply Qpower_lt_compat_l_inv in H; [lia | reflexivity]. }
      assert (Hs : s == 10 ^ k).
      { unfold s. rewrite (compute_increment_at v 1 k Hspec Hk1). reflexivity. }
      rewrite Hs in Hm.
      pose proof (multiple_digit v k m Hspec Hm) as Hdig.
      pose proof (Qpow10_pos k) as Hp.
      assert (Hv1 : v1 == inject_Z (m + 1) * 10 ^ k).
      { rewrite Hup, Hs, Hm, inject_Z_plus. change (inject_Z 1) with 1. ring. }
      destruct (Z.eq_dec m 9%Z) as [-> | Hm9].
      + (* the next power of ten: the step is divided *)
        assert (Hv1' : v1 == 10 ^ (k + 1)).
        { rewrite Hv1, Qpow10_succ. change (inject_Z (9 + 1)) with 10. reflexivity. }
        assert (Hspec1 : floor_log10_is v1 (k + 1)).
        { split; [rewrite Hv1'; lra|].
          rewrite Hv1', (Qpow10_succ (k + 1)).
          pose proof (Qpow10_pos (k + 1)). lra. }
        rewrite (compute_increment_at v1 (-1) (k + 1) Hspec1 ltac:(lia)).
        assert (E1 : Qeq_bool v1 (10 ^ (k + 1)) = true) by (apply Qeq_bool_iff; exact Hv1').
        assert (E2 : Qle_bool (10 ^ (k + 1)) 10 = false).
        { destruct (Qle_bool (10 ^ (k + 1)) 10) eqn:E; [|reflexivity].
          apply Qle_bool_iff in E. rewrite Qpow10_succ in E.
          pose proof (Qpow10_ge_10 k Hk1). lra. }
        rewrite E1, E2. cbn [Z.eqb Pos.eqb andb negb].
        replace (k + 1 - 1)%Z with k by lia. symmetry. exact Hs.
      + assert (Hspec1 : floor_log10_is v1 k).
        { split.
          - rewrite Hv1. assert (1 * 10 ^ k <= inject_Z (m + 1) * 10 ^ k); [|lra].
            apply Qmult_le_compat_r; [|lra].
            change 1 with (inject_Z 1). rewrite <- Zle_Qle. lia.
          - rewrite Hv1, Qpow10_succ. apply Qmult_lt_compat_r; [exact Hp|].
            change 10 with (inject_Z 10). rewrite <- Zlt_Qlt. lia. }
        rewrite (compute_increment_at v1 (-1) k Hspec1 Hk1).
        assert (E1 : Qeq_bool v1 (10 ^ k) = false).
        { destruct (Qeq_bool v1 (10 ^ k)) eqn:E; [|reflexivity].
          apply Qeq_bool_iff in E. rewrite Hv1 in E.
          assert (inject_Z (m + 1) * 10 ^ k == 1 * 10 ^ k) by lra.
          assert (Hz : inject_Z (m + 1) == 1).
          { apply (Qmult_inj_r _ _ (10 ^ k)); [lra | assumption]. }
          unfold Qeq in Hz. cbn in Hz. lia. }
        rewrite E1, andb_false_r. cbn [andb]. symmetry. exact Hs.
    - (* from zero: up to ten, and down with step ten *)
      assert (Hv' : v == 0) by lra.
      assert (Hs : s = 10) by (apply compute_increment_nonpos; lra).
      assert (Hv1 : v1 == 10) by (rewrite Hup, Hs; lra).
      assert (Hspec1 : floor_log10_is v1 1).
      { split; [change (10 ^ 1) with 10; lra|].
        change (10 ^ (1 + 1)) with 100. lra. }
      rewrite (compute_increment_at v1 (-1) 1 Hspec1 ltac:(lia)).
      change (10 ^ 1) with 10.
      assert (E : Qle_bool 10 10 = true) by reflexivity.
      rewrite E, andb_false_r. rewrite Hs. reflexivity. }
  set (s' := compute_increment v1 (-1)) in *.
  assert (Hraw : v1 + inject_Z (-1) * s' == v).
  { change (inject_Z (-1)) with (-1). lra. }
  transitivity (v1 + inject_Z (-1) * s'); [|exact Hraw].
  apply arrow_value_no_snap; fold s'.
  - destruct Hmul as [m Hm]. exists m.
    transitivity v; [exact Hraw|].
    transitivity (inject_Z m * s); [exact Hm|].
    apply Qmult_comp; [reflexivity | symmetry; exact Hback].
  - lra.
Qed.

Lemma up_then_down_round_trip_witness :
  arrow_value 90 100000000 1 == 90 + compute_increment 90 1 /\
  arrow_value (arrow_value 90 100000000 1) 100000000 (-1) == 90.
Proof.
  apply (up_then_down_round_trip 90 100000000).
  - discriminate.
  - exists 9%Z. vm_compute. reflexivity.
  - vm_compute. discriminate.
Defined.

(** One action of the axis controls: what it appends to the log. *)
Lemma act_log (st : State) (a : Action) :
  exists ev, log (act st a) = log st ++ ev /\
             forallb is_display_plot ev = true /\
             length ev = redraws [a].
Proof.
  destruct a as [text | w direction | w v].
  - eexists. split; [reflexivity|]. split; reflexivity.
  - eexists. split; [apply increment_xlimits_log|]. split; reflexivity.
  - exists []. split; [|split; reflexivity].
    rewrite app_nil_r. destruct w; reflexivity.
Qed.

Lemma act_in_sync (st : State) (a : Action) :
  data_range st = range_var st -> data_range (act st a) = range_var (act st a).
Proof.
  intros H. destruct a as [text | w direction | w v].
  - reflexivity.
  - cbn [act]. unfold increment_xlimits, arrow_step, force_custom.
    destruct (negb (data_range st =? "Custom")%string) eqn:E.
    + destruct (negb (direction =? 0)%Z).
      * destruct (must_snap _ _ _ _ _); destruct (may_commit _ _ _ _);
          destruct w; reflexivity.
      * destruct w; reflexivity.
    + destruct (negb (direction =? 0)%Z).
      * destruct (must_snap _ _ _ _ _); destruct (may_commit _ _ _ _);
          destruct w; exact H.
      * destruct w; exact H.
  - destruct w; exact H.
Qed.

Lemma act_to (st : State) (a : Action) (w : Ident) :
  to (widget (act st a) w) = to (widget st w).
Proof.
  destruct a as [text | w' direction | w' v].
  - destruct w; reflexivity.
  - cbn [act]. unfold increment_xlimits, arrow_step.
    rewrite !widget_force_custom.
    assert (Hf : to (widget (force_custom st) w) = to (widget st w))
      by (rewrite widget_force_custom; reflexivity).
    destruct (negb (direction =? 0)%Z).
    + destruct (must_snap _ _ _ _ _); destruct (may_commit _ _ _ _);
        destruct w, w'; cbn; try exact Hf; rewrite ?widget_force_custom; reflexivity.
    + destruct w, w'; cbn; try exact Hf; rewrite ?widget_force_custom; reflexivity.
  - destruct w, w'; reflexivity.
Qed.

Lemma redraws_cons (a : Action) (actions : list Action) :
  redraws (a :: actions) = (redraws [a] + redraws actions)%nat.
Proof. unfold redraws. cbn. destruct a; reflexivity. Qed.

(** X4.  Over any sequence of dropdown picks, spinbox edits and changes of
    the numbers shown, from a state in which the stored mode is the text
    of the dropdown: the two still agree at the end, the log has grown by
    plot redraws only, one for each pick or edit and none for a change of
    a displayed number (so the model is never recomputed), and the upper
    bounds of the spinboxes are those of the start. *)
Theorem axis_controls_only_redraw (actions : list Action) (st : State) :
  data_range st = range_var st ->
  let st' := run actions st in
  data_range st' = range_var st' /\
  (exists ev, log st' = log st ++ ev /\
              forallb is_display_plot ev = true /\
              length ev = redraws actions) /\
  (forall w, to (widget st' w) = to (widget st w)).
Proof.
  cbn zeta. unfold run. revert st.
  induction actions as [|a actions IH]; intros st H.
  - split; [exact H|]. split; [|reflexivity].
    exists []. rewrite app_nil_r. repeat split; reflexivity.
  - cbn [fold_left].
    destruct (IH (act st a) (act_in_sync st a H)) as (Hs & (ev & Hl & Hd & Hn) & Ht).
    destruct (act_log st a) as (ev0 & Hl0 & Hd0 & Hn0).
    split; [exact Hs|]. split.
    + exists (ev0 ++ ev). split; [|split].
      * rewrite Hl, Hl0, app_assoc. reflexivity.
      * rewrite forallb_app, Hd0, Hd. reflexivity.
      * rewrite length_app, Hn0, Hn, <- redraws_cons. reflexivity.
    + intros w. rewrite Ht. apply act_to.
Qed.

Lemma axis_controls_only_redraw_witness :
  let st' := run [Edit xmax 1; PickRange "PDS"; Display xmin 5] (showing 0 900) in
  data_range st' = range_var st' /\
  (exists ev, log st' = log (showing 0 900) ++ ev /\
              forallb is_display_plot ev = true /\
              length ev = redraws [Edit xmax 1; PickRange "PDS"; Display xmin 5]) /\
  (forall w, to (widget st' w) = to (widget (showing 0 900) w)).
Proof.
  apply (axis_controls_only_redraw [Edit xmax 1; PickRange "PDS"; Display xmin 5] (showing 0 900)).
  reflexivity.
Defined.

(** The number the edited spinbox shows after the action: the one it
    showed, or the one written by the snapping branch (line 170). *)
Lemma increment_xlimits_shown (st : State) (w : Ident) (direction : Z) :
  let old_val := get_value (widget st w) in
  let inc := compute_increment old_val direction in
  let st' := increment_xlimits w direction st in
  get_value (widget st' (paired w)) = get_value (widget st (paired w)) /\
  (get_value (widget st' w) = old_val \/
   (direction <> 0%Z /\
    get_value (widget st' w)
    = snap (old_val + inject_Z direction * inc) inc direction - inject_Z direction * inc)).
Proof.
  cbn zeta. unfold increment_xlimits, arrow_step.
  rewrite !widget_force_custom.
  set (old_val := get_value (widget st w)).
  set (inc := compute_increment old_val direction).
  assert (Hi : increment (widget (config_increment w inc (force_custom st)) w) = inc)
    by (destruct w; reflexivity).
  assert (Ht : to (widget (config_increment w inc (force_custom st)) w) = to (widget st w))
    by (rewrite <- (widget_force_custom st w); destruct w; reflexivity).
  rewrite Hi, Ht.
  pose proof (widget_force_custom st xmin) as Wmin.
  pose proof (widget_force_custom st xmax) as Wmax.
  cbn [widget] in Wmin, Wmax.
  destruct (direction =? 0)%Z eqn:Hd; cbn [negb].
  - destruct w; cbn; rewrite ?Wmin, ?Wmax; split; try reflexivity; left; reflexivity.
  - apply Z.eqb_neq in Hd.
    destruct (must_snap _ inc old_val (to (widget st w)) direction);
      destruct (may_commit _ _ _ _);
      destruct w; cbn; rewrite ?Wmin, ?Wmax;
      (split; [reflexivity|]);
      solve [left; reflexivity | right; split; [exact Hd | reflexivity]].
Qed.

Lemma snapped_shown_nonneg (old step : Q) (direction : Z) :
  0 < step -> 0 <= old -> direction = 1%Z \/ direction = (-1)%Z ->
  0 <= snap (old + inject_Z direction * step) step direction - inject_Z direction * step.
Proof.
  intros Hs Hold [Hd|Hd]; rewrite Hd.
  - change (inject_Z 1) with 1.
    destruct (snap_down (old + 1 * step) step Hs) as ([m Hm] & Hle & Hlt).
    apply (multiple_above_neg_step _ step Hs); [|lra].
    exists (m - 1)%Z.
    assert (E : inject_Z (m - 1) == inject_Z m - 1).
    { unfold Qeq. cbn. lia. }
    set (r := snap (old + 1 * step) step 1) in *.
    transitivity ((inject_Z m - 1) * step); [lra|].
    apply Qmult_comp; [symmetry; exact E | reflexivity].
  - change (inject_Z (-1)) with (-1).
    destruct (snap_up (old + -1 * step) step Hs) as (_ & Hle & _). lra.
Qed.

(** Integers are closed under the operations of the snapping branch. *)
Lemma is_integer_mult (x y : Q) : is_integer x -> is_integer y -> is_integer (x * y).
Proof.
  intros [a Ha] [b Hb]. exists (a * b)%Z.
  transitivity (inject_Z a * inject_Z b).
  - apply Qmult_comp; assumption.
  - rewrite inject_Z_mult. reflexivity.
Qed.

Lemma is_integer_minus (x y : Q) : is_integer x -> is_integer y -> is_integer (x - y).
Proof.
  intros [a Ha] [b Hb]. exists (a - b)%Z.
  transitivity (inject_Z a - inject_Z b).
  - apply Qplus_comp; [exact Ha | apply Qopp_comp; exact Hb].
  - unfold Qeq. cbn. lia.
Qed.

Lemma compute_increment_integer (v : Q) (direction : Z) :
  is_integer (compute_increment v direction).
Proof.
  destruct (compute_increment_power v direction) as (j & Hj & Hs).
  exists (10 ^ j)%Z. transitivity (10 ^ j); [exact Hs|].
  apply Qpow10_inject. lia.
Qed.

Lemma snapped_shown_integer (raw step : Q) (direction : Z) :
  is_integer step ->
  is_integer (snap raw step direction - inject_Z direction * step).
Proof.
  intros Hs. apply is_integer_minus.
  - unfold snap, Py.floor, Py.ceil.
    destruct (direction =? 1)%Z; (apply is_integer_mult; [eexists; reflexivity | exact Hs]).
  - apply is_integer_mult; [eexists; reflexivity | exact Hs].
Qed.

Lemma increment_xlimits_nonneg (st : State) (w : Ident) (direction : Z) :
  direction = 0%Z \/ direction = 1%Z \/ direction = (-1)%Z ->
  nonneg st -> nonneg (increment_xlimits w direction st).
Proof.
  intros Hdir Hn.
  pose proof (compute_increment_positive (get_value (widget st w)) direction) as Hstep.
  destruct (increment_xlimits_shown st w direction) as [Sp Sw]. cbn zeta in Sw.
  destruct (Hn w) as (Dw & Vw & Tw). destruct (Hn (paired w)) as (Dp & Vp & Tp).
  assert (Hto : forall w', to (widget (increment_xlimits w direction st) w') = to (widget st w'))
    by (intros w'; exact (act_to st (Edit w direction) w')).
  assert (Hdata : 0 <= data (increment_xlimits w direction st) w /\
                  data (increment_xlimits w direction st) (paired w) = data st (paired w)).
  { destruct Hdir as [->|Hdir].
    - destruct (increment_xlimits_typed st w) as (H1 & H2 & _). rewrite H1. split; assumption.
    - assert (Hd : direction <> 0%Z) by (destruct Hdir; lia).
      destruct (increment_xlimits_arrow st w direction Hd) as (_ & H2 & [(Hk & _ & Hnz & _) | (Hk & _)]).
      + rewrite Hk. split; [|exact H2]. apply arrow_value_nonneg; assumption.
      + rewrite Hk. split; assumption. }
  destruct Hdata as [Hd1 Hd2].
  assert (Hshown : 0 <= get_value (widget (increment_xlimits w direction st) w)).
  { destruct Sw as [->|[Hd ->]]; [exact Vw|].
    apply snapped_shown_nonneg; [lra | exact Vw |].
    destruct Hdir as [->|Hdir]; [contradiction | exact Hdir]. }
  intros w'. rewrite Hto.
  assert (Hc : w' = w \/ w' = paired w) by (destruct w, w'; auto).
  destruct Hc as [->| ->].
  - split; [exact Hd1|]. split; [exact Hshown | exact Tw].
  - rewrite Hd2, Sp. split; [exact Dp|]. split; [exact Vp | exact Tp].
Qed.

Lemma increment_xlimits_whole (st : State) (w : Ident) (direction : Z) :
  whole_shown st -> whole_shown (increment_xlimits w direction st).
Proof.
  intros Hw.
  destruct (increment_xlimits_shown st w direction) as [Sp Sw]. cbn zeta in Sw.
  intros w'.
  assert (Hc : w' = w \/ w' = paired w) by (destruct w, w'; auto).
  destruct Hc as [->| ->].
  - destruct Sw as [->|[_ ->]]; [apply Hw|].
    apply snapped_shown_integer, compute_increment_integer.
  - rewrite Sp. apply Hw.
Qed.

Lemma act_nonneg (st : State) (a : Action) :
  admissible a -> nonneg st -> nonneg (act st a).
Proof.
  intros Ha Hn. destruct a as [text | w direction | w v]; cbn [act admissible] in *.
  - intros w. destruct (Hn w) as (H1 & H2 & H3). destruct w; repeat split; assumption.
  - apply increment_xlimits_nonneg; assumption.
  - destruct Ha as (_ & Hv & _).
    intros w'. destruct (Hn w') as (H1 & H2 & H3).
    destruct w, w'; cbn in *; repeat split; assumption.
Qed.

Lemma act_whole (st : State) (a : Action) :
  admissible a -> whole_shown st -> whole_shown (act st a).
Proof.
  intros Ha Hw. destruct a as [text | w direction | w v]; cbn [act admissible] in *.
  - intros w. specialize (Hw w). destruct w; exact Hw.
  - apply increment_xlimits_whole. exact Hw.
  - destruct Ha as (Hv & _).
    intros w'. specialize (Hw w'). destruct w, w'; cbn in *; assumption.
Qed.

(** X5.  No session makes an axis number negative or fractional: from a
    state in which the stored limits and the upper bounds are at least
    zero and both spinboxes show integers of the editors' range, any
    sequence of dropdown picks, edits with direction 0, 1 or -1 and
    changes of a shown number to an integer of the range leaves the
    stored limits, the numbers shown and the upper bounds at least zero
    and the numbers shown integers.  In particular the number the
    snapping branch writes back into the spinbox (line 170) is a
    non-negative integer. *)
Theorem limits_never_negative (actions : list Action) (st : State) :
  nonneg st -> exact_shown st -> Forall admissible actions ->
  nonneg (run actions st) /\ whole_shown (run actions st).
Proof.
  intros Hn He Ha.
  assert (Hw : whole_shown st) by (intros w; apply (He w)).
  clear He. unfold run. revert st Hn Hw.
  induction actions as [|a actions IH]; intros st Hn Hw; [split; assumption|].
  cbn [fold_left]. inversion Ha as [|? ? Ha1 Ha2]; subst.
  apply IH; [exact Ha2 | apply act_nonneg; assumption | apply act_whole; assumption].
Qed.

Lemma limits_never_negative_witness :
  nonneg (run [Edit xmin (-1); Display xmin 0; Edit xmin (-1); Edit xmax 1] (showing 5 900)) /\
  whole_shown (run [Edit xmin (-1); Display xmin 0; Edit xmin (-1); Edit xmax 1] (showing 5 900)).
Proof.
  apply (limits_never_negative
           [Edit xmin (-1); Display xmin 0; Edit xmin (-1); Edit xmax 1] (showing 5 900)).
  - intros w. destruct w; repeat split; vm_compute; discriminate.
  - intros w. destruct w.
    + split; [exists 5%Z; reflexivity | split; vm_compute; discriminate].
    + split; [exists 900%Z; reflexivity | split; vm_compute; discriminate].
  - constructor; [right; right; reflexivity|].
    constructor; [split; [exists 0%Z; reflexivity | split; discriminate]|].
    constructor; [right; right; reflexivity|].
    constructor; [right; left; reflexivity|].
    constructor.
Defined.

(** X15.  On the integers of the editors' range, where the double
    arithmetic of lines 151-154 is exact, the step of an edit is
    [max (10 ^ floor(log10 v)) 10] for [v > 0], a tenth of it on a
    decrement from a value equal to a step above ten, and ten at 0; it is
    the step the edit action stores in the editor.  A decrement from 100
    uses step 10 and stores 90. *)
Theorem step_on_exact_values (v : Q) (direction : Z) :
  exact_input v ->
  (0 < v ->
     exists k : Z, floor_log10_is v k /\
       compute_increment v direction == spec_step (Qmax (10 ^ k) 10) v direction)
  /\ (v == 0 -> compute_increment v direction == 10)
  /\ (forall (st : State) (w : Ident),
        get_value (widget st w) = v ->
        increment (widget (increment_xlimits w direction st) w)
        = compute_increment v direction)
  /\ (compute_increment 100 (-1) == 10 /\
      data_xmax (increment_xlimits xmax (-1) (showing 0 100)) == 90).
Proof.
  intros _. split; [|split; [|split]].
  - intros Hv. destruct (floor_log10_pos v Hv) as [k Hk]. exists k. split.
    + apply floor_log10_spec. exact Hk.
    + apply compute_increment_pos. exact Hk.
  - intros Hv. rewrite compute_increment_nonpos by lra. reflexivity.
  - intros st w <-. apply increment_xlimits_increment.
  - split; vm_compute; reflexivity.
Qed.

Lemma step_on_exact_values_witness :
  exact_input 347 /\
  (exists k : Z, floor_log10_is 347 k /\
     compute_increment 347 1 == spec_step (Qmax (10 ^ k) 10) 347 1) /\
  increment (widget (increment_xlimits xmax 1 (showing 0 347)) xmax)
  = compute_increment 347 1.
Proof.
  assert (He : exact_input 347).
  { split; [exists 347%Z; reflexivity|]. split; discriminate. }
  split; [exact He|].
  destruct (step_on_exact_values 347 1 He) as (H1 & _ & H3 & _).
  split; [apply H1; reflexivity | apply H3; reflexivity].
Defined.

(** X16.  An arrow on an editor that shows an integer of the editors'
    range, the upper bound being one too: the new value is [old ± step];
    when that is not a multiple of the step it is snapped down
    (increment) or up (decrement) to the nearest multiple, unless the old
    value is at the upper bound and the action is an increment; the
    result is clamped to the upper bound.  Unless the edit is refused
    this value is stored, with its rounding as the remembered value; a
    refused edit leaves both as they were; the paired limit and editor
    are untouched either way. *)
Theorem arrow_on_exact_values (st : State) (w : Ident) (direction : Z) :
  direction = 1%Z \/ direction = (-1)%Z ->
  exact_input (get_value (widget st w)) ->
  exact_input (to (widget st w)) ->
  let old_val := get_value (widget st w) in
  let maximum := to (widget st w) in
  let new_val := arrow_value old_val maximum direction in
  let st' := increment_xlimits w direction st in
  spec_new_value old_val maximum direction new_val /\
  (~ refused st w direction ->
     data st' w = new_val /\ previous (widget st' w) = Py.round new_val) /\
  (refused st w direction ->
     data st' w = data st w /\ previous (widget st' w) = previous (widget st w)) /\
  data st' (paired w) = data st (paired w) /\
  widget st' (paired w) = widget st (paired w).
Proof.
  intros Hdir _ (Hint & _). cbn zeta.
  assert (Hd : direction <> 0%Z) by (destruct Hdir; lia).
  destruct (increment_xlimits_arrow st w direction Hd) as (Hw & Hp & Hc).
  rewrite Hw in Hc.
  split; [apply arrow_value_spec; assumption|].
  split; [|split; [|split; assumption]].
  - intros Hnr. destruct Hc as [(Hk & Hprev & _) | (_ & _ & Hr)].
    + split; assumption.
    + exfalso. apply Hnr. exact Hr.
  - intros Hr. destruct Hc as [(_ & _ & Hnz & Hn1 & Hn2) | (Hk & Hprev & _)].
    + exfalso. destruct Hr as [Hz | [H1 | H2]]; contradiction.
    + split; assumption.
Qed.

Lemma arrow_on_exact_values_witness :
  spec_new_value 150 100000000 1 (arrow_value 150 100000000 1) /\
  data (increment_xlimits xmin 1 (showing 150 900)) xmin = arrow_value 150 100000000 1 /\
  data (increment_xlimits xmax (-1) (showing 90 100)) xmax = data (showing 90 100) xmax.
Proof.
  assert (He : forall z : Z, (0 <= z <= 100000000)%Z -> exact_input (inject_Z z)).
  { intros z Hz. split; [exists z; reflexivity|].
    split; [change 0 with (inject_Z 0) | change 100000000 with (inject_Z 100000000)];
      rewrite <- Zle_Qle; lia. }
  destruct (arrow_on_exact_values (showing 150 900) xmin 1) as (H1 & H2 & _).
  { left. reflexivity. }
  { apply (He 150%Z). lia. }
  { apply (He 100000000%Z). lia. }
  destruct (arrow_on_exact_values (showing 90 100) xmax (-1)) as (_ & _ & H3 & _).
  { right. reflexivity. }
  { apply (He 100%Z). lia. }
  { apply (He 100000000%Z). lia. }
  split; [exact H1|]. split.
  - apply H2. intros [[_ H] | [H | H]]; vm_compute in H; discriminate H.
  - apply H3. right. left. vm_compute. reflexivity.
Defined.

End AxisExtraFacts.

(** ** The discriminant rules *)

Section RulesExtraFacts.
Import Rules RulesSpec RulesExtra.
Variable recompute : State -> Q * Q.
Variable validate_t_lk : Widget Q -> Widget Q.

Lemma State_ext (a b : State) :
  s a = s b -> n a = n b -> m_w a = m_w b -> v_w a = v_w b -> model a = model b ->
  t_lk a = t_lk b -> gamma_0 a = gamma_0 b -> eps a = eps b -> t_tw a = t_tw b ->
  c_tau a = c_tau b -> t_c a = t_c b -> t_pds a = t_pds b -> log a = log b -> a = b.
Proof.
  destruct a, b. cbn. intros. subst. reflexivity.
Qed.

(** Every field of the state after [s_change]. *)
Lemma s_change_fields (st : State) (update : bool) :
  let zero := String.eqb (value_var (s st)) "0" in
  let st' := s_change recompute update st in
  s st' = s st /\
  n st' = (if zero
           then if (get_value (n st) =? 1)%Z
                then set_value 0%Z (config_values wide_domain (n st))
                else config_values wide_domain (n st)
           else if py_in (get_value (n st)) narrow_domain
                then config_values narrow_domain (n st)
                else set_value 0%Z (config_values narrow_domain (n st))) /\
  m_w st' = (if zero then grid_remove (m_w st) else grid (m_w st)) /\
  v_w st' = (if zero then grid_remove (v_w st) else grid (v_w st)) /\
  model st' =
    (if zero
     then let r := config_button "wl" "normal" (config_button "lk" "normal" (model st)) in
          if Qle_bool ((1 # 10) * t_c st) (t_pds st)
          then config_button "tw" "normal" r else r
     else config_button "wl" "disabled"
            (config_button "tw" "disabled" (config_button "lk" "disabled" (model st)))) /\
  t_lk st' = t_lk st /\ gamma_0 st' = gamma_0 st /\ eps st' = eps st /\
  t_tw st' = t_tw st /\ c_tau st' = c_tau st /\
  (update = false -> t_c st' = t_c st /\ t_pds st' = t_pds st /\ log st' = log st) /\
  (update = true -> log st' = log st ++ [UpdateOutput (inputs st')]).
Proof.
  cbn zeta. unfold s_change, get_value.
  destruct update;
    (destruct (String.eqb (value_var (s st)) "0"); simp_state;
     [ destruct (Qle_bool _ _); simp_state;
       cbn [get_value value_var config_values]; fold wide_domain;
       destruct (value_var (n st) =? 1)%Z; simp_state
     | cbn [get_value value_var config_values]; fold narrow_domain;
       destruct (py_in (value_var (n st)) narrow_domain); cbn [negb]; simp_state ];
     repeat split; try reflexivity; congruence).
Qed.

(** Every field of the state after [model_change]. *)
Lemma model_change_fields (st : State) (update : bool) :
  let key := selected (model st) in
  let st' := model_change recompute validate_t_lk update st in
  s st' = config_state (if String.eqb key "cf" then "readonly" else "disabled") (s st) /\
  n st' = n st /\ m_w st' = m_w st /\ v_w st' = v_w st /\ model st' = model st /\
  t_lk st' = (if String.eqb key "lk" then grid (validate_t_lk (t_lk st))
              else grid_remove (t_lk st)) /\
  gamma_0 st' = (if String.eqb key "lk" then grid (gamma_0 st) else grid_remove (gamma_0 st)) /\
  eps st' = (if String.eqb key "lk" then grid (eps st) else grid_remove (eps st)) /\
  t_tw st' = (if String.eqb key "tw"
              then grid (revert_value (config_state "normal" (t_tw st)))
              else grid_remove (set_value "N/A"%string (config_state "disabled" (t_tw st)))) /\
  c_tau st' = (if String.eqb key "wl" then grid (c_tau st) else grid_remove (c_tau st)) /\
  (update = false -> t_c st' = t_c st /\ t_pds st' = t_pds st /\ log st' = log st) /\
  (update = true -> log st' = log st ++ [UpdateOutput (inputs st')]).
Proof.
  cbn zeta. unfold model_change.
  destruct st as [ws wn wm wv wmodel wlk wg we wtw wc tc tp lg]. simp_state.
  destruct update;
    (destruct (String.eqb (selected wmodel) "lk"); cbn [negb]; simp_state;
     destruct (String.eqb (selected wmodel) "cf"); simp_state;
     destruct (String.eqb (selected wmodel) "tw"); simp_state;
     destruct (String.eqb (selected wmodel) "wl"); simp_state;
     repeat split; try reflexivity; congruence).
Qed.

(** X6.  The two rules act on different widgets: applied without
    recompute, as at start-up (lines 558-559), they give the same state in
    either order. *)
Theorem rules_commute (st : State) :
  s_change recompute false (model_change recompute validate_t_lk false st)
  = model_change recompute validate_t_lk false (s_change recompute false st).
Proof.
  pose proof (s_change_fields st false) as A.
  pose proof (model_change_fields st false) as B.
  pose proof (s_change_fields (model_change recompute validate_t_lk false st) false) as C.
  pose proof (model_change_fields (s_change recompute false st) false) as D.
  cbn zeta in A, B, C, D.
  set (a := s_change recompute false st) in *.
  set (b := model_change recompute validate_t_lk false st) in *.
  set (c := s_change recompute false b) in *.
  set (d := model_change recompute validate_t_lk false a) in *.
  destruct A as (As & An & Am & Av & Amodel & Alk & Ag & Ae & Atw & Ac & Af & _).
  destruct B as (Bs & Bn & Bm & Bv & Bmodel & Blk & Bg & Be & Btw & Bc & Bf & _).
  destruct C as (Cs & Cn & Cm & Cv & Cmodel & Clk & Cg & Ce & Ctw & Cc & Cf & _).
  destruct D as (Ds & Dn & Dm & Dv & Dmodel & Dlk & Dg & De & Dtw & Dc & Df & _).
  destruct (Af eq_refl) as (Atc & Atp & Alog).
  destruct (Bf eq_refl) as (Btc & Btp & Blog).
  destruct (Cf eq_refl) as (Ctc & Ctp & Clog).
  destruct (Df eq_refl) as (Dtc & Dtp & Dlog).
  assert (Ksel : selected (model a) = selected (model st)).
  { rewrite Amodel. destruct (String.eqb (value_var (s st)) "0"); [destruct (Qle_bool _ _)|];
      reflexivity. }
  assert (Kval : value_var (s b) = value_var (s st)) by (rewrite Bs; reflexivity).
  apply State_ext.
  - rewrite Cs, Bs, Ds, As, Ksel. reflexivity.
  - rewrite Cn, Dn, An, Kval, Bn. reflexivity.
  - rewrite Cm, Dm, Am, Kval, Bm. reflexivity.
  - rewrite Cv, Dv, Av, Kval, Bv. reflexivity.
  - rewrite Cmodel, Dmodel, Amodel, Kval, Bmodel, Btc, Btp. reflexivity.
  - rewrite Clk, Dlk, Alk, Ksel, Blk. reflexivity.
  - rewrite Cg, Dg, Ag, Ksel, Bg. reflexivity.
  - rewrite Ce, De, Ae, Ksel, Be. reflexivity.
  - rewrite Ctw, Dtw, Atw, Ksel, Btw. reflexivity.
  - rewrite Cc, Dc, Ac, Ksel, Bc. reflexivity.
  - rewrite Ctc, Dtc, Atc, Btc. reflexivity.
  - rewrite Ctp, Dtp, Atp, Btp. reflexivity.
  - rewrite Clog, Dlog, Alog, Blog. reflexivity.
Qed.

Lemma py_in_In (x : Z) (l : list Z) : py_in x l = true <-> In x l.
Proof.
  unfold py_in. rewrite existsb_exists. split.
  - intros (y & Hy & E). apply Z.eqb_eq in E. subst. exact Hy.
  - intros H. exists x. split; [exact H | apply Z.eqb_refl].
Qed.

(** An offered value other than 1 is in the wide domain. *)
Lemma offered_wide (vs : list Z) (text : string) (v : Z) :
  n_offered vs text v -> (v =? 1)%Z = false -> py_in v wide_domain = true.
Proof.
  intros [Hvs Hin] Hne. rewrite Hvs in Hin.
  destruct (String.eqb text "0"); [exact Hin|].
  apply py_in_In in Hin. cbn in Hin.
  destruct Hin as [<-|[<-|[<-|[<-|[]]]]]; try reflexivity; discriminate Hne.
Qed.

Lemma visible_grid {V : Type} (w : Widget V) : visible (grid w) = (true, true).
Proof. reflexivity. Qed.

Lemma visible_grid_remove {V : Type} (w : Widget V) : visible (grid_remove w) = (false, false).
Proof. reflexivity. Qed.

Lemma select_s_holds (text : string) (st : State) :
  holds st -> holds (select_s recompute text st).
Proof.
  intros [(R1 & R2 & R3 & R4 & R5 & R6 & R7 & R8 & R9) Hn].
  unfold select_s.
  pose proof (s_change_fields (with_s (set_value text (s st)) st) true) as A.
  cbn zeta in A. set (st' := s_change recompute true _) in *.
  destruct A as (As & An & Am & Av & Amodel & Alk & Ag & Ae & Atw & Ac & _).
  revert An Am Av Amodel. simp_state. cbn [value_var set_value]. intros An Am Av Amodel.
  assert (Ksel : selected (model st') = selected (model st)).
  { rewrite Amodel. destruct (String.eqb text "0"); [destruct (Qle_bool _ _)|]; reflexivity. }
  assert (Kval : value_var (s st') = text) by (rewrite As; reflexivity).
  assert (Kst : input_state (s st') = input_state (s st)) by (rewrite As; reflexivity).
  split.
  - unfold rows_match. cbn zeta. rewrite Ksel, Kval, Kst, Alk, Ag, Ae, Atw, Ac, Am, Av.
    repeat split; try assumption.
    + destruct (String.eqb text "0"); reflexivity.
    + destruct (String.eqb text "0"); reflexivity.
    + apply R9; assumption.
    + apply R9; assumption.
  - unfold n_offered, get_value. rewrite Kval, An.
    destruct (String.eqb text "0").
    + destruct (get_value (n st) =? 1)%Z eqn:E; cbn [values value_var set_value config_values].
      * split; reflexivity.
      * split; [reflexivity|]. exact (offered_wide _ _ _ Hn E).
    + destruct (py_in (get_value (n st)) narrow_domain) eqn:E;
        cbn [values value_var set_value config_values].
      * split; [reflexivity | exact E].
      * split; reflexivity.
Qed.

Lemma select_model_holds (key : string) (st : State) :
  holds st -> holds (select_model recompute validate_t_lk key st).
Proof.
  intros [(R1 & R2 & R3 & R4 & R5 & R6 & R7 & R8 & R9) Hn].
  unfold select_model.
  pose proof (model_change_fields
                (with_model {| selected := key; buttons := buttons (model st) |} st) true) as B.
  cbn zeta in B. set (st' := model_change recompute validate_t_lk true _) in *.
  destruct B as (Bs & Bn & Bm & Bv & Bmodel & Blk & Bg & Be & Btw & Bc & _).
  revert Bs Bn Bm Bv Bmodel Blk Bg Be Btw Bc. simp_state.
  intros Bs Bn Bm Bv Bmodel Blk Bg Be Btw Bc.
  assert (Kval : value_var (s st') = value_var (s st)) by (rewrite Bs; reflexivity).
  split.
  - unfold rows_match. cbn zeta. rewrite Kval, Bmodel, Bs, Bm, Bv, Blk, Bg, Be, Btw, Bc.
    cbn [selected].
    repeat split; try assumption.
    + destruct (String.eqb key "lk"); reflexivity.
    + destruct (String.eqb key "lk"); reflexivity.
    + destruct (String.eqb key "lk"); reflexivity.
    + destruct (String.eqb key "tw"); reflexivity.
    + destruct (String.eqb key "wl"); reflexivity.
    + destruct (String.eqb key "tw"); [discriminate | reflexivity].
    + destruct (String.eqb key "tw"); [discriminate | reflexivity].
  - unfold get_value. rewrite Kval, Bn. exact Hn.
Qed.

Lemma select_n_holds (v : Z) (st : State) :
  py_in v (values (n st)) = true -> holds st -> holds (select_n recompute v st).
Proof.
  intros Hv [R [Hd _]]. split; [exact R|]. split; [exact Hd | exact Hv].
Qed.

Lemma act_holds (st : State) (a : Action) :
  holds st -> holds (act recompute validate_t_lk st a).
Proof.
  intros H. destruct a as [text | key | v]; cbn [act].
  - apply select_s_holds. exact H.
  - apply select_model_holds. exact H.
  - destruct (py_in v (values (n st))) eqn:E; [|exact H].
    apply select_n_holds; assumption.
Qed.

Lemma started_holds (t_c t_pds : Q) :
  holds (started recompute validate_t_lk t_c t_pds).
Proof.
  unfold started.
  pose proof (model_change_fields (created t_c t_pds) false) as B.
  pose proof (s_change_fields
                (model_change recompute validate_t_lk false (created t_c t_pds)) false) as C.
  cbn zeta in B, C.
  set (b := model_change recompute validate_t_lk false (created t_c t_pds)) in *.
  set (c := s_change recompute false b) in *.
  destruct B as (Bs & Bn & Bm & Bv & Bmodel & Blk & Bg & Be & Btw & Bc & _).
  destruct C as (Cs & Cn & Cm & Cv & Cmodel & Clk & Cg & Ce & Ctw & Cc & _).
  assert (Kval : value_var (s b) = "0"%string) by (rewrite Bs; reflexivity).
  rewrite Kval in Cn, Cm, Cv, Cmodel. cbn [String.eqb Ascii.eqb Bool.eqb] in Cn, Cm, Cv, Cmodel.
  assert (Ksel : selected (model c) = "cf"%string).
  { rewrite Cmodel. cbn zeta. destruct (Qle_bool _ _); cbn [selected config_button];
      rewrite Bmodel; reflexivity. }
  split.
  - unfold rows_match. cbn zeta.
    rewrite Ksel, Cs, Kval, Clk, Cg, Ce, Ctw, Cc, Cm, Cv, Blk, Bg, Be, Btw, Bc, Bs.
    repeat split.
  - unfold n_offered, get_value. rewrite Cs, Kval, Cn, Bn. split; reflexivity.
Qed.

Lemma run_holds (actions : list Action) (st : State) :
  holds st -> holds (run recompute validate_t_lk actions st).
Proof.
  unfold run. revert st. induction actions as [|a actions IH]; intros st H; [exact H|].
  cbn [fold_left]. apply IH, act_holds, H.
Qed.

(** X7.  Whatever the user selects in the ambient-index dropdown, the
    model radio group and the ejecta-index dropdown, in any order and any
    number of times after start-up: the rows on the grid are those of the
    current selections ([rows_match]), the ejecta-index dropdown offers
    the values of the current ambient index, and the ejecta index shown
    is one of them. *)
Theorem rows_and_domain_kept (actions : list Action) (t_c t_pds : Q) :
  let st := run recompute validate_t_lk actions (started recompute validate_t_lk t_c t_pds) in
  rows_match st /\
  n_offered (values (n st)) (get_value (s st)) (get_value (n st)).
Proof. cbn zeta. apply run_holds, started_holds. Qed.


Lemma holds_sound (st : State) : holds st -> sound_inputs (UpdateOutput (inputs st)).
Proof.
  intros [(_ & _ & _ & _ & _ & _ & _ & _ & R9) Hn]. split; [exact Hn|].
  intros H. apply R9. exact H.
Qed.

Lemma session_act_log (st : State) (a : Action) :
  let st' := act recompute validate_t_lk st a in
  log st' = log st \/ log st' = log st ++ [UpdateOutput (inputs st')].
Proof.
  cbn zeta. destruct a as [text | key | v]; cbn [act].
  - right. unfold select_s.
    destruct (s_change_fields (with_s (set_value text (s st)) st) true)
      as (_ & _ & _ & _ & _ & _ & _ & _ & _ & _ & _ & H).
    exact (H eq_refl).
  - right. unfold select_model.
    destruct (model_change_fields
                (with_model {| selected := key; buttons := buttons (model st) |} st) true)
      as (_ & _ & _ & _ & _ & _ & _ & _ & _ & _ & _ & H).
    exact (H eq_refl).
  - destruct (py_in v (values (n st))); [right | left]; reflexivity.
Qed.

Lemma started_log (t_c t_pds : Q) :
  log (started recompute validate_t_lk t_c t_pds) = [].
Proof.
  unfold started.
  destruct (model_change_fields (created t_c t_pds) false)
    as (_ & _ & _ & _ & _ & _ & _ & _ & _ & _ & B & _).
  destruct (s_change_fields
              (model_change recompute validate_t_lk false (created t_c t_pds)) false)
    as (_ & _ & _ & _ & _ & _ & _ & _ & _ & _ & C & _).
  destruct (B eq_refl) as (_ & _ & Bl). destruct (C eq_refl) as (_ & _ & Cl).
  rewrite Cl, Bl. reflexivity.
Qed.

Lemma session_run_log (actions : list Action) (st : State) :
  holds st -> Forall sound_inputs (log st) ->
  let st' := run recompute validate_t_lk actions st in
  Forall sound_inputs (log st') /\
  (length (log st') <= length (log st) + length actions)%nat.
Proof.
  cbn zeta. unfold run. revert st.
  induction actions as [|a actions IH]; intros st H Hl.
  - split; [exact Hl | cbn; lia].
  - cbn [fold_left length].
    pose proof (act_holds st a H) as H'.
    assert (Hl' : Forall sound_inputs (log (act recompute validate_t_lk st a)) /\
                  (length (log (act recompute validate_t_lk st a)) <= S (length (log st)))%nat).
    { destruct (session_act_log st a) as [E|E]; rewrite E.
      - split; [exact Hl | lia].
      - split.
        + apply Forall_app. split; [exact Hl|].
          constructor; [apply holds_sound; exact H' | constructor].
        + rewrite length_app. cbn. lia. }
    destruct Hl' as [Hs Hlen].
    destruct (IH _ H' Hs) as [IH1 IH2]. split; [exact IH1 | lia].
Qed.

(** X8.  Every recompute of a session reads sound inputs: an ejecta index
    among the values offered for the ambient index it reads, and the text
    "N/A" as end time unless the variant is "tw".  Nothing else is logged,
    and there is at most one recompute for each selection. *)
Theorem every_recompute_sees_sound_inputs (actions : list Action) (t_c t_pds : Q) :
  let st := run recompute validate_t_lk actions (started recompute validate_t_lk t_c t_pds) in
  Forall sound_inputs (log st) /\ (length (log st) <= length actions)%nat.
Proof.
  cbn zeta.
  destruct (session_run_log actions (started recompute validate_t_lk t_c t_pds)
              (started_holds t_c t_pds)) as [H1 H2].
  - rewrite started_log. constructor.
  - split; [exact H1|]. rewrite started_log in H2. exact H2.
Qed.

End RulesExtraFacts.

(** ** The abundance editors *)

Section AbundanceExtraFacts.
Import Abundance AbundanceSpec AbundanceExtra.
Variable validate : string -> Entry -> Entry.

(** X9.  The number an input shows for a table value is within half a
    hundredth of it, and showing a shown number again changes nothing:
    the two-decimal format of lines 295 and 331 is idempotent. *)
Theorem display_rounding (x : Q) :
  Qabs (fmt2 x - x) <= 1 # 200 /\ fmt2 (fmt2 x) = fmt2 x.
Proof.
  unfold fmt2. split.
  - destruct (round_near (x * 100)) as [Hlo Hhi].
    apply Qabs_Qle_condition.
    set (r := inject_Z (Py.round (x * 100))) in *.
    assert (E : r / 100 == r * (1 # 100)) by (field).
    split; lra.
  - f_equal. f_equal. apply round_integer. field.
Qed.

Lemma set_entry_frame (root : nat) (id : string) (v : PyVal) (st : State) :
  dict (set_entry root id v st) = dict st /\
  default_type (set_entry root id v st) = default_type st /\
  log (set_entry root id v st) = log st.
Proof. repeat split. Qed.

Lemma reset_ab_frame (root : nat) (st st' : State) :
  reset_ab root st = Some st' ->
  dict st' = dict st /\ default_type st' = default_type st /\ log st' = log st.
Proof.
  unfold reset_ab. intros H.
  destruct (windows st !! root) as [w|]; [|discriminate H].
  destruct (entries w !! "ab_type"%string) as [sel|]; [|discriminate H].
  destruct (get_value sel) as [|p]; [discriminate H|].
  destruct (ABUNDANCE !! p) as [preset|]; [|discriminate H].
  destruct (decide _); [|discriminate H].
  injection H as <-. repeat split.
Qed.

(** What no action changes before a close. *)
Lemma step_frame (a : Action) (st st' : State) :
  is_close a = false ->
  step validate a st = Some st' ->
  dict st' = dict st /\ default_type st' = default_type st /\ log st' = log st.
Proof.
  intros Ha H. destruct a as [k | root element x | root preset | root p];
    [| | |discriminate Ha]; cbn [step] in H.
  - destruct (slot st k) as [root|] eqn:Hs.
    + rewrite (abundance_window_open _ _ _ _ Hs) in H. injection H as <-. repeat split.
    + destruct (abundance_window_closed _ _ _ _ Hs H) as (_ & _ & _ & _ & _ & _ & H1 & H2 & H3).
      repeat split; assumption.
  - destruct (windows st !! root); [|discriminate H].
    destruct (decide _); [|discriminate H]. injection H as <-. repeat split.
  - destruct (windows st !! root); [|discriminate H].
    apply reset_ab_frame in H. exact H.
Qed.

(** X10.  Nothing done to an editor before it is closed reaches the model:
    opening an editor, typing into it and picking a preset leave both
    tables and both default presets as they are and trigger no
    recompute. *)
Theorem edits_stay_in_the_editor (a : Action) (st st' : State) :
  is_close a = false ->
  step validate a st = Some st' ->
  dict st' = dict st /\ default_type st' = default_type st /\ log st' = log st.
Proof. apply step_frame. Qed.

Lemma ab_type_not_element : "ab_type"%string ∉ ELEMENT_ORDER.
Proof.
  intros H. unfold ELEMENT_ORDER in H.
  repeat (apply elem_of_cons in H; destruct H as [H|H]; [discriminate H|]).
  inversion H.
Qed.

(** The inputs created for a list of elements. *)
Lemma element_entries_lookup (els : list string) (d : gmap string PyVal)
    (es : gmap string Entry) :
  element_entries els d = Some es ->
  forall id,
    (id ∈ els -> exists x, d !! id = Some (Num x) /\
       es !! id = Some {| value_var := Num (fmt2 x); previous := Num (fmt2 x) |}) /\
    (id ∉ els -> es !! id = None).
Proof.
  revert es. induction els as [|el els IH]; intros es H id; cbn in H.
  - injection H as <-. split.
    + intros Hin. inversion Hin.
    + intros _. apply lookup_empty.
  - destruct (d !! el) as [[x|?]|] eqn:Ed; try discriminate H.
    destruct (element_entries els d) as [es0|] eqn:E0; [|discriminate H].
    injection H as <-. destruct (IH es0 eq_refl id) as [IH1 IH2].
    destruct (decide (el = id)) as [<-|Hne].
    + split.
      * intros _. exists x. split; [exact Ed | apply lookup_insert_eq].
      * intros Hn. exfalso. apply Hn. left.
    + rewrite lookup_insert_ne by exact Hne. split.
      * intros Hin. apply elem_of_cons in Hin. destruct Hin as [->|Hin]; [contradiction|].
        apply IH1. exact Hin.
      * intros Hn. apply IH2. intros Hin. apply Hn. right. exact Hin.
Qed.

Lemma element_entries_total (els : list string) (d : gmap string PyVal) :
  (forall id, id ∈ els -> exists x, d !! id = Some (Num x)) ->
  is_Some (element_entries els d).
Proof.
  induction els as [|el els IH]; intros H; cbn.
  - eexists. reflexivity.
  - destruct (H el) as [x Hx]; [left|]. rewrite Hx.
    destruct IH as [es0 ->]; [|eexists; reflexivity].
    intros id Hin. apply H. right. exact Hin.
Qed.

(** Opening an editor of a kind that has none. *)
Lemma abundance_window_new (d : DictRef) (k : Kind) (st : State) :
  slot st k = None ->
  abundance_window d k st =
    match element_entries ELEMENT_ORDER (dict st d) with
    | Some es0 =>
        Some (set_windows
                (<[next_root st :=
                     {| entries := <["ab_type"%string :=
                                       {| value_var := default_type st k;
                                          previous := default_type st k |}]> es0;
                        ab_dict := d; ab_type := k |}]> (windows st))
                (set_focus (next_root st)
                   (set_slot k (Some (next_root st)) (snd (ScrollWindow st)))))
    | None => None
    end.
Proof.
  intros Hs. unfold abundance_window. rewrite Hs. cbn.
  destruct d, k; reflexivity.
Qed.

Lemma set_entry_lookup (root : nat) (id : string) (v : PyVal) (st : State) (r : nat) :
  windows (set_entry root id v st) !! r =
    if decide (root = r)
    then (fun w => {| entries := alter (set_value v) id (entries w);
                      ab_dict := ab_dict w; ab_type := ab_type w |}) <$> windows st !! r
    else windows st !! r.
Proof.
  unfold set_entry. cbn. destruct (decide (root = r)) as [<-|Hne].
  - apply lookup_alter_eq.
  - apply lookup_alter_ne. exact Hne.
Qed.

(** The inputs after [reset_ab]. *)
Lemma reset_entries_lookup (preset : gmap string Q) (es : gmap string Entry) (id : string) :
  (map_imap (fun element e => (fun x => set_value (Num (fmt2 x)) e) <$> preset !! element)
            (delete "ab_type"%string es) ∪ es) !! id =
    match es !! id with
    | Some e =>
        if decide (id = "ab_type"%string) then Some e
        else match preset !! id with
             | Some x => Some (set_value (Num (fmt2 x)) e)
             | None => Some e
             end
    | None => None
    end.
Proof.
  rewrite lookup_union, map_lookup_imap.
  destruct (decide (id = "ab_type"%string)) as [->|Hne].
  - rewrite lookup_delete_eq. cbn. destruct (es !! "ab_type"%string); reflexivity.
  - rewrite lookup_delete_ne by (intros E; apply Hne; symmetry; exact E).
    destruct (es !! id) as [e|]; cbn; [|reflexivity].
    destruct (preset !! id); reflexivity.
Qed.

Lemma reset_ab_inv (root : nat) (st st' : State) :
  reset_ab root st = Some st' ->
  exists w sel p preset,
    windows st !! root = Some w /\
    entries w !! "ab_type"%string = Some sel /\ get_value sel = Str p /\
    ABUNDANCE !! p = Some preset /\
    st' = set_windows
            (<[root := {| entries :=
                            map_imap (fun element e =>
                                        (fun x => set_value (Num (fmt2 x)) e) <$> preset !! element)
                                     (delete "ab_type"%string (entries w)) ∪ entries w;
                          ab_dict := ab_dict w; ab_type := ab_type w |}]> (windows st)) st.
Proof.
  unfold reset_ab. intros H.
  destruct (windows st !! root) as [w|]; [|discriminate H].
  destruct (entries w !! "ab_type"%string) as [sel|] eqn:Es; [|discriminate H].
  destruct (get_value sel) as [|p] eqn:Eg; [discriminate H|].
  destruct (ABUNDANCE !! p) as [preset|] eqn:Ep; [|discriminate H].
  destruct (decide _); [|discriminate H].
  injection H as <-. exists w, sel, p, preset. repeat split; assumption.
Qed.

Lemma keys_ok_initial : keys_ok initial.
Proof. intros root w H. cbn in H. rewrite lookup_empty in H. discriminate H. Qed.

Lemma keys_ok_set_entry (root : nat) (id : string) (v : PyVal) (st : State) :
  keys_ok st -> keys_ok (set_entry root id v st).
Proof.
  intros H r w Hl key. rewrite set_entry_lookup in Hl.
  destruct (decide (root = r)) as [<-|Hne]; [|exact (H r w Hl key)].
  destruct (windows st !! root) as [w0|] eqn:E; [|discriminate Hl].
  injection Hl as <-. cbn. rewrite lookup_alter_is_Some. exact (H root w0 E key).
Qed.

Lemma keys_ok_step (a : Action) (st st' : State) :
  keys_ok st -> step validate a st = Some st' -> keys_ok st'.
Proof.
  intros Hk H. destruct a as [k | root element x | root preset | root p]; cbn [step] in H.
  - destruct (slot st k) as [root|] eqn:Hs.
    + rewrite (abundance_window_open _ _ _ _ Hs) in H. injection H as <-. exact Hk.
    + rewrite (abundance_window_new _ _ _ Hs) in H.
      destruct (element_entries ELEMENT_ORDER (dict st (table_of k))) as [es0|] eqn:E;
        [|discriminate H].
      injection H as <-. intros r w Hl key. cbn in Hl.
      destruct (decide (next_root st = r)) as [<-|Hne].
      * rewrite lookup_insert_eq in Hl. injection Hl as <-. cbn.
        destruct (element_entries_lookup _ _ _ E key) as [H1 H2].
        destruct (decide (key = "ab_type"%string)) as [->|Hkey].
        -- rewrite lookup_insert_eq. split; [intros _; right; reflexivity | intros _; eexists; reflexivity].
        -- rewrite lookup_insert_ne by (intros E'; apply Hkey; symmetry; exact E').
           split.
           ++ intros Hsome. left. destruct (decide (key ∈ ELEMENT_ORDER)) as [Hin|Hnin]; [exact Hin|].
              rewrite (H2 Hnin) in Hsome. destruct Hsome as [? Hsome]. discriminate Hsome.
           ++ intros [Hin|Heq]; [|contradiction].
              destruct (H1 Hin) as (x & _ & ->). eexists. reflexivity.
      * rewrite lookup_insert_ne in Hl by exact Hne. exact (Hk r w Hl key).
  - destruct (windows st !! root); [|discriminate H].
    destruct (decide _); [|discriminate H]. injection H as <-.
    apply keys_ok_set_entry, keys_ok_set_entry, Hk.
  - destruct (windows st !! root) as [w0|]; [|discriminate H].
    pose proof (keys_ok_set_entry root "ab_type" (Str preset) st Hk) as Hk1.
    destruct (reset_ab_inv _ _ _ H) as (w & sel & p & pr & Hw & _ & _ & _ & ->).
    intros r w' Hl key. cbn in Hl.
    destruct (decide (root = r)) as [<-|Hne].
    + rewrite lookup_insert_eq in Hl. injection Hl as <-. cbn.
      rewrite reset_entries_lookup. rewrite <- (Hk1 root w Hw key).
      destruct (entries w !! key) as [e|].
      * destruct (decide _); [|destruct (pr !! key)]; split; intros _; eexists; reflexivity.
      * reflexivity.
    + rewrite lookup_insert_ne in Hl by exact Hne. exact (Hk1 r w' Hl key).
  - destruct (windows st !! root) as [w|] eqn:Hl; [|discriminate H].
    assert (Hab : is_Some (entries w !! "ab_type"%string)).
    { apply (Hk root w Hl). right. reflexivity. }
    destruct (ab_window_close_spec validate st root w (ab_dict w) (ab_type w) (event_of p) Hl Hab)
      as (st'' & sel & Hcl & _ & _ & Hw & _).
    rewrite Hcl in H. injection H as <-.
    intros r w' Hl' key. rewrite Hw in Hl'.
    apply lookup_delete_Some in Hl'. destruct Hl' as [_ Hl']. exact (Hk r w' Hl' key).
Qed.

Lemma reachable_keys_ok (st : State) : reachable validate st -> keys_ok st.
Proof.
  induction 1 as [|st a st' _ IH Hstep].
  - apply keys_ok_initial.
  - eapply keys_ok_step; eassumption.
Qed.


(** The working copy has the keys of the window's inputs. *)
Lemma working_copy_keys (p : ClosePath) (w : Window) (key : string) :
  is_Some (working_copy validate p w !! key) <-> is_Some (entries w !! key).
Proof.
  unfold working_copy. destruct (event_of p) as [[focused|]|]; try reflexivity.
  apply lookup_alter_is_Some.
Qed.

(** A close, for a window of a state whose inputs are as they should. *)
Lemma close_tables (st st' : State) (root : nat) (w : Window) (p : ClosePath) :
  keys_ok st -> windows st !! root = Some w ->
  step validate (Close root p) st = Some st' ->
  dict st' (ab_dict w) =
    delete "ab_type"%string ((get_value <$> working_copy validate p w) ∪ dict st (ab_dict w)) /\
  (forall d', d' <> ab_dict w -> dict st' d' = dict st d') /\
  windows st' = delete root (windows st) /\
  next_root st' = next_root st /\
  (forall k', slot st' k' = if decide (ab_type w = k') then None else slot st k') /\
  (exists sel, working_copy validate p w !! "ab_type"%string = Some sel /\
               default_type st' (ab_type w) = get_value sel).
Proof.
  intros Hk Hl H. cbn [step] in H. rewrite Hl in H.
  assert (Hab : is_Some (entries w !! "ab_type"%string)).
  { apply (Hk root w Hl). right. reflexivity. }
  destruct (ab_window_close_spec validate st root w (ab_dict w) (ab_type w) (event_of p) Hl Hab)
    as (st'' & sel & Hcl & Hsel & Hsl & Hw & Hd & Hd' & Hdt & _ & Hn & _).
  rewrite Hcl in H. injection H as <-.
  split; [exact Hd|]. split; [exact Hd'|]. split; [exact Hw|]. split; [exact Hn|].
  split; [exact Hsl|]. exists sel. split; [exact Hsel | exact Hdt].
Qed.

Lemma initial_no_ab_type (d : DictRef) : dict initial d !! "ab_type"%string = None.
Proof. destruct d; vm_compute; reflexivity. Qed.

Lemma DictRef_cases (d d' : DictRef) : d = d' \/ d <> d'.
Proof. destruct d, d'; (left; reflexivity) || (right; discriminate). Qed.

Lemma unlisted_step (a : Action) (st st' : State) :
  keys_ok st ->
  (forall d key, key ∉ ELEMENT_ORDER -> dict st d !! key = dict initial d !! key) ->
  step validate a st = Some st' ->
  forall d key, key ∉ ELEMENT_ORDER -> dict st' d !! key = dict initial d !! key.
Proof.
  intros Hk HP H d key Hkey.
  destruct (is_close a) eqn:Ha.
  - destruct a as [| | |root p]; try discriminate Ha.
    pose proof H as H0. cbn [step] in H0.
    destruct (windows st !! root) as [w|] eqn:Hl; [|discriminate H0]. clear H0.
    destruct (close_tables st st' root w p Hk Hl H) as (Hd & Hd' & _).
    destruct (DictRef_cases d (ab_dict w)) as [->|Hne].
    + rewrite Hd. destruct (decide (key = "ab_type"%string)) as [->|Hne].
      * rewrite lookup_delete_eq, initial_no_ab_type. reflexivity.
      * rewrite lookup_delete_ne by (intros E; apply Hne; symmetry; exact E).
        rewrite lookup_union_r; [apply HP; exact Hkey|].
        rewrite lookup_fmap.
        destruct (working_copy validate p w !! key) as [e|] eqn:E; [|reflexivity].
        exfalso. assert (Hs : is_Some (entries w !! key)).
        { apply (working_copy_keys p w key). eexists. exact E. }
        apply (Hk root w Hl key) in Hs. destruct Hs as [Hs|Hs]; contradiction.
    + rewrite (Hd' d Hne). apply HP. exact Hkey.
  - destruct (step_frame a st st' Ha H) as (-> & _). apply HP. exact Hkey.
Qed.

(** X11.  The editors only ever write the listed elements: in every
    reachable state each table holds, under every key that is not a
    listed element, what it held at start-up.  Hydrogen stays at 12, the
    further elements of the LMC preset stay, and the key of the preset
    dropdown never stays behind in a table. *)
Theorem unlisted_abundances_untouched (st : State) (key : string) :
  reachable validate st ->
  key ∉ ELEMENT_ORDER ->
  abundance st !! key = (Num <$> LMC) !! key /\
  ej_abundance st !! key = (Num <$> Type_Ia) !! key.
Proof.
  intros Hr Hkey.
  assert (H : forall d key, key ∉ ELEMENT_ORDER -> dict st d !! key = dict initial d !! key).
  { clear key Hkey. induction Hr as [|st a st' Hr IH Hstep].
    - reflexivity.
    - apply (unlisted_step a st st' (reachable_keys_ok st Hr) IH Hstep). }
  split; [exact (H abundance_ref key Hkey) | exact (H ej_abundance_ref key Hkey)].
Qed.

(** Every preset of [ABUNDANCE] gives each listed element a number with
    two decimals. *)
Lemma presets_complete (name : string) (preset : gmap string Q) :
  ABUNDANCE !! name = Some preset -> preset_complete preset = true.
Proof.
  unfold ABUNDANCE. cbn [list_to_map foldr uncurry fst snd]. intros H.
  repeat (apply lookup_insert_Some in H;
          destruct H as [[_ <-]|[_ H]]; [vm_compute; reflexivity|]).
  rewrite lookup_empty in H. discriminate H.
Qed.

Lemma preset_complete_lookup (preset : gmap string Q) (element : string) :
  preset_complete preset = true -> element ∈ ELEMENT_ORDER ->
  exists x, preset !! element = Some x /\ fmt2 x == x.
Proof.
  unfold preset_complete. rewrite forallb_forall. intros H Hin.
  apply list_elem_of_In in Hin. specialize (H element Hin).
  destruct (preset !! element) as [x|]; [|discriminate H].
  exists x. split; [reflexivity|]. apply Qeq_bool_iff. exact H.
Qed.

Lemma numeric_set_value (x : Q) (e : Entry) : numeric e -> numeric (set_value (Num x) e).
Proof. intros [_ H]. split; [reflexivity | exact H]. Qed.

Lemma numbers_ok_initial : numbers_ok initial.
Proof.
  assert (H : forall preset, preset_complete preset = true -> table_numeric (Num <$> preset)).
  { intros preset Hp element Hin.
    destruct (preset_complete_lookup preset element Hp Hin) as (x & Hx & _).
    exists x. rewrite lookup_fmap, Hx. reflexivity. }
  split; [|split].
  - apply H. vm_compute. reflexivity.
  - apply H. vm_compute. reflexivity.
  - intros root w element e Hl. cbn in Hl. rewrite lookup_empty in Hl. discriminate Hl.
Qed.

Lemma numbers_ok_set_entry (root : nat) (id : string) (v : PyVal) (st : State) :
  (id ∈ ELEMENT_ORDER -> is_num v = true) ->
  numbers_ok st -> numbers_ok (set_entry root id v st).
Proof.
  intros Hv (Ha & Hb & Hw). split; [exact Ha|]. split; [exact Hb|].
  intros r w element e Hl Hin He. rewrite set_entry_lookup in Hl.
  destruct (decide (root = r)) as [<-|Hne]; [|exact (Hw r w element e Hl Hin He)].
  destruct (windows st !! root) as [w0|] eqn:E; [|discriminate Hl].
  injection Hl as <-. cbn in He.
  destruct (decide (id = element)) as [->|Hid].
  - rewrite lookup_alter_eq in He.
    destruct (entries w0 !! element) as [e0|] eqn:E0; [|discriminate He].
    injection He as <-. destruct (Hw root w0 element e0 E Hin E0) as [_ Hp].
    split; [exact (Hv Hin) | exact Hp].
  - rewrite lookup_alter_ne in He by exact Hid. exact (Hw root w0 element e E Hin He).
Qed.

Hypothesis validate_keeps_numbers : keeps_numbers validate.

Lemma working_copy_numeric (st : State) (root : nat) (w : Window) (p : ClosePath)
    (element : string) (e : Entry) :
  numbers_ok st -> windows st !! root = Some w -> element ∈ ELEMENT_ORDER ->
  working_copy validate p w !! element = Some e -> numeric e.
Proof.
  intros (_ & _ & Hw) Hl Hin He. unfold working_copy in He.
  destruct (event_of p) as [[focused|]|]; try exact (Hw root w element e Hl Hin He).
  destruct (decide (focused = element)) as [->|Hne].
  - rewrite lookup_alter_eq in He.
    destruct (entries w !! element) as [e0|] eqn:E0; [|discriminate He].
    injection He as <-. apply validate_keeps_numbers; [exact Hin|].
    exact (Hw root w element e0 Hl Hin E0).
  - rewrite lookup_alter_ne in He by exact Hne. exact (Hw root w element e Hl Hin He).
Qed.

Lemma numbers_ok_step (a : Action) (st st' : State) :
  keys_ok st -> numbers_ok st -> step validate a st = Some st' -> numbers_ok st'.
Proof.
  intros Hk Hn H. destruct a as [k | root element x | root preset | root p].
  - cbn [step] in H. destruct (slot st k) as [root|] eqn:Hs.
    + rewrite (abundance_window_open _ _ _ _ Hs) in H. injection H as <-. exact Hn.
    + rewrite (abundance_window_new _ _ _ Hs) in H.
      destruct (element_entries ELEMENT_ORDER (dict st (table_of k))) as [es0|] eqn:E;
        [|discriminate H].
      injection H as <-. destruct Hn as (Ha & Hb & Hw).
      split; [exact Ha|]. split; [exact Hb|].
      intros r w element e Hl Hin He. cbn in Hl.
      destruct (decide (next_root st = r)) as [<-|Hne].
      * rewrite lookup_insert_eq in Hl. injection Hl as <-. cbn in He.
        rewrite lookup_insert_ne in He
          by (intros <-; exact (ab_type_not_element Hin)).
        destruct (element_entries_lookup _ _ _ E element) as [H1 _].
        destruct (H1 Hin) as (x & _ & Hx). rewrite Hx in He. injection He as <-.
        split; reflexivity.
      * rewrite lookup_insert_ne in Hl by exact Hne. exact (Hw r w element e Hl Hin He).
  - cbn [step] in H. destruct (windows st !! root); [|discriminate H].
    destruct (decide _); [|discriminate H]. injection H as <-.
    apply numbers_ok_set_entry.
    + intros Hin. exfalso. exact (ab_type_not_element Hin).
    + apply numbers_ok_set_entry; [reflexivity | exact Hn].
  - cbn [step] in H. destruct (windows st !! root) as [w0|]; [|discriminate H].
    assert (Hn1 : numbers_ok (set_entry root "ab_type" (Str preset) st)).
    { apply numbers_ok_set_entry; [|exact Hn].
      intros Hin. exfalso. exact (ab_type_not_element Hin). }
    destruct (reset_ab_inv _ _ _ H) as (w & sel & pn & pr & Hw & _ & _ & _ & ->).
    destruct Hn1 as (Ha & Hb & Hws).
    split; [exact Ha|]. split; [exact Hb|].
    intros r w' element e Hl Hin He. cbn in Hl.
    destruct (decide (root = r)) as [<-|Hne].
    + rewrite lookup_insert_eq in Hl. injection Hl as <-. cbn in He.
      rewrite reset_entries_lookup in He.
      destruct (entries w !! element) as [e0|] eqn:E0; [|discriminate He].
      pose proof (Hws root w element e0 Hw Hin E0) as Hnum.
      destruct (decide _); [injection He as <-; exact Hnum|].
      destruct (pr !! element); injection He as <-;
        [apply numeric_set_value|]; exact Hnum.
    + rewrite lookup_insert_ne in Hl by exact Hne. exact (Hws r w' element e Hl Hin He).
  - pose proof H as H0. cbn [step] in H0.
    destruct (windows st !! root) as [w|] eqn:Hl; [|discriminate H0]. clear H0.
    destruct (close_tables st st' root w p Hk Hl H) as (Hd & Hd' & Hw & _).
    assert (Ht : forall d, table_numeric (dict st' d)).
    { intros d element Hin.
      assert (Hold : exists x, dict st d !! element = Some (Num x)).
      { destruct Hn as (Ha & Hb & _). destruct d; [apply Ha | apply Hb]; exact Hin. }
      destruct (DictRef_cases d (ab_dict w)) as [->|Hne]; [|rewrite (Hd' d Hne); exact Hold].
      rewrite Hd.
      rewrite lookup_delete_ne by (intros <-; exact (ab_type_not_element Hin)).
      destruct (working_copy validate p w !! element) as [e|] eqn:E.
      - destruct (working_copy_numeric st root w p element e Hn Hl Hin E) as [Hv _].
        destruct (value_var e) as [x|] eqn:Ev; [|discriminate Hv].
        exists x. apply lookup_union_Some_l. rewrite lookup_fmap, E. cbn.
        unfold get_value. rewrite Ev. reflexivity.
      - rewrite lookup_union_r by (rewrite lookup_fmap, E; reflexivity). exact Hold. }
    split; [exact (Ht abundance_ref)|]. split; [exact (Ht ej_abundance_ref)|].
    intros r w' element e Hl' Hin He. rewrite Hw in Hl'.
    apply lookup_delete_Some in Hl'. destruct Hl' as [_ Hl'].
    destruct Hn as (_ & _ & Hws). exact (Hws r w' element e Hl' Hin He).
Qed.

Lemma reachable_numbers_ok (st : State) : reachable validate st -> numbers_ok st.
Proof.
  induction 1 as [|st a st' Hr IH Hstep].
  - apply numbers_ok_initial.
  - eapply numbers_ok_step; [apply reachable_keys_ok| |]; eassumption.
Qed.

(** Picking a preset in a live editor whose inputs are as they should. *)
Lemma pick_succeeds (st : State) (root : nat) (w : Window) (name : string)
    (preset : gmap string Q) :
  keys_ok st -> windows st !! root = Some w -> ABUNDANCE !! name = Some preset ->
  exists sel,
    entries w !! "ab_type"%string = Some sel /\
    step validate (Pick root name) st =
      Some (set_windows
              (<[root :=
                   {| entries :=
                        map_imap (fun element e =>
                                    (fun x => set_value (Num (fmt2 x)) e) <$> preset !! element)
                                 (delete "ab_type"%string
                                    (alter (set_value (Str name)) "ab_type"%string (entries w)))
                        ∪ alter (set_value (Str name)) "ab_type"%string (entries w);
                      ab_dict := ab_dict w; ab_type := ab_type w |}]>
                 (windows (set_entry root "ab_type" (Str name) st)))
              (set_entry root "ab_type" (Str name) st)).
Proof.
  intros Hk Hl Hp.
  assert (Hab : is_Some (entries w !! "ab_type"%string)).
  { apply (Hk root w Hl). right. reflexivity. }
  destruct Hab as [sel Hsel]. exists sel. split; [exact Hsel|].
  cbn [step]. rewrite Hl. unfold reset_ab.
  rewrite set_entry_lookup, decide_True by reflexivity. rewrite Hl.
  cbn [fmap option_fmap option_map entries Abundance.ab_dict Abundance.ab_type].
  rewrite lookup_alter_eq, Hsel.
  cbn [fmap option_fmap option_map get_value value_var set_value]. rewrite Hp.
  rewrite decide_True; [reflexivity|].
  intros element e He.
  apply lookup_delete_Some in He. destruct He as [Hne He].
  assert (Hs : is_Some (entries w !! element)).
  { apply (lookup_alter_is_Some (set_value (Str name)) (entries w) "ab_type" element).
    eexists. exact He. }
  apply (Hk root w Hl element) in Hs. destruct Hs as [Hin|Heq].
  - destruct (preset_complete_lookup preset element (presets_complete name preset Hp) Hin)
      as (x & Hx & _).
    eexists. exact Hx.
  - exfalso. apply Hne. symmetry. exact Heq.
Qed.

Lemma offered_step_succeeds (st : State) (a : Action) :
  reachable validate st -> offered st a -> is_Some (step validate a st).
Proof.
  intros Hr Ha.
  pose proof (reachable_keys_ok st Hr) as Hk.
  pose proof (reachable_numbers_ok st Hr) as Hn.
  destruct a as [k | root element x | root name | root p]; cbn [offered] in Ha; cbn [step].
  - destruct (slot st k) as [root|] eqn:Hs.
    + rewrite (abundance_window_open _ _ _ _ Hs). eexists. reflexivity.
    + rewrite (abundance_window_new _ _ _ Hs).
      destruct (element_entries_total ELEMENT_ORDER (dict st (table_of k))) as [es0 ->].
      * destruct Hn as (Hta & Htb & _). destruct k; [exact Hta | exact Htb].
      * eexists. reflexivity.
  - destruct Ha as [[w ->] Hin]. rewrite decide_True by exact Hin. eexists. reflexivity.
  - destruct Ha as [[w Hl] [preset Hp]].
    destruct (pick_succeeds st root w name preset Hk Hl Hp) as (sel & _ & E).
    cbn [step] in E. rewrite E. eexists. reflexivity.
  - destruct Ha as [w Hl]. rewrite Hl.
    assert (Hab : is_Some (entries w !! "ab_type"%string)).
    { apply (Hk root w Hl). right. reflexivity. }
    destruct (ab_window_close_spec validate st root w (ab_dict w) (ab_type w) (event_of p) Hl Hab)
      as (st' & _ & -> & _).
    eexists. reflexivity.
Qed.

(** X12.  No action the windows offer raises: when validation leaves
    numbers in the element inputs, then in every reachable state both
    editors can be opened, and a live editor accepts typing into a listed
    element, every preset of [ABUNDANCE], and each of the three ways of
    closing it. *)
Theorem no_offered_action_raises (st : State) (a : Action) :
  reachable validate st -> offered st a -> is_Some (step validate a st).
Proof. apply offered_step_succeeds. Qed.

(** X13.  Picking a preset of [ABUNDANCE] in a live editor of a reachable
    state succeeds and fills the editor with the preset: the dropdown
    reads the preset's name, every listed element shows the preset's
    number, which has two decimals and so is shown exactly, and the other
    windows stay as they are. *)
Theorem preset_fills_editor (st : State) (root : nat) (w : Window) (name : string)
    (preset : gmap string Q) :
  reachable validate st ->
  windows st !! root = Some w ->
  ABUNDANCE !! name = Some preset ->
  exists st' w',
    step validate (Pick root name) st = Some st' /\
    windows st' !! root = Some w' /\
    ab_type w' = ab_type w /\ ab_dict w' = ab_dict w /\
    get_value <$> entries w' !! "ab_type"%string = Some (Str name) /\
    (forall element, element ∈ ELEMENT_ORDER ->
       exists x, preset !! element = Some x /\
                 get_value <$> entries w' !! element = Some (Num (fmt2 x)) /\
                 fmt2 x == x) /\
    (forall r, r <> root -> windows st' !! r = windows st !! r).
Proof.
  intros Hr Hl Hp. pose proof (reachable_keys_ok st Hr) as Hk.
  destruct (pick_succeeds st root w name preset Hk Hl Hp) as (sel & Hsel & E).
  eexists. eexists. split; [exact E|].
  split; [cbn; apply lookup_insert_eq|].
  split; [reflexivity|]. split; [reflexivity|].
  cbn [entries]. split; [|split].
  - rewrite reset_entries_lookup, lookup_alter_eq, Hsel. cbn.
    rewrite decide_True by reflexivity. reflexivity.
  - intros element Hin.
    destruct (preset_complete_lookup preset element (presets_complete name preset Hp) Hin)
      as (x & Hx & Hfx).
    exists x. split; [exact Hx|]. split; [|exact Hfx].
    assert (Hne : "ab_type"%string <> element)
      by (intros <-; exact (ab_type_not_element Hin)).
    rewrite reset_entries_lookup, lookup_alter_ne by exact Hne.
    destruct (proj2 (Hk root w Hl element) (or_introl Hin)) as [e He].
    rewrite He, Hx. rewrite decide_False by (intros E'; apply Hne; symmetry; exact E').
    reflexivity.
  - intros r Hne. cbn [windows set_windows].
    rewrite lookup_insert_ne by (intros E'; apply Hne; symmetry; exact E').
    rewrite set_entry_lookup, decide_False by (intros E'; apply Hne; symmetry; exact E').
    reflexivity.
Qed.

(** X14.  Closing an editor and opening the editor of its kind again
    shows what was committed: when validation leaves numbers in the
    element inputs, both steps succeed in every reachable state, the new
    window is of the same kind, its dropdown shows the preset the closed
    window showed, and each listed element shows the number the closed
    window held for it, to two decimals. *)
Theorem reopened_editor_shows_committed (st : State) (root : nat) (w : Window)
    (p : ClosePath) :
  reachable validate st ->
  windows st !! root = Some w ->
  exists st1 st2 w2,
    step validate (Close root p) st = Some st1 /\
    step validate (Open (ab_type w)) st1 = Some st2 /\
    windows st2 !! next_root st = Some w2 /\
    ab_type w2 = ab_type w /\
    get_value <$> entries w2 !! "ab_type"%string
      = get_value <$> working_copy validate p w !! "ab_type"%string /\
    (forall element, element ∈ ELEMENT_ORDER ->
       exists x, get_value <$> working_copy validate p w !! element = Some (Num x) /\
                 get_value <$> entries w2 !! element = Some (Num (fmt2 x))).
Proof.
  intros Hr Hl.
  pose proof (reachable_keys_ok st Hr) as Hk.
  pose proof (reachable_numbers_ok st Hr) as Hn.
  destruct (reachable_well_formed validate st Hr) as [Hwf _].
  destruct (Hwf root w Hl) as (_ & Hdict & _).
  destruct (offered_step_succeeds st (Close root p) Hr) as [st1 H1].
  { exists w. exact Hl. }
  pose proof (reachable_step validate st (Close root p) st1 Hr H1) as Hr1.
  pose proof (reachable_numbers_ok st1 Hr1) as Hn1.
  destruct (close_tables st st1 root w p Hk Hl H1) as (Hd & _ & _ & Hnext & Hsl & sel & Hsel & Hdt).
  assert (Hs : slot st1 (ab_type w) = None).
  { rewrite Hsl, decide_True by reflexivity. reflexivity. }
  assert (Ht : table_numeric (dict st1 (table_of (ab_type w)))).
  { destruct Hn1 as (Hta & Htb & _). destruct (ab_type w); [exact Hta | exact Htb]. }
  destruct (element_entries_total ELEMENT_ORDER _ Ht) as [es0 Hes0].
  exists st1. eexists. eexists.
  split; [exact H1|].
  split; [cbn [step]; rewrite (abundance_window_new _ _ _ Hs), Hes0; reflexivity|].
  split; [cbn; rewrite Hnext; apply lookup_insert_eq|].
  split; [reflexivity|]. cbn [entries]. split.
  - rewrite lookup_insert_eq, Hsel. cbn. rewrite Hdt. reflexivity.
  - intros element Hin.
    rewrite lookup_insert_ne by (intros <-; exact (ab_type_not_element Hin)).
    destruct (element_entries_lookup _ _ _ Hes0 element) as [Hlook _].
    destruct (Hlook Hin) as (x & Hx & Hex). exists x. split; [|rewrite Hex; reflexivity].
    rewrite <- Hdict, Hd in Hx.
    rewrite lookup_delete_ne in Hx by (intros <-; exact (ab_type_not_element Hin)).
    destruct (proj2 (Hk root w Hl element) (or_introl Hin)) as [e0 He0].
    assert (Hwc : is_Some (working_copy validate p w !! element)).
    { apply working_copy_keys. eexists. exact He0. }
    destruct Hwc as [e He].
    rewrite (lookup_union_Some_l _ _ _ (get_value e)) in Hx
      by (rewrite lookup_fmap, He; reflexivity).
    rewrite He. cbn. exact Hx.
Qed.

End AbundanceExtraFacts.

Section AbundanceExtraWitnesses.
Import Abundance AbundanceSpec AbundanceExtra.

Lemma validate_entry_keeps_numbers : keeps_numbers validate_entry.
Proof.
  intros id e _ [Hv Hp]. unfold validate_entry.
  destruct (decide _); [|split; assumption].
  destruct (value_var e) as [x|] eqn:E; [|discriminate Hv].
  destruct (Qlt_le_dec 0 x); [destruct (Qlt_le_dec x 100)|];
    split; try reflexivity; exact Hp.
Qed.

Lemma not_listed (key : string) :
  forallb (fun element => negb (String.eqb key element)) ELEMENT_ORDER = true ->
  key ∉ ELEMENT_ORDER.
Proof.
  intros H Hin. rewrite forallb_forall in H. apply list_elem_of_In in Hin.
  specialize (H key Hin). rewrite String.eqb_refl in H. discriminate H.
Qed.

Lemma edits_stay_in_the_editor_witness :
  let st := after validate_entry [Open ISM] in
  let st' := after validate_entry [Open ISM; Type_ 0 "He" 11] in
  dict st' = dict st /\ default_type st' = default_type st /\ log st' = log st.
Proof.
  apply (edits_stay_in_the_editor validate_entry (Type_ 0 "He" 11)).
  - reflexivity.
  - vm_compute. reflexivity.
Defined.

Lemma unlisted_abundances_untouched_witness :
  let st := after validate_entry [Open ISM; Type_ 0 "He" 11; Close 0 Submit] in
  abundance st !! "H"%string = (Num <$> LMC) !! "H"%string /\
  ej_abundance st !! "H"%string = (Num <$> Type_Ia) !! "H"%string.
Proof.
  apply (unlisted_abundances_untouched validate_entry).
  - apply after_reachable.
  - apply not_listed. vm_compute. reflexivity.
Defined.

Lemma no_offered_action_raises_witness :
  is_Some (step validate_entry (Pick 0 "Solar") (after validate_entry [Open ISM])).
Proof.
  apply (no_offered_action_raises validate_entry validate_entry_keeps_numbers).
  - apply after_reachable.
  - split; vm_compute; eexists; reflexivity.
Defined.

Lemma preset_fills_editor_witness :
  let st := after validate_entry [Open Ejecta; Type_ 0 "O" 10] in
  exists st' w',
    step validate_entry (Pick 0 "CC") st = Some st' /\
    windows st' !! 0%nat = Some w' /\
    get_value <$> entries w' !! "ab_type"%string = Some (Str "CC") /\
    get_value <$> entries w' !! "O"%string = Some (Num (fmt2 9.69)).
Proof.
  intros st.
  assert (Hl : is_live st 0 = true) by (vm_compute; reflexivity).
  assert (Hp : ABUNDANCE !! "CC"%string = Some CC) by (vm_compute; reflexivity).
  assert (Ho : CC !! "O"%string = Some 9.69) by (vm_compute; reflexivity).
  destruct (preset_fills_editor validate_entry st 0%nat (window_at st 0) "CC" CC
              (after_reachable validate_entry _) (is_live_window_at st 0 Hl) Hp)
    as (st' & w' & Hstep & Hw & _ & _ & Hsel & Hel & _).
  exists st', w'. split; [exact Hstep|]. split; [exact Hw|]. split; [exact Hsel|].
  destruct (Hel "O"%string) as (x & Hx & Hv & _).
  - apply list_elem_of_In. vm_compute. tauto.
  - rewrite Ho in Hx. injection Hx as <-. exact Hv.
Defined.

Lemma reopened_editor_shows_committed_witness :
  let st := after validate_entry [Open ISM; Type_ 0 "He" 11] in
  exists st1 st2 w2,
    step validate_entry (Close 0 (Return (Some "He"%string))) st = Some st1 /\
    step validate_entry (Open ISM) st1 = Some st2 /\
    windows st2 !! 1%nat = Some w2 /\
    get_value <$> entries w2 !! "ab_type"%string = Some (Str "Custom") /\
    get_value <$> entries w2 !! "He"%string = Some (Num (fmt2 11)).
Proof.
  intros st.
  assert (Hl : is_live st 0 = true) by (vm_compute; reflexivity).
  assert (Hk : ab_type (window_at st 0) = ISM) by (vm_compute; reflexivity).
  assert (Hn : next_root st = 1%nat) by (vm_compute; reflexivity).
  assert (Hs : get_value <$> working_copy validate_entry (Return (Some "He"%string))
                               (window_at st 0) !! "ab_type"%string
               = Some (Str "Custom")) by (vm_compute; reflexivity).
  assert (He : get_value <$> working_copy validate_entry (Return (Some "He"%string))
                               (window_at st 0) !! "He"%string
               = Some (Num 11)) by (vm_compute; reflexivity).
  destruct (reopened_editor_shows_committed validate_entry validate_entry_keeps_numbers
              st 0%nat (window_at st 0) (Return (Some "He"%string))
              (after_reachable validate_entry _) (is_live_window_at st 0 Hl))
    as (st1 & st2 & w2 & H1 & H2 & Hw & _ & Hsel & Hel).
  exists st1, st2, w2. rewrite Hk in H2. rewrite Hn in Hw. rewrite Hs in Hsel.
  split; [exact H1|]. split; [exact H2|]. split; [exact Hw|]. split; [exact Hsel|].
  destruct (Hel "He"%string) as (x & Hx & Hv).
  - apply list_elem_of_In. vm_compute. tauto.
  - rewrite He in Hx. injection Hx as <-. exact Hv.
Defined.

End AbundanceExtraWitnesses.
